(** * Liferay URL Extractor: a shallow embedding of the crawl engine

  The development follows the Python sources module by module:
  - [Py]       : the values and exceptions the program manipulates;
  - [Urllib]   : [urllib.parse.urljoin], the library call of [Page.from_json];
  - [Page]     : models/page.py;
  - [Cache]    : core/cache.py;
  - [Session]  : core/session.py;
  - [Extractor]: core/extractor.py ([get_layouts] and its coroutine blocks);
  - [Helpers]  : utils/helpers.py (checkpoint file);
  - [TxtExport]: exporters/txt_exporter.py.

  Strings are byte strings (UTF-8); a timestamp ([time.time()]) is a
  rational number of seconds. *)

From Stdlib Require Import ZArith QArith Lqa String Ascii List Sorting.Sorted Permutation.
From stdpp Require Import base option gmap strings list fin_maps sets relations pretty sorting.

Local Open Scope string_scope.
Local Open Scope Z_scope.

(** ** Python values and exceptions *)

Module Py.

(** A value of type [Any] as it comes out of [json.loads] or goes into
    [json.dump]: [None], [bool], [int], [float], [str], [list], [dict]
    with string keys. *)
#[warnings="-register-all"] Inductive json : Type :=
| JNull
| JBool (b : bool)
| JInt (z : Z)
| JFloat (q : Q)
| JStr (s : string)
| JList (l : list json)
| JDict (d : gmap string json).

(** The exception classes the sources raise or catch. *)
Inductive exn : Type :=
| RuntimeError
| AttributeError
| KeyError
| TypeError
| ValueError
| OSError.

(** The outcome of running a piece of Python: a value or a raised
    exception. *)
Inductive result (A : Type) : Type :=
| Ok (a : A)
| Raise (e : exn).
Arguments Ok {A} a.
Arguments Raise {A} e.

Definition bind {A B} (r : result A) (k : A -> result B) : result B :=
  match r with
  | Ok a => k a
  | Raise e => Raise e
  end.

(** [d.get(key, default)] on a dict. *)
Definition dict_get (d : gmap string json) (key : string) (dflt : json) : json :=
  default dflt (d !! key).

(** [str(b)] for a bool. *)
Definition str_of_bool (b : bool) : string :=
  if b then "True" else "False".

(** [str(z)] for an int: decimal digits, with a minus sign when negative. *)
Definition str_of_int (z : Z) : string := pretty z.

(** [s.startswith('/')]. *)
Definition startswith_slash (s : string) : bool :=
  match s with
  | String "/" _ => true
  | _ => false
  end.

(** [s.endswith('/')]. *)
Fixpoint endswith_slash (s : string) : bool :=
  match s with
  | EmptyString => false
  | String c EmptyString => Ascii.eqb c "/"
  | String _ rest => endswith_slash rest
  end.

(** [s[1:]]. *)
Definition drop_first (s : string) : string :=
  match s with
  | EmptyString => EmptyString
  | String _ rest => rest
  end.

(** [s[:-1]]. *)
Fixpoint drop_last (s : string) : string :=
  match s with
  | EmptyString => EmptyString
  | String _ EmptyString => EmptyString
  | String c rest => String c (drop_last rest)
  end.

(** The idiom [if s.endswith('/'): s = s[:-1]] of page.py and
    txt_exporter.py: exactly one trailing slash is removed. *)
Definition strip_one_slash (s : string) : string :=
  if endswith_slash s then drop_last s else s.

(** [s] ends with ["c/"]. *)
Definition ends_c_slash (s : string) : Prop := exists pre, s = pre ++ "c/".

End Py.

(** ** urllib.parse.urljoin

  [Page.from_json] calls the standard library's [urljoin].  The model
  below follows CPython 3.11's [urllib/parse.py] for [str] arguments
  ([urlsplit], [urlparse], [urlunsplit], [urlunparse], [urljoin]).  Two
  validations of the host part are library code that is taken as a
  parameter: [bracketed_ok] stands for [_check_bracketed_netloc] (a host
  written in brackets must be an IP literal) and [nfkc_ok] for
  [_checknetloc] (a non-ASCII host must stay free of delimiters under
  NFKC normalisation); each answers [false] where the library raises
  [ValueError]. *)

Module Urllib.
Import Py.

Definition uses_relative : list string :=
  [""; "ftp"; "http"; "gopher"; "nntp"; "imap"; "wais"; "file"; "https";
   "shttp"; "mms"; "prospero"; "rtsp"; "rtspu"; "sftp"; "svn"; "svn+ssh";
   "ws"; "wss"].

Definition uses_netloc : list string :=
  [""; "ftp"; "http"; "gopher"; "nntp"; "telnet"; "imap"; "wais"; "file";
   "mms"; "https"; "shttp"; "snews"; "prospero"; "rtsp"; "rtspu"; "rsync";
   "svn"; "svn+ssh"; "sftp"; "nfs"; "git"; "git+ssh"; "ws"; "wss"].

Definition uses_params : list string :=
  [""; "ftp"; "hdl"; "prospero"; "http"; "imap"; "https"; "shttp"; "rtsp";
   "rtspu"; "sip"; "sips"; "mms"; "sftp"; "tel"].

Definition mem (s : string) (l : list string) : bool :=
  existsb (String.eqb s) l.

Definition code (c : ascii) : nat := nat_of_ascii c.

Definition is_upper (c : ascii) : bool := (65 <=? code c)%nat && (code c <=? 90)%nat.
Definition is_lower (c : ascii) : bool := (97 <=? code c)%nat && (code c <=? 122)%nat.
Definition is_digit (c : ascii) : bool := (48 <=? code c)%nat && (code c <=? 57)%nat.
Definition is_ascii_alpha (c : ascii) : bool := is_upper c || is_lower c.

(** [c in scheme_chars]. *)
Definition scheme_char (c : ascii) : bool :=
  is_ascii_alpha c || is_digit c
  || Ascii.eqb c "+" || Ascii.eqb c "-" || Ascii.eqb c ".".

(** [c in _WHATWG_C0_CONTROL_OR_SPACE]. *)
Definition c0_or_space (c : ascii) : bool := (code c <=? 32)%nat.

(** [c in _UNSAFE_URL_BYTES_TO_REMOVE]: tab, carriage return, newline. *)
Definition unsafe_byte (c : ascii) : bool :=
  (code c =? 9)%nat || (code c =? 13)%nat || (code c =? 10)%nat.

Definition lower_char (c : ascii) : ascii :=
  if is_upper c then ascii_of_nat (code c + 32) else c.

Fixpoint lower (s : string) : string :=
  match s with
  | EmptyString => EmptyString
  | String c r => String (lower_char c) (lower r)
  end.

Fixpoint all_chars (p : ascii -> bool) (s : string) : bool :=
  match s with
  | EmptyString => true
  | String c r => p c && all_chars p r
  end.

Fixpoint contains (c : ascii) (s : string) : bool :=
  match s with
  | EmptyString => false
  | String a r => Ascii.eqb a c || contains c r
  end.

(** [s.lstrip(chars)]. *)
Fixpoint lstrip (p : ascii -> bool) (s : string) : string :=
  match s with
  | EmptyString => EmptyString
  | String c r => if p c then lstrip p r else s
  end.

(** [s.rstrip(chars)]. *)
Fixpoint rstrip (p : ascii -> bool) (s : string) : string :=
  match s with
  | EmptyString => EmptyString
  | String c r =>
      match rstrip p r with
      | EmptyString => if p c then EmptyString else String c EmptyString
      | r' => String c r'
      end
  end.

Definition strip (p : ascii -> bool) (s : string) : string :=
  rstrip p (lstrip p s).

(** [s.replace(b, "")] for every [b] satisfying [p]. *)
Fixpoint remove_chars (p : ascii -> bool) (s : string) : string :=
  match s with
  | EmptyString => EmptyString
  | String c r => if p c then remove_chars p r else String c (remove_chars p r)
  end.

(** [s.partition(c)] without the separator: the text before the first
    [c] and, when [c] occurs, the text after it. *)
Fixpoint cut (c : ascii) (s : string) : string * option string :=
  match s with
  | EmptyString => (EmptyString, None)
  | String a r =>
      if Ascii.eqb a c then (EmptyString, Some r)
      else let '(h, t) := cut c r in (String a h, t)
  end.

(** [s.split(c)]: never the empty list. *)
Fixpoint split (c : ascii) (s : string) : list string :=
  match s with
  | EmptyString => [EmptyString]
  | String a r =>
      if Ascii.eqb a c then EmptyString :: split c r
      else match split c r with
           | h :: t => String a h :: t
           | [] => [String a EmptyString]
           end
  end.

(** The longest prefix of [s] free of the delimiters [p], and the rest. *)
Fixpoint span_until (p : ascii -> bool) (s : string) : string * string :=
  match s with
  | EmptyString => (EmptyString, EmptyString)
  | String a r =>
      if p a then (EmptyString, s)
      else let '(h, t) := span_until p r in (String a h, t)
  end.

(** [_splitnetloc(url, 2)] for a [url] that starts with two slashes. *)
Definition splitnetloc (url : string) : string * string :=
  span_until (fun c => Ascii.eqb c "/" || Ascii.eqb c "?" || Ascii.eqb c "#")
             (drop_first (drop_first url)).

Definition starts_with_two_slashes (s : string) : bool :=
  match s with
  | String "/" (String "/" _) => true
  | _ => false
  end.

Definition is_empty (s : string) : bool :=
  match s with EmptyString => true | _ => false end.

(** ** Parsing *)

Record parsed : Type := Parsed {
  scheme : string;
  netloc : string;
  path : string;
  params : string;
  query : string;
  fragment : string
}.

Section HostChecks.

Variable bracketed_ok : string -> bool.
Variable nfkc_ok : string -> bool.

(** The scheme test of [urlsplit]: [i = url.find(':')], [i > 0], the
    first character an ASCII letter and every character before the
    colon in [scheme_chars]. *)
Definition split_scheme (url dflt : string) : string * string :=
  match cut ":" url with
  | (String c pre, Some post) =>
      if is_ascii_alpha c && all_chars scheme_char (String c pre)
      then (lower (String c pre), post)
      else (dflt, url)
  | _ => (dflt, url)
  end.

(** The checks [urlsplit] runs on the host part; [false] is
    [ValueError]. *)
Definition netloc_ok (nl : string) : bool :=
  let open_br := contains "[" nl in
  let close_br := contains "]" nl in
  negb ((open_br && negb close_br) || (close_br && negb open_br))
  && (if open_br && close_br then bracketed_ok nl else true)
  && (if is_empty nl || all_chars (fun c => (code c <? 128)%nat) nl
      then true else nfkc_ok nl).

(** [urlsplit(url, scheme)]; the [params] field is filled by
    [urlparse]. *)
Definition urlsplit (url dflt : string) : result parsed :=
  let url := lstrip c0_or_space url in
  let dflt := strip c0_or_space dflt in
  let url := remove_chars unsafe_byte url in
  let dflt := remove_chars unsafe_byte dflt in
  let '(sch, url) := split_scheme url dflt in
  let '(nl, url) :=
    if starts_with_two_slashes url then splitnetloc url
    else (EmptyString, url) in
  if negb (netloc_ok nl) then Raise ValueError else
  let '(url, frag) :=
    match cut "#" url with
    | (u, Some f) => (u, f)
    | (u, None) => (u, EmptyString)
    end in
  let '(url, qry) :=
    match cut "?" url with
    | (u, Some q) => (u, q)
    | (u, None) => (u, EmptyString)
    end in
  Ok (Parsed sch nl url EmptyString qry frag).

(** The text before the last slash of [s] and the text from that
    slash on ([s[:s.rfind('/')]] and [s[s.rfind('/'):]]). *)
Fixpoint at_last_slash (s : string) : string * string :=
  match s with
  | EmptyString => (EmptyString, EmptyString)
  | String a r =>
      if contains "/" r
      then let '(h, t) := at_last_slash r in (String a h, t)
      else (EmptyString, s)
  end.

(** [_splitparams(url)], called on a [url] that contains [';']. *)
Definition splitparams (url : string) : string * string :=
  if contains "/" url then
    let '(h, t) := at_last_slash url in
    match cut ";" t with
    | (b, Some a) => (h ++ b, a)
    | (_, None) => (url, EmptyString)
    end
  else
    match cut ";" url with
    | (b, Some a) => (b, a)
    | (b, None) => (b, EmptyString)
    end.

Definition urlparse (url dflt : string) : result parsed :=
  bind (urlsplit url dflt) (fun r =>
    if mem (scheme r) uses_params && contains ";" (path r) then
      let '(u, p) := splitparams (path r) in
      Ok (Parsed (scheme r) (netloc r) u p (query r) (fragment r))
    else Ok r).

(** ** Unparsing *)

Definition urlunsplit (sch nl url qry frag : string) : string :=
  let url :=
    if negb (is_empty nl)
       || (negb (is_empty sch) && mem sch uses_netloc
           && negb (starts_with_two_slashes url))
    then
      let url :=
        if negb (is_empty url) && negb (startswith_slash url)
        then "/" ++ url else url in
      "//" ++ nl ++ url
    else url in
  let url := if negb (is_empty sch) then sch ++ ":" ++ url else url in
  let url := if negb (is_empty qry) then url ++ "?" ++ qry else url in
  if negb (is_empty frag) then url ++ "#" ++ frag else url.

Definition urlunparse (r : parsed) : string :=
  let url :=
    if negb (is_empty (params r)) then path r ++ ";" ++ params r
    else path r in
  urlunsplit (scheme r) (netloc r) url (query r) (fragment r).

(** ** Joining *)

(** [segments[1:-1] = filter(None, segments[1:-1])]. *)
Definition drop_empty_middle (segments : list string) : list string :=
  match segments with
  | first :: (_ :: _) as rest =>
      (first :: filter (fun s => negb (is_empty s)) (removelast rest)
             ++ [List.last rest EmptyString])%list
  | _ => segments
  end.

(** The loop over [segments]; [acc] is [resolved_path] reversed. *)
Fixpoint resolve (segments acc : list string) : list string :=
  match segments with
  | [] => rev acc
  | seg :: rest =>
      if String.eqb seg ".." then resolve rest (tail acc)
      else if String.eqb seg "." then resolve rest acc
      else resolve rest (seg :: acc)
  end.

Definition urljoin (base url : string) : result string :=
  if is_empty base then Ok url else
  if is_empty url then Ok base else
  bind (urlparse base EmptyString) (fun b =>
  bind (urlparse url (scheme b)) (fun u =>
    if negb (String.eqb (scheme u) (scheme b))
       || negb (mem (scheme u) uses_relative)
    then Ok url
    else if mem (scheme u) uses_netloc && negb (is_empty (netloc u))
    then Ok (urlunparse u)
    else
      let nl := if mem (scheme u) uses_netloc then netloc b else netloc u in
      if is_empty (path u) && is_empty (params u) then
        let qry := if is_empty (query u) then query b else query u in
        Ok (urlunparse (Parsed (scheme u) nl (path b) (params b) qry (fragment u)))
      else
        let base_parts := split "/" (path b) in
        let base_parts :=
          if negb (is_empty (List.last base_parts EmptyString))
          then removelast base_parts else base_parts in
        let segments :=
          if startswith_slash (path u) then split "/" (path u)
          else drop_empty_middle (base_parts ++ split "/" (path u))%list in
        let resolved := resolve segments [] in
        let last_seg := List.last segments EmptyString in
        let resolved :=
          if String.eqb last_seg "." || String.eqb last_seg ".."
          then (resolved ++ [EmptyString])%list else resolved in
        let joined := String.concat "/" resolved in
        let joined := if is_empty joined then "/" else joined in
        Ok (urlunparse (Parsed (scheme u) nl joined (params u) (query u) (fragment u))))).

End HostChecks.

End Urllib.

(** ** models/page.py *)

Module Page.
Import Py.

(** The dataclass [Page].  The annotations say [int] and [str], but
    [from_json] stores whatever the layout holds, so [id], [title] and
    [parent_id] are [json] values. *)
Record t : Type := mk {
  id : json;
  path : string;
  url : string;
  title : json;
  parent_id : json;
  private : bool
}.

Section FromJson.

(** [urllib.parse.urljoin]; [Urllib.urljoin] is the instance used for
    concrete inputs. *)
Variable urljoin : string -> string -> result string.

(** [f"{parent_url}/{friendly_url}" if parent_url else friendly_url]. *)
Definition full_path (parent_url friendly_url : string) : string :=
  if Urllib.is_empty parent_url then friendly_url
  else parent_url ++ "/" ++ friendly_url.

(** The friendly URL without its leading slash
    ([if friendly_url.startswith('/'): friendly_url = friendly_url[1:]]). *)
Definition own_segment (friendly_url : string) : string :=
  if startswith_slash friendly_url then drop_first friendly_url
  else friendly_url.

(** [Page.from_json(layout, parent_url, is_private, base_url)].
    [friendly_url.startswith] needs a [str]: any other value raises
    [AttributeError]. *)
Definition from_json (layout : gmap string json) (parent_url : string)
           (is_private : bool) (base_url : string) : result t :=
  let layout_id := dict_get layout "layoutId" (JInt 0) in
  let friendly_url := dict_get layout "friendlyURL" (JStr "") in
  let layout_name := dict_get layout "name" (JStr "") in
  match friendly_url with
  | JStr friendly_url =>
      let friendly_url := own_segment friendly_url in
      let full_path := full_path parent_url friendly_url in
      bind (urljoin base_url full_path) (fun complete_url =>
        let complete_url := strip_one_slash complete_url in
        Ok {| id := layout_id;
              path := full_path;
              url := complete_url;
              title := layout_name;
              parent_id := dict_get layout "parentLayoutId" (JInt 0);
              private := is_private |})
  | _ => Raise AttributeError
  end.

End FromJson.

(** [Page.to_dict]. *)
Definition to_dict (p : t) : json :=
  JDict (<["id" := id p]>
        (<["path" := JStr (path p)]>
        (<["url" := JStr (url p)]>
        (<["title" := title p]>
        (<["parent_id" := parent_id p]>
        (<["private" := JBool (private p)]> ∅)))))).

End Page.

(** ** The state the crawl engine mutates

  One record gathers what the objects of a run hold: the extractor's
  visited set, record list, site tree and statistics, the cache
  manager's shelve database, the session manager's session, the wall
  clock read by [time.time()], and a trace of what has been sent,
  logged and slept.  Code is a function from this state to a result and
  a new state; a raised exception keeps the mutations made so far. *)

Module Sys.
Import Py.

(** The [stats] dictionary of the extractor. *)
Record Stats : Type := mkStats {
  layouts_processed : Z;
  requests_made : Z;
  request_errors : Z;
  retries : Z;
  cache_hits : Z;
  cache_misses : Z;
  start_time : option Q;
  end_time : option Q
}.

Definition initial_stats : Stats :=
  mkStats 0 0 0 0 0 0 None None.

(** A value stored by [CacheManager]: the dictionary
    [{'time': ..., 'content': ...}]; an entry written by other code may
    lack either key. *)
Record cache_entry : Type := mkEntry {
  entry_time : option Q;
  entry_content : option json
}.

Inductive level : Type := Info | Warn | Error | CacheLog | Debug | Success.

(** The messages the modelled code logs, by their arguments; [render]
    gives the text of each. *)
Inductive message : Type :=
| CacheHit (key : string)
| CacheExpired (key : string)
| CacheUpdated (key : string)
| BadResponse (attempt : nat) (max_retries status : Z)
| ErrorDetails (text : string)
| GaveUp (max_retries : Z) (err : string)
| Waiting (attempt : nat) (wait_time : Z)
| UnexpectedError (err : string).

Definition render (m : message) : string :=
  match m with
  | CacheHit key => "Cache hit para chave: " ++ key
  | CacheExpired key => "Cache expirado para chave: " ++ key
  | CacheUpdated key => "Atualizado cache para chave: " ++ key
  | BadResponse attempt max_retries status =>
      "Erro na resposta (tentativa " ++ str_of_int (Z.of_nat attempt + 1) ++ "/"
      ++ str_of_int max_retries ++ "): Status " ++ str_of_int status
  | ErrorDetails text => "Detalhes do erro: " ++ text ++ "..."
  | GaveUp max_retries err =>
      "Falha na requisição após " ++ str_of_int max_retries
      ++ " tentativas: " ++ err
  | Waiting attempt wait_time =>
      "Tentativa " ++ str_of_int (Z.of_nat attempt + 1) ++ " falhou. Aguardando "
      ++ str_of_int wait_time ++ "s antes de tentar novamente..."
  | UnexpectedError err => "Erro inesperado: " ++ err
  end.

Inductive event : Type :=
| Log (lvl : level) (msg : message)
| Sleep (seconds : Z)
| Request (verb url : string) (params : json)
| FetchIssued (parent_layout_id : Z) (is_private : bool).

Record World : Type := mkWorld {
  processed_layouts : gset string;
  all_pages : list json;
  site_structure : json;
  stats : Stats;
  cache_db : gmap string cache_entry;
  session_open : bool;
  clock : Q;
  sent : nat;
  trace : list event
}.

Definition set_processed_layouts (f : gset string -> gset string) (w : World) : World :=
  mkWorld (f (processed_layouts w)) (all_pages w) (site_structure w) (stats w)
          (cache_db w) (session_open w) (clock w) (sent w) (trace w).

Definition set_all_pages (f : list json -> list json) (w : World) : World :=
  mkWorld (processed_layouts w) (f (all_pages w)) (site_structure w) (stats w)
          (cache_db w) (session_open w) (clock w) (sent w) (trace w).

Definition set_stats (f : Stats -> Stats) (w : World) : World :=
  mkWorld (processed_layouts w) (all_pages w) (site_structure w) (f (stats w))
          (cache_db w) (session_open w) (clock w) (sent w) (trace w).

Definition set_cache_db (f : gmap string cache_entry -> gmap string cache_entry)
           (w : World) : World :=
  mkWorld (processed_layouts w) (all_pages w) (site_structure w) (stats w)
          (f (cache_db w)) (session_open w) (clock w) (sent w) (trace w).

Definition set_clock (f : Q -> Q) (w : World) : World :=
  mkWorld (processed_layouts w) (all_pages w) (site_structure w) (stats w)
          (cache_db w) (session_open w) (f (clock w)) (sent w) (trace w).

Definition set_sent (f : nat -> nat) (w : World) : World :=
  mkWorld (processed_layouts w) (all_pages w) (site_structure w) (stats w)
          (cache_db w) (session_open w) (clock w) (f (sent w)) (trace w).

Definition emit (e : event) (w : World) : World :=
  mkWorld (processed_layouts w) (all_pages w) (site_structure w) (stats w)
          (cache_db w) (session_open w) (clock w) (sent w) (trace w ++ [e]).

(** [logger.<level>(msg)]. *)
Definition log (lvl : level) (msg : message) : World -> World :=
  emit (Log lvl msg).

(** [await asyncio.sleep(seconds)]: the clock moves on. *)
Definition sleep (seconds : Z) (w : World) : World :=
  set_clock (fun t => (t + inject_Z seconds)%Q) (emit (Sleep seconds) w).

(** ** The monad of state and exceptions *)

Definition M (A : Type) : Type := World -> result A * World.

Definition ret {A} (a : A) : M A := fun w => (Ok a, w).

Definition mbind {A B} (m : M A) (k : A -> M B) : M B :=
  fun w =>
    match m w with
    | (Ok a, w') => k a w'
    | (Raise e, w') => (Raise e, w')
    end.

(** A statement that cannot raise. *)
Definition exec (f : World -> World) : M unit := fun w => (Ok tt, f w).

Declare Scope py_scope.
Delimit Scope py_scope with py.
Notation "'let*' x ':=' m 'in' k" := (mbind m (fun x => k))
  (at level 10, x name, k at level 200) : py_scope.

End Sys.

(** ** core/cache.py *)

Module Cache.
Import Py Sys.
Local Open Scope py_scope.

(** The fields of [CacheManager] that the methods read; the shelve
    database itself is [cache_db] in the state. *)
Record CacheManager : Type := mk {
  ttl : Z;
  key_prefix : string
}.

(** [CacheManager.__init__]: the time-to-live is given in hours and kept
    in seconds. *)
Definition new (ttl_hours : Z) (prefix : string) : CacheManager :=
  {| ttl := ttl_hours * 3600; key_prefix := prefix |}.

(** [x < y] on timestamps. *)
Definition Qltb (x y : Q) : bool := negb (Qle_bool y x).

(** [CacheManager.is_valid(cache_time)]. *)
Definition is_valid (cm : CacheManager) (cache_time : Q) (w : World) : bool :=
  if ttl cm <=? 0 then false
  else Qltb (clock w - cache_time) (inject_Z (ttl cm)).

(** [f"{self.key_prefix}_{key}"]. *)
Definition full_key (cm : CacheManager) (key : string) : string :=
  key_prefix cm ++ "_" ++ key.

(** The first half of [get_or_fetch], up to [await fetch_func(...)]:
    [Some content] on a cache hit. *)
Definition lookup (cm : CacheManager) (key : string) (w : World)
  : option json * World :=
  if (0 <? ttl cm) then
    match cache_db w !! full_key cm key with
    | Some cache_data =>
        let cache_time := default 0%Q (entry_time cache_data) in
        if is_valid cm cache_time w then
          (Some (default JNull (entry_content cache_data)),
           log CacheLog (CacheHit key) w)
        else
          (None, log CacheLog (CacheExpired key) w)
    | None => (None, w)
    end
  else (None, w).

(** The second half of [get_or_fetch], after [fetch_func] returned
    [data]. *)
Definition store (cm : CacheManager) (key : string) (data : json) (w : World)
  : World :=
  if (0 <? ttl cm) then
    log CacheLog (CacheUpdated key)
        (set_cache_db
           (insert (full_key cm key)
                   {| entry_time := Some (clock w); entry_content := Some data |})
           w)
  else w.

(** [CacheManager.get_or_fetch(key, fetch_func)]. *)
Definition get_or_fetch (cm : CacheManager) (key : string) (fetch_func : M json)
  : M (json * bool) :=
  fun w =>
    match lookup cm key w with
    | (Some content, w) => (Ok (content, true), w)
    | (None, w) =>
        (let* data := fetch_func in
         let* _ := exec (store cm key data) in
         ret (data, false)) w
    end.

End Cache.

(** ** core/session.py *)

Module Session.
Import Py Sys.
Local Open Scope py_scope.

(** What an [except] clause of [request_with_retry] sees:
    [aiohttp.ClientError] or [asyncio.TimeoutError], or any other
    [Exception]; the string is [str(e)].  The cancellation of the task
    ([asyncio.CancelledError], not an [Exception]) ends the run and is
    not modelled. *)
Inductive failure : Type :=
| ClientError (msg : string)
| TimeoutError (msg : string)
| Unexpected (msg : string).

(** A response: its status, and what [await response.json()] and
    [await response.text()] give, each of which may raise. *)
Record response : Type := mkResponse {
  status : Z;
  json_body : failure + json;
  text_body : failure + string
}.

Section Network.

(** The remote server: the outcome of the [n]-th request of the run. *)
Variable net : nat -> event -> failure + response.

Fixpoint upper (s : string) : string :=
  match s with
  | EmptyString => EmptyString
  | String c r =>
      String (if Urllib.is_lower c then ascii_of_nat (Urllib.code c - 32) else c)
             (upper r)
  end.

(** [s[:n]]. *)
Fixpoint take (n : nat) (s : string) : string :=
  match n, s with
  | S n', String c r => String c (take n' r)
  | _, _ => EmptyString
  end.

(** What the body of the [for] loop does next. *)
Inductive flow : Type :=
| Continue
| Return (v : json).

(** The two [except] clauses. *)
Definition on_failure (max_retries : Z) (attempt : nat) (e : failure)
           (w : World) : flow * World :=
  match e with
  | Unexpected msg =>
      (Return (JList []), log Error (UnexpectedError msg) w)
  | ClientError msg | TimeoutError msg =>
      if Z.of_nat attempt =? max_retries - 1 then
        (Return (JList []),
         log Error (GaveUp max_retries msg) w)
      else
        let wait_time := 2 ^ Z.of_nat attempt in
        (Continue,
         sleep wait_time
           (log Warn (Waiting attempt wait_time) w))
  end.

(** One iteration of [for attempt in range(max_retries)]. *)
Definition one_attempt (method url : string) (params : json) (max_retries : Z)
           (attempt : nat) (w : World) : flow * World :=
  let verb := if String.eqb (upper method) "GET" then "GET" else "POST" in
  let req := Request verb url params in
  let outcome := net (sent w) req in
  let w := set_sent S (emit req w) in
  match outcome with
  | inl e => on_failure max_retries attempt e w
  | inr r =>
      if (status r =? 200) || (status r =? 201) then
        match json_body r with
        | inr data => (Return data, w)
        | inl e => on_failure max_retries attempt e w
        end
      else
        match text_body r with
        | inl e => on_failure max_retries attempt e w
        | inr error_text =>
            let w := log Warn (BadResponse attempt max_retries (status r)) w in
            if Z.of_nat attempt =? max_retries - 1 then
              (Return (JList []),
               log Error (ErrorDetails (take 200 error_text)) w)
            else (Continue, w)
        end
  end.

(** The [for] loop over the attempts that remain; falling out of the
    loop returns [None]. *)
Fixpoint attempts (method url : string) (params : json) (max_retries : Z)
         (remaining : list nat) (w : World) : json * World :=
  match remaining with
  | [] => (JNull, w)
  | attempt :: rest =>
      match one_attempt method url params max_retries attempt w with
      | (Return v, w) => (v, w)
      | (Continue, w) => attempts method url params max_retries rest w
      end
  end.

(** [range(max_retries)]. *)
Definition range (n : Z) : list nat := seq 0 (Z.to_nat n).

(** [SessionManager.request_with_retry(method, url, params, max_retries)].
    The admission gate ([async with self.request_semaphore]) delays a
    call and changes nothing else. *)
Definition request_with_retry (method url : string) (params : json)
           (max_retries : Z) : M json :=
  fun w =>
    if negb (session_open w) then (Raise RuntimeError, w)
    else let '(v, w) := attempts method url params max_retries (range max_retries) w in
         (Ok v, w).

End Network.

(** ** The retry policy as the specification words it

    "On HTTP success status (200/201) return immediately.  On other HTTP
    status, retry; on the final attempt, log the response body (truncated)
    and return empty.  On connection/timeout error, wait [2^attempt]
    seconds before retrying; on final attempt, log and return empty.  On
    any other unexpected error, return empty immediately without
    retrying." *)

(** The four cases of the policy. *)
Inductive verdict : Type :=
| Succeeded (data : json)
| BadStatus (status : Z) (body : string)
| Transient (msg : string)
| Broken (msg : string).

Definition verdict_of_failure (e : failure) : verdict :=
  match e with
  | ClientError msg | TimeoutError msg => Transient msg
  | Unexpected msg => Broken msg
  end.

(** The case an outcome of the network falls in: an exception raised
    while the body is read counts like one raised by the request. *)
Definition classify (o : failure + response) : verdict :=
  match o with
  | inl e => verdict_of_failure e
  | inr r =>
      if (status r =? 200) || (status r =? 201) then
        match json_body r with
        | inr data => Succeeded data
        | inl e => verdict_of_failure e
        end
      else
        match text_body r with
        | inr body => BadStatus (status r) body
        | inl e => verdict_of_failure e
        end
  end.

(** What the policy lets one observe of a call besides its answer. *)
Inductive effect : Type :=
| Wait (seconds : Z)
| LogBody (text : string).

Record report : Type := mkReport {
  answer : json;
  effects : list effect;
  requests : nat
}.

Definition and_then (e : list effect) (r : report) : report :=
  mkReport (answer r) (e ++ effects r) (S (requests r)).

(** The policy over the verdicts of the attempts, the first of which has
    number [attempt]; the final attempt is the last of the list. *)
Fixpoint retry_policy (attempt : nat) (verdicts : list verdict) : report :=
  match verdicts with
  | [] => mkReport (JList []) [] 0
  | v :: later =>
      match v, later with
      | Succeeded data, _ => mkReport data [] 1
      | Broken _, _ => mkReport (JList []) [] 1
      | BadStatus _ body, [] => mkReport (JList []) [LogBody (take 200 body)] 1
      | BadStatus _ _, _ => and_then [] (retry_policy (S attempt) later)
      | Transient _, [] => mkReport (JList []) [] 1
      | Transient _, _ =>
          and_then [Wait (2 ^ Z.of_nat attempt)] (retry_policy (S attempt) later)
      end
  end.

(** What a recorded event shows of the policy. *)
Definition effect_of (e : event) : option effect :=
  match e with
  | Sleep seconds => Some (Wait seconds)
  | Log Error (ErrorDetails text) => Some (LogBody text)
  | _ => None
  end.

Definition observed (w : World) : list effect := omap effect_of (trace w).

(** The request [request_with_retry] sends at every attempt. *)
Definition request_of (method url : string) (params : json) : event :=
  Request (if String.eqb (upper method) "GET" then "GET" else "POST") url params.

(** The state once the request of an attempt is on its way. *)
Definition requested (method url : string) (params : json) (w : World) : World :=
  set_sent S (emit (request_of method url params) w).

(** The cases of the [n] requests that follow the [first] requests of the
    run. *)
Definition verdicts (net : nat -> event -> failure + response) (req : event)
           (first n : nat) : list verdict :=
  map (fun i => classify (net i req)) (seq first n).


(** The seconds spent in [asyncio.sleep] among a list of effects. *)
Definition waited (effs : list effect) : Z :=
  foldr (fun e total => match e with
                        | Wait seconds => seconds + total
                        | LogBody _ => total
                        end) 0 effs.

End Session.

(** ** core/extractor.py *)

Module Extractor.
Import Py Sys.
Local Open Scope py_scope.

(** The configuration held by a [LiferayUrlExtractor]. *)
Record t : Type := mk {
  liferay_url : string;
  group_id : string;
  cache_manager : Cache.CacheManager
}.

(** [f"{parent_layout_id}-{is_private}"]: the traversal key. *)
Definition layout_key (parent_layout_id : Z) (is_private : bool) : string :=
  str_of_int parent_layout_id ++ "-" ++ str_of_bool is_private.

(** [f"layout_{self.group_id}_{parent_layout_id}_{is_private}"]. *)
Definition cache_key (ex : t) (parent_layout_id : Z) (is_private : bool) : string :=
  "layout_" ++ group_id ex ++ "_" ++ str_of_int parent_layout_id
  ++ "_" ++ str_of_bool is_private.

Definition endpoint (ex : t) : string :=
  liferay_url ex ++ "/api/jsonws/layout/get-layouts".

Definition params (ex : t) (parent_layout_id : Z) (is_private : bool) : json :=
  JDict (<["groupId" := JStr (group_id ex)]>
        (<["privateLayout" := JStr (Urllib.lower (str_of_bool is_private))]>
        (<["parentLayoutId" := JInt parent_layout_id]> ∅))).

(** [self.stats[...] += 1] for the counters that are incremented. *)
Definition incr_layouts_processed (s : Stats) : Stats :=
  mkStats (layouts_processed s + 1) (requests_made s) (request_errors s)
          (retries s) (cache_hits s) (cache_misses s) (start_time s) (end_time s).

Definition incr_requests_made (s : Stats) : Stats :=
  mkStats (layouts_processed s) (requests_made s + 1) (request_errors s)
          (retries s) (cache_hits s) (cache_misses s) (start_time s) (end_time s).

Definition incr_cache_hits (s : Stats) : Stats :=
  mkStats (layouts_processed s) (requests_made s) (request_errors s)
          (retries s) (cache_hits s + 1) (cache_misses s) (start_time s) (end_time s).

Definition incr_cache_misses (s : Stats) : Stats :=
  mkStats (layouts_processed s) (requests_made s) (request_errors s)
          (retries s) (cache_hits s) (cache_misses s + 1) (start_time s) (end_time s).

Section Run.

Variable net : nat -> event -> Session.failure + Session.response.
Variable urljoin : string -> string -> result string.
Variable ex : t.

(** [_process_layout(layout, parent_url, is_private)]; [layout.get]
    needs a dict. *)
Definition process_layout (layout : json) (parent_url : string)
           (is_private : bool) : M unit :=
  fun w =>
    match layout with
    | JDict d =>
        match Page.from_json urljoin d parent_url is_private (liferay_url ex) with
        | Ok page =>
            (Ok tt,
             set_stats incr_layouts_processed
               (set_all_pages (fun l => l ++ [Page.to_dict page])%list w))
        | Raise e => (Raise e, w)
        end
    | _ => (Raise AttributeError, w)
    end.

(** The closure [fetch_layouts] of [get_layouts].  [FetchIssued] is
    the one thing here that the source does not have: a ghost event
    that marks each call of the closure, so that calls can be counted
    per traversal key. *)
Definition fetch_layouts (parent_layout_id : Z) (is_private : bool) : M json :=
  let* _ := exec (set_stats incr_requests_made) in
  let* _ := exec (emit (FetchIssued parent_layout_id is_private)) in
  Session.request_with_retry net "POST" (endpoint ex)
                             (params ex parent_layout_id is_private) 3.

(** [LiferayUrlExtractor.get_layouts(parent_layout_id, is_private)]. *)
Definition get_layouts (parent_layout_id : Z) (is_private : bool) : M json :=
  fun w =>
    let layout_key := layout_key parent_layout_id is_private in
    if decide (layout_key ∈ processed_layouts w) then (Ok (JList []), w)
    else
      (let* _ := exec (set_processed_layouts (union {[layout_key]})) in
       let* r := Cache.get_or_fetch (cache_manager ex)
                   (cache_key ex parent_layout_id is_private)
                   (fetch_layouts parent_layout_id is_private) in
       let* _ := exec (set_stats (if snd r then incr_cache_hits
                                  else incr_cache_misses)) in
       ret (fst r)) w.

(** ** The coroutine, block by block

    [get_layouts] is a coroutine: it runs until it has to wait and is
    resumed later, and other tasks run in between.  It can only be
    suspended inside [request_with_retry] (waiting for the admission
    gate, the network or the back-off sleep); the code before the
    first request and the code after the last one each run in one
    piece.  The admission gate only makes a coroutine wait longer: every
    interleaving it allows is one of those below. *)

Inductive task : Type :=
| Called (parent_layout_id : Z) (is_private : bool)
| InTransport (parent_layout_id : Z) (is_private : bool) (remaining : list nat)
| Done (r : result json).

(** From the call to the first suspension. *)
Definition start (parent_layout_id : Z) (is_private : bool) (w : World)
  : task * World :=
  let layout_key := layout_key parent_layout_id is_private in
  if decide (layout_key ∈ processed_layouts w) then (Done (Ok (JList [])), w)
  else
    let w := set_processed_layouts (union {[layout_key]}) w in
    match Cache.lookup (cache_manager ex)
                       (cache_key ex parent_layout_id is_private) w with
    | (Some content, w) => (Done (Ok content), set_stats incr_cache_hits w)
    | (None, w) =>
        let w := set_stats incr_requests_made w in
        let w := emit (FetchIssued parent_layout_id is_private) w in
        if negb (session_open w) then (Done (Raise RuntimeError), w)
        else (InTransport parent_layout_id is_private (Session.range 3), w)
    end.

(** From the return of [request_with_retry] to the return of
    [get_layouts]. *)
Definition finish (parent_layout_id : Z) (is_private : bool) (data : json)
           (w : World) : task * World :=
  let w := Cache.store (cache_manager ex)
                       (cache_key ex parent_layout_id is_private) data w in
  (Done (Ok data), set_stats incr_cache_misses w).

(** One resumption of a task. *)
Definition resume (tk : task) (w : World) : task * World :=
  match tk with
  | Called p b => start p b w
  | InTransport p b [] => finish p b JNull w
  | InTransport p b (attempt :: rest) =>
      match Session.one_attempt net "POST" (endpoint ex) (params ex p b) 3
                                attempt w with
      | (Session.Return data, w) => finish p b data w
      | (Session.Continue, w) => (InTransport p b rest, w)
      end
  | Done r => (Done r, w)
  end.

(** A task resumed [fuel] times in a row, nothing running in between. *)
Fixpoint run_alone (fuel : nat) (tk : task) (w : World) : task * World :=
  match fuel with
  | O => (tk, w)
  | S fuel' => let '(tk', w') := resume tk w in run_alone fuel' tk' w'
  end.

(** ** Tasks running together

    The event loop holds any number of [get_layouts] coroutines.  At
    each step a new call is made by some expansion task, or one
    coroutine is resumed, or other code of the run gets the processor
    ([_process_layout], the site tree updates, the periodic save, the
    clock): that code writes neither the visited set nor a
    [FetchIssued] mark. *)

Definition fetch_of (e : event) : option (Z * bool) :=
  match e with
  | FetchIssued p b => Some (p, b)
  | _ => None
  end.

(** The traversal keys whose fetch has been issued, oldest first. *)
Definition fetched (w : World) : list (Z * bool) :=
  omap fetch_of (trace w).

(** The string under which a traversal key is kept in the visited set. *)
Definition key_of (k : Z * bool) : string := layout_key (fst k) (snd k).

Record system : Type := mkSystem {
  world : World;
  tasks : list task
}.

Inductive step : system -> system -> Prop :=
| step_call w ts p b :
    step (mkSystem w ts) (mkSystem w (ts ++ [Called p b]))
| step_resume w ts i tk tk' w' :
    ts !! i = Some tk ->
    resume tk w = (tk', w') ->
    step (mkSystem w ts) (mkSystem w' (<[i := tk']> ts))
| step_other w w' ts :
    processed_layouts w' = processed_layouts w ->
    fetched w' = fetched w ->
    step (mkSystem w ts) (mkSystem w' ts).

(** A schedule, for running a system: which call is made or which
    task is resumed next. *)
Inductive action : Type :=
| Call (parent_layout_id : Z) (is_private : bool)
| Resume (i : nat).

Definition perform (a : action) (s : system) : system :=
  match a with
  | Call p b => mkSystem (world s) (tasks s ++ [Called p b])
  | Resume i =>
      match tasks s !! i with
      | Some tk =>
          let '(tk', w') := resume tk (world s) in
          mkSystem w' (<[i := tk']> (tasks s))
      | None => s
      end
  end.

Definition schedule (acts : list action) (s : system) : system :=
  fold_left (fun s a => perform a s) acts s.

End Run.

(** [w'] differs from [w] in nothing the deduplication looks at: the
    visited set, the fetches issued, the statistics, the records and the
    tree. *)
Definition same_crawl (w w' : World) : Prop :=
  processed_layouts w' = processed_layouts w
  /\ fetched w' = fetched w
  /\ stats w' = stats w
  /\ all_pages w' = all_pages w
  /\ site_structure w' = site_structure w
  /\ session_open w' = session_open w.

(** What the counters owe to the visited set: every key entered in the
    set is answered from the cache ([cache_hits]) or by a fetch
    ([requests_made]). *)
Definition accounted (w : World) : Z :=
  cache_hits (stats w) + requests_made (stats w)
  - Z.of_nat (size (processed_layouts w)).

(** The fetches that were counted in [requests_made] and have not been
    counted in [cache_misses]: the calls that are in the transport, and
    the calls that ended with an exception. *)
Definition outstanding (ts : list task) : Z :=
  foldr (fun tk n => match tk with
                     | InTransport _ _ _ | Done (Raise _) => 1 + n
                     | Called _ _ | Done (Ok _) => n
                     end) 0 ts.

Definition owed (s : system) : Z :=
  requests_made (stats (world s)) - cache_misses (stats (world s))
  - outstanding (tasks s).

(** The requests that the calls in the transport may still send. *)
Definition attempts_left (ts : list task) : nat :=
  foldr (fun tk n => match tk with
                     | InTransport _ _ remaining => length remaining + n
                     | Called _ _ | Done _ => n
                     end)%nat 0%nat ts.

(** The invariant of a run that started with the visited set [visited0]
    and no fetch issued. *)
Definition crawl_inv (visited0 : gset string) (w : World) : Prop :=
  NoDup (key_of <$> fetched w)
  /\ (forall k, k ∈ fetched w ->
                key_of k ∈ processed_layouts w /\ key_of k ∉ visited0)
  /\ visited0 ⊆ processed_layouts w.

End Extractor.

(** ** utils/helpers.py: the checkpoint file

  [json.dump] and [json.load] are library code.  A file written by
  [json.dump] is modelled by the document it holds, and [json.load] of
  that file gives the document back; any other content is
  [Unreadable]. *)

Module Helpers.
Import Py.

Inductive file : Type :=
| Document (state : json)
| Unreadable.

(** The checkpoint directory: its files, and the paths that [open]
    refuses to write. *)
Record filesystem : Type := mkFs {
  files : gmap string file;
  locked : gset string
}.

(** [list(processed_layouts)] followed by JSON encoding.  Python fixes
    no order for the elements of a set; [convert_perm] below shows that
    the order does not matter to the reader. *)
Definition visited_list (processed_layouts : gset string) : json :=
  JList (JStr <$> elements processed_layouts).

(** [save_state(file_path, all_pages, processed_layouts, stats,
    site_structure)]. *)
Definition save_state (file_path : string) (all_pages : list json)
           (processed_layouts : gset string) (stats site_structure : json)
           (fs : filesystem) : bool * filesystem :=
  let state :=
    JDict (<["all_pages" := JList all_pages]>
          (<["processed_layouts" := visited_list processed_layouts]>
          (<["stats" := stats]>
          (<["site_structure" := site_structure]> ∅)))) in
  if decide (file_path ∈ locked fs) then (false, fs)
  else (true, mkFs (<[file_path := Document state]> (files fs)) (locked fs)).

(** [load_state(file_path)]. *)
Definition load_state (file_path : string) (fs : filesystem) : option json :=
  match files fs !! file_path with
  | None => None
  | Some (Document state) => Some state
  | Some Unreadable => None
  end.

(** [convert_processed_layouts(layouts_list)]: [set(layouts_list)]. *)
Definition convert_processed_layouts (layouts_list : list string) : gset string :=
  list_to_set layouts_list.


(** A JSON list of strings as a Python [List[str]]. *)
Definition str_items (v : json) : option (list string) :=
  match v with
  | JList l => mapM (fun x => match x with JStr s => Some s | _ => None end) l
  | _ => None
  end.


End Helpers.

(** ** exporters/txt_exporter.py *)

Module TxtExport.
Import Py.

(** The output directory: text files, and the paths that [open] refuses
    to write. *)
Record filesystem : Type := mkFs {
  files : gmap string string;
  locked : gset string
}.

(** The order of [str] values: by code point, which on UTF-8 byte
    strings is the order of the bytes. *)
Definition str_le (a b : string) : Prop := String.leb a b = true.

#[global] Instance str_le_dec : RelDecision str_le.
Proof. intros a b. unfold str_le. apply _. Defined.

#[global] Instance str_le_total : Total str_le.
Proof. intros a b. apply String.leb_total. Qed.

(** [sorted(urls)]. *)
Definition sorted (urls : list string) : list string :=
  merge_sort str_le urls.

(** [page['url']], when [page] is a dict whose ['url'] is a [str]. *)
Definition page_url (page : json) : option string :=
  match page with
  | JDict d => match d !! "url" with Some (JStr u) => Some u | _ => None end
  | _ => None
  end.

(** What the loop writes for a sorted list of URLs. *)
Definition render (urls : list string) : string :=
  String.concat "" (map (fun url => strip_one_slash url ++ String "010" "") urls).

(** [TXTExporter.export(pages, output_file)].  [open(..., 'w')] empties
    the file; when a page has no string under ['url'] an exception is
    raised before the first [write] ([KeyError] or [TypeError] while the
    list is built or sorted, [AttributeError] at the first [endswith])
    and the method answers [False].  The three lines the method logs are
    left out. *)
Definition export (pages : list json) (output_file : string) (fs : filesystem)
  : bool * filesystem :=
  if decide (output_file ∈ locked fs) then (false, fs)
  else
    match mapM page_url pages with
    | Some urls =>
        (true, mkFs (<[output_file := render (sorted urls)]> (files fs)) (locked fs))
    | None =>
        (false, mkFs (<[output_file := ""]> (files fs)) (locked fs))
    end.


End TxtExport.

(** ** core/extractor.py: expanding a layout

  [_fetch_child_layouts] awaits [get_layouts] and then runs in one piece
  (there is no [await] in it) the loop that records every child layout,
  enters it in the site tree and creates the calls for the next level;
  [asyncio.gather] runs those calls afterwards.

  The site tree is made of dict objects that are passed by reference:
  [structure_ref] is one of them, and the loop writes this object only.
  Its content before and after the loop is [st_dict].  Every node the
  loop enters holds a new, empty dict under ['children'], which the call
  created for the node receives; a new dict is named by its allocation
  number, so that two of them are never confused. *)

Module Expansion.
Import Py Sys.

(** [s.lstrip('/')]. *)
Definition lstrip_slashes (s : string) : string :=
  Urllib.lstrip (fun c => Ascii.eqb c "/") s.

(** The truth value of a JSON value ([if not child_layouts]). *)
Definition truthy (v : json) : bool :=
  match v with
  | JNull => false
  | JBool b => b
  | JInt z => negb (z =? 0)
  | JFloat q => negb (Qeq_bool q 0)
  | JStr s => negb (Urllib.is_empty s)
  | JList l => match l with [] => false | _ :: _ => true end
  | JDict d => negb (bool_decide (d = ∅))
  end.

(** The one-character strings of a string. *)
Fixpoint characters (s : string) : list string :=
  match s with
  | EmptyString => []
  | String c rest => String c EmptyString :: characters rest
  end.

(** What [for layout in child_layouts] goes through: the items of a
    list, the keys of a dict, the characters of a string; any other value
    is not iterable.  (Python enumerates the keys of a dict in insertion
    order and a string by code point; the loop fails on the first of them
    whatever it is, so neither matters.) *)
Definition elements (v : json) : result (list json) :=
  match v with
  | JList l => Ok l
  | JDict d => Ok (JStr <$> (map_to_list d).*1)
  | JStr s => Ok (JStr <$> characters s)
  | JNull | JBool _ | JInt _ | JFloat _ => Raise TypeError
  end.

(** A node of the site tree:
    [{'id': ..., 'title': ..., 'children': {}}]. *)
Record node : Type := mkNode {
  node_id : json;
  node_title : json;
  node_children : nat
}.

(** A call [self._fetch_child_layouts(layout_id, new_path, is_private,
    structure_ref[structure_key]['children'])] appended to [tasks]. *)
Record child_call : Type := mkCall {
  call_id : json;
  call_path : string;
  call_private : bool;
  call_ref : nat
}.

Record state : Type := mkState {
  st_world : World;
  st_dict : gmap string node;
  st_allocated : nat
}.

Section Expand.

Variable urljoin : string -> string -> result string.
Variable ex : Extractor.t.
Variable parent_url : string.
Variable is_private : bool.

(** The body of [for layout in child_layouts]. *)
Definition expand_one (layout : json) (st : state) : result child_call * state :=
  match Extractor.process_layout urljoin ex layout parent_url is_private
                                 (st_world st) with
  | (Raise e, w) => (Raise e, mkState w (st_dict st) (st_allocated st))
  | (Ok _, w) =>
      let st := mkState w (st_dict st) (st_allocated st) in
      match layout with
      | JDict d =>
          let layout_id := dict_get d "layoutId" (JInt 0) in
          match dict_get d "friendlyURL" (JStr "") with
          | JStr friendly_url =>
              let friendly_url := lstrip_slashes friendly_url in
              let new_path := Page.full_path parent_url friendly_url in
              let structure_key := friendly_url in
              let children := st_allocated st in
              (Ok (mkCall layout_id new_path is_private children),
               mkState w
                       (<[structure_key :=
                            mkNode layout_id (dict_get d "name" (JStr "")) children]>
                          (st_dict st))
                       (S children))
          | _ => (Raise AttributeError, st)
          end
      | _ => (Raise AttributeError, st)
      end
  end.

(** The loop: [tasks] is returned when the loop ends, and lost when an
    iteration raises. *)
Fixpoint expand_loop (layouts : list json) (st : state)
  : result (list child_call) * state :=
  match layouts with
  | [] => (Ok [], st)
  | layout :: rest =>
      match expand_one layout st with
      | (Raise e, st) => (Raise e, st)
      | (Ok call, st) =>
          match expand_loop rest st with
          | (Ok calls, st) => (Ok (call :: calls), st)
          | (Raise e, st) => (Raise e, st)
          end
      end
  end.

(** [_fetch_child_layouts] from the return of [get_layouts] to
    [asyncio.gather]: the calls to run next. *)
Definition expand (child_layouts : json) (st : state)
  : result (list child_call) * state :=
  if negb (truthy child_layouts) then (Ok [], st)
  else
    match elements child_layouts with
    | Ok layouts => expand_loop layouts st
    | Raise e => (Raise e, st)
    end.

(** [_fetch_child_layouts(parent_layout_id, parent_url, is_private,
    structure_ref)] up to [asyncio.gather], for a coroutine that runs
    alone while it waits for the server. *)
Definition fetch_child_layouts
           (net : nat -> event -> Session.failure + Session.response)
           (parent_layout_id : Z) (st : state)
  : result (list child_call) * state :=
  match Extractor.get_layouts net ex parent_layout_id is_private (st_world st) with
  | (Ok child_layouts, w) =>
      expand child_layouts (mkState w (st_dict st) (st_allocated st))
  | (Raise e, w) => (Raise e, mkState w (st_dict st) (st_allocated st))
  end.

(** The record [_process_layout] builds for a layout. *)
Definition record_of (layout : json) : result Page.t :=
  match layout with
  | JDict d =>
      Page.from_json urljoin d parent_url is_private (Extractor.liferay_url ex)
  | _ => Raise AttributeError
  end.

End Expand.

(** The key under which a layout is entered in the tree. *)
Definition child_key (layout : json) : option string :=
  match layout with
  | JDict d =>
      match dict_get d "friendlyURL" (JStr "") with
      | JStr friendly_url => Some (lstrip_slashes friendly_url)
      | _ => None
      end
  | _ => None
  end.

(** The node entered for a layout whose children dict is [children]. *)
Definition child_node (layout : json) (children : nat) : option node :=
  match layout with
  | JDict d =>
      Some (mkNode (dict_get d "layoutId" (JInt 0)) (dict_get d "name" (JStr ""))
                   children)
  | _ => None
  end.

End Expansion.

(** ** core/extractor.py: saving the state and resuming

  [save_current_state] hands the four parts of the state to
  [save_state]; [initialize_session] opens the session and, when asked
  to resume, reads them back.  The lines the two methods log are left
  out.  The state is typed: [initialize_session] is defined on the
  checkpoints whose parts have the shape [save_state] writes (a part may
  be absent, and counts as its default), and on those that make it raise
  at once; it is [None] on a dict with a part of another shape (Python
  stores such a part as it is, or raises and starts over, depending on
  the part). *)

Module Resume.
Import Py Sys.



Definition int_field (d : gmap string json) (key : string) : option Z :=
  match d !! key with
  | Some (JInt z) => Some z
  | _ => None
  end.

Definition time_field (d : gmap string json) (key : string) : option (option Q) :=
  match d !! key with
  | Some (JFloat q) => Some (Some q)
  | Some JNull => Some None
  | _ => None
  end.

(** A [stats] dictionary read back from a checkpoint. *)
Definition stats_of_json (v : json) : option Stats :=
  match v with
  | JDict d =>
      lp ← int_field d "layouts_processed";
      rm ← int_field d "requests_made";
      re ← int_field d "request_errors";
      rt ← int_field d "retries";
      ch ← int_field d "cache_hits";
      cm ← int_field d "cache_misses";
      st ← time_field d "start_time";
      et ← time_field d "end_time";
      Some (mkStats lp rm re rt ch cm st et)
  | _ => None
  end.


(** [await self.session_manager.initialize()]. *)
Definition open_session (w : World) : World :=
  mkWorld (processed_layouts w) (all_pages w) (site_structure w) (stats w)
          (cache_db w) true (clock w) (sent w) (trace w).

(** The [except] branch of [initialize_session]. *)
Definition start_over (w : World) : World :=
  mkWorld ∅ [] (JDict (<["public" := JDict ∅]> (<["private" := JDict ∅]> ∅)))
          (stats w) (cache_db w) (session_open w) (clock w) (sent w) (trace w).

(** The four assignments from a loaded dict. *)
Definition restore_from (d : gmap string json) (w : World) : option World :=
  pages ← match dict_get d "all_pages" (JList []) with
          | JList l => Some l
          | _ => None
          end;
  visited ← Helpers.str_items (dict_get d "processed_layouts" (JList []));
  restored_stats ← match d !! "stats" with
                   | Some v => stats_of_json v
                   | None => Some (stats w)
                   end;
  Some (mkWorld (Helpers.convert_processed_layouts visited) pages
                (dict_get d "site_structure" (JDict ∅)) restored_stats
                (cache_db w) (session_open w) (clock w) (sent w) (trace w)).

(** [initialize_session()] of an extractor built with
    [resume_extraction] and whose state file is [state_file]. *)
Definition initialize_session (resume_extraction : bool) (state_file : string)
           (fs : Helpers.filesystem) (w : World) : option World :=
  let w := open_session w in
  if resume_extraction && bool_decide (is_Some (Helpers.files fs !! state_file)) then
    match Helpers.load_state state_file fs with
    | None => Some w
    | Some state =>
        if negb (Expansion.truthy state) then Some w
        else
          match state with
          | JDict d => restore_from d w
          | _ => Some (start_over w)
          end
    end
  else Some w.

End Resume.

(** ** exporters/csv_exporter.py

  [csv.writer] is library code: a CSV file is modelled by the rows that
  were handed to [writerow], each row by its cells.  [sorted] is stable
  (Python guarantees it), and a stable sort has one result: it is
  computed here by insertion.  The tuples [(x['private'], x['path'])]
  are compared as Python compares a pair of a [bool] and a [str]; the
  export is defined ([Some]) when every key has this type or some key
  cannot be built at all, and [None] when a key of another type would
  have to be compared.  The two lines the method logs are left out. *)

Module CsvExport.
Import Py.

Definition row : Type := list json.

(** The output directory: CSV files, and the paths that [open] refuses
    to write. *)
Record filesystem : Type := mkFs {
  files : gmap string (list row);
  locked : gset string
}.

Definition header : row :=
  [JStr "Caminho"; JStr "URL Completa"; JStr "Título"; JStr "ID"; JStr "ID Pai";
   JStr "Tipo"].

(** [(a1, a2) < (b1, b2)] for pairs of a [bool] and a [str]: the first
    components decide when they differ ([False < True]), the second
    otherwise. *)
Definition key_lt (a b : bool * string) : bool :=
  match fst a, fst b with
  | false, true => true
  | true, false => false
  | _, _ => String.ltb (snd a) (snd b)
  end.

Section StableSort.

Context {A : Type}.
Variable key : A -> bool * string.

(** [x] goes in front of the first element that is not smaller: in
    front of the elements with its own key. *)
Fixpoint insert_by (x : A) (l : list A) : list A :=
  match l with
  | [] => [x]
  | y :: rest =>
      if key_lt (key y) (key x) then y :: insert_by x rest else x :: l
  end.

(** [sorted(l, key=key)]. *)
Definition sort_by (l : list A) : list A := foldr insert_by [] l.

End StableSort.

(** What the key function [lambda x: (x['private'], x['path'])] does on
    a page. *)
Inductive key_result : Type :=
| Keyed (private : bool) (path : string)
| KeyRaises (e : exn)
| OtherType.

Definition sort_key (page : json) : key_result :=
  match page with
  | JDict d =>
      match d !! "private", d !! "path" with
      | Some (JBool b), Some (JStr s) => Keyed b s
      | Some _, Some _ => OtherType
      | _, _ => KeyRaises KeyError
      end
  | _ => KeyRaises TypeError
  end.

(** The keys of all pages: the first exception among them, if any;
    otherwise whether they all have the compared type. *)
Inductive keys_result : Type :=
| Comparable
| Raises (e : exn)
| NotComparable.

Fixpoint sort_keys (pages : list json) : keys_result :=
  match pages with
  | [] => Comparable
  | page :: rest =>
      match sort_key page with
      | KeyRaises e => Raises e
      | OtherType =>
          match sort_keys rest with
          | Raises e => Raises e
          | Comparable | NotComparable => NotComparable
          end
      | Keyed _ _ => sort_keys rest
      end
  end.

(** The key of a page whose key has the compared type. *)
Definition typed_key (page : json) : bool * string :=
  match sort_key page with
  | Keyed b s => (b, s)
  | _ => (false, "")
  end.

(** The row written for a page; [None] is the [KeyError] of a missing
    key. *)
Definition row_of (page : json) : option row :=
  match page with
  | JDict d =>
      path ← d !! "path";
      url ← d !! "url";
      title ← d !! "title";
      id ← d !! "id";
      parent_id ← d !! "parent_id";
      private ← d !! "private";
      Some [path; url; title; id; parent_id;
            JStr (if Expansion.truthy private then "Privada" else "Pública")]
  | _ => None
  end.

(** The loop over the sorted pages: the rows written so far stay in the
    file when a row cannot be built. *)
Fixpoint write_rows (pages : list json) (written : list row) : bool * list row :=
  match pages with
  | [] => (true, written)
  | page :: rest =>
      match row_of page with
      | Some r => write_rows rest (written ++ [r])
      | None => (false, written)
      end
  end.

(** [CSVExporter.export(pages, output_file)]. *)
Definition export (pages : list json) (output_file : string) (fs : filesystem)
  : option (bool * filesystem) :=
  match sort_keys pages with
  | Raises _ => Some (false, fs)
  | NotComparable => None
  | Comparable =>
      let sorted_pages := sort_by typed_key pages in
      if decide (output_file ∈ locked fs) then Some (false, fs)
      else
        let '(ok, rows) := write_rows sorted_pages [header] in
        Some (ok, mkFs (<[output_file := rows]> (files fs)) (locked fs))
  end.


Definition record_row (page : Page.t) : row :=
  [JStr (Page.path page); JStr (Page.url page); Page.title page; Page.id page;
   Page.parent_id page;
   JStr (if Page.private page then "Privada" else "Pública")].


End CsvExport.

(** ** Concrete inputs

    The states and servers at which the properties below are evaluated. *)

Module Examples.
Import Py Sys.

(** The state of a run that has just initialised its session: nothing
    visited, nothing recorded, an empty cache. *)
Definition fresh_world : World :=
  mkWorld ∅ [] (JDict (<["public" := JDict ∅]> (<["private" := JDict ∅]> ∅)))
          initial_stats ∅ true 0%Q 0 [].

(** The same state at another time of day. *)
Definition at_time (t : Q) (w : World) : World := set_clock (fun _ => t) w.

(** A cache that keeps entries for a day, and one that is switched off. *)
Definition day_cache : Cache.CacheManager := Cache.new 24 "site".
Definition no_cache : Cache.CacheManager := Cache.new 0 "site".

(** A fetch function that answers with one layout and counts its calls in
    [requests_made]. *)
Definition one_layout : json :=
  JList [JDict (<["layoutId" := JInt 7]> (<["friendlyURL" := JStr "/home"]> ∅))].

Definition counting_fetch : M json :=
  fun w =>
    (Ok one_layout,
     set_stats (fun s => mkStats (layouts_processed s) (requests_made s + 1)
                                 (request_errors s) (retries s) (cache_hits s)
                                 (cache_misses s) (start_time s) (end_time s)) w).

(** A server whose first two requests fail with a connection error and
    whose later requests succeed. *)
Definition flaky (n : nat) (_ : event) : Session.failure + Session.response :=
  match n with
  | 0%nat | 1%nat => inl (Session.ClientError "connection reset")
  | _ => inr (Session.mkResponse 200 (inr one_layout) (inr "[]"))
  end.

(** An extractor for one site, with the cache switched off. *)
Definition site : Extractor.t :=
  Extractor.mk "https://example.com" "20121" no_cache.

(** A state restored from a checkpoint: the public root was expanded in
    an earlier run. *)
Definition resumed_world : World :=
  mkWorld {["0-False"]} [one_layout]
          (JDict (<["public" := JDict ∅]> (<["private" := JDict ∅]> ∅)))
          (mkStats 1 1 0 0 0 1 (Some 10%Q) None) ∅ true 50%Q 0 [].

(** [urljoin] with the host validations answering that the host is
    fine; the hosts below have neither brackets nor non-ASCII bytes. *)
Definition py_urljoin : string -> string -> result string :=
  Urllib.urljoin (fun _ => true) (fun _ => true).

(** A layout as the API returns it, one with a friendly URL that ends in
    a slash, one with doubled slashes, one whose friendly URL is not a
    string, and one with no field at all. *)
Definition layout_c : gmap string json :=
  <["layoutId" := JInt 12]> (<["friendlyURL" := JStr "/c"]>
  (<["name" := JStr "C"]> (<["parentLayoutId" := JInt 5]> ∅))).

Definition layout_c_slash : gmap string json :=
  <["layoutId" := JInt 12]> (<["friendlyURL" := JStr "/c/"]>
  (<["name" := JStr "C"]> (<["parentLayoutId" := JInt 5]> ∅))).

Definition layout_doubled : gmap string json :=
  <["layoutId" := JInt 12]> (<["friendlyURL" := JStr "//c//"]> ∅).

Definition layout_ill_typed : gmap string json :=
  <["layoutId" := JInt 12]> (<["friendlyURL" := JInt 3]> ∅).

Definition layout_empty : gmap string json := ∅.

(** A checkpoint directory and an output directory, both empty and
    writable. *)
Definition empty_checkpoints : Helpers.filesystem := Helpers.mkFs ∅ ∅.
Definition empty_outputs : TxtExport.filesystem := TxtExport.mkFs ∅ ∅.

(** Two page records of a run, as [Page.to_dict] builds them. *)
Definition page_home : json :=
  Page.to_dict (Page.mk (JInt 7) "home" "https://example.com/home"
                        (JStr "Home") (JInt 0) false).

Definition page_news : json :=
  Page.to_dict (Page.mk (JInt 9) "home/news" "https://example.com/home/news"
                        (JStr "News") (JInt 7) false).

(** A record with a given URL and nothing else. *)
Definition page_at (u : string) : json := JDict (<["url" := JStr u]> ∅).

(** The same site with the cache kept for a day, a state whose cache
    holds the children of the public root, written at time 0, and a state
    whose session was never initialised. *)
Definition cached_site : Extractor.t :=
  Extractor.mk "https://example.com" "20121" day_cache.

Definition warm_world : World :=
  Cache.store day_cache (Extractor.cache_key cached_site 0 false) one_layout
              fresh_world.

Definition closed_world : World :=
  mkWorld ∅ [] (JDict (<["public" := JDict ∅]> (<["private" := JDict ∅]> ∅)))
          initial_stats ∅ false 0%Q 0 [].


(** Child layouts as the API returns them: two pages, a third whose
    friendly URL gives the same tree key as the first, and one that
    doubles the leading slash. *)
Definition layout_home : json :=
  JDict (<["layoutId" := JInt 7]> (<["friendlyURL" := JStr "/home"]>
        (<["name" := JStr "Home"]> ∅))).

Definition layout_about : json :=
  JDict (<["layoutId" := JInt 8]> (<["friendlyURL" := JStr "/about"]>
        (<["name" := JStr "About"]> ∅))).

Definition layout_home_again : json :=
  JDict (<["layoutId" := JInt 9]> (<["friendlyURL" := JStr "home"]>
        (<["name" := JStr "Home (copy)"]> ∅))).

Definition layout_two_slashes : json :=
  JDict (<["layoutId" := JInt 10]> (<["friendlyURL" := JStr "//promo"]> ∅)).

(** The records [from_json] builds for them under the parent ["docs"]. *)
Definition record_home : Page.t :=
  Page.mk (JInt 7) "docs/home" "https://example.com/docs/home" (JStr "Home")
          (JInt 0) false.

Definition record_about : Page.t :=
  Page.mk (JInt 8) "docs/about" "https://example.com/docs/about" (JStr "About")
          (JInt 0) false.

Definition record_home_again : Page.t :=
  Page.mk (JInt 9) "docs/home" "https://example.com/docs/home"
          (JStr "Home (copy)") (JInt 0) false.

(** An expansion that starts with an empty dict to fill. *)
Definition empty_expansion : Expansion.state :=
  Expansion.mkState fresh_world ∅ 0.

(** A state restored from a checkpoint, about to expand a layout. *)
Definition resumed_expansion : Expansion.state :=
  Expansion.mkState resumed_world ∅ 0.

(** An answer of the API that reports an error in a JSON object. *)
Definition error_object : json :=
  JDict (<["exception" := JStr "No such group"]> ∅).

(** Checkpoint directories: one whose state file is not JSON, one whose
    state file holds an empty object, one whose state file holds a
    list. *)
Definition broken_checkpoint : Helpers.filesystem :=
  Helpers.mkFs (<["state.json" := Helpers.Unreadable]> ∅) ∅.

Definition blank_checkpoint : Helpers.filesystem :=
  Helpers.mkFs (<["state.json" := Helpers.Document (JDict ∅)]> ∅) ∅.

Definition list_checkpoint : Helpers.filesystem :=
  Helpers.mkFs (<["state.json" := Helpers.Document (JList [JInt 1])]> ∅) ∅.

(** A page with a key to sort it by and no other cell. *)
Definition page_without_cells : json :=
  JDict (<["private" := JBool false]> (<["path" := JStr "zoo"]> ∅)).


Definition empty_csv_outputs : CsvExport.filesystem := CsvExport.mkFs ∅ ∅.

Definition locked_csv_outputs : CsvExport.filesystem :=
  CsvExport.mkFs ∅ {["pages.csv"]}.

End Examples.

(** * Properties *)

(** ** The result cache *)

Section CacheFacts.
Import Py Sys Cache.

Lemma Qltb_lt (x y : Q) : Qltb x y = true <-> (x < y)%Q.
Proof.
  unfold Qltb. rewrite negb_true_iff, <- not_true_iff_false, Qle_bool_iff.
  split; [apply Qnot_le_lt | apply Qlt_not_le].
Qed.

Lemma Qltb_ge (x y : Q) : Qltb x y = false <-> (y <= x)%Q.
Proof.
  unfold Qltb. rewrite negb_false_iff. apply Qle_bool_iff.
Qed.

Lemma is_valid_true (cm : CacheManager) (T : Q) (w : World) :
  is_valid cm T w = true <-> 0 < ttl cm /\ (clock w - T < inject_Z (ttl cm))%Q.
Proof.
  unfold is_valid. destruct (Z.leb_spec (ttl cm) 0) as [Hle | Hlt].
  - split; [discriminate | intros [? _]; lia].
  - rewrite Qltb_lt. split; [intros ?; split; [lia | done] | tauto].
Qed.

Lemma store_entry (cm : CacheManager) (key : string) (data : json) (w : World) :
  0 < ttl cm ->
  cache_db (store cm key data w) !! full_key cm key
  = Some (mkEntry (Some (clock w)) (Some data)).
Proof.
  intros Httl. unfold store.
  destruct (Z.ltb_spec 0 (ttl cm)) as [_ | ?]; [| lia].
  cbn. apply lookup_insert_eq.
Qed.

Lemma store_clock (cm : CacheManager) (key : string) (data : json) (w : World) :
  clock (store cm key data w) = clock w.
Proof. unfold store. by destruct (0 <? ttl cm). Qed.

(** A lookup that finds a fresh entry is a hit, whatever the fetch
    function is. *)
Lemma get_or_fetch_hit (cm : CacheManager) (key : string) (g : M json)
      (e : cache_entry) (w : World) :
  cache_db w !! full_key cm key = Some e ->
  is_valid cm (default 0%Q (entry_time e)) w = true ->
  get_or_fetch cm key g w
  = (Ok (default JNull (entry_content e), true),
     log CacheLog (CacheHit key) w).
Proof.
  intros Hdb Hvalid. unfold get_or_fetch, lookup.
  apply is_valid_true in Hvalid as Hv. destruct Hv as [Httl _].
  destruct (Z.ltb_spec 0 (ttl cm)) as [_ | ?]; [| lia].
  by rewrite Hdb, Hvalid.
Qed.

(** With the cache switched off, [get_or_fetch] is the fetch function
    with the miss flag added. *)
Lemma get_or_fetch_disabled (cm : CacheManager) (key : string) (f : M json)
      (w : World) :
  ttl cm <= 0 ->
  get_or_fetch cm key f w
  = match f w with
    | (Ok data, w') => (Ok (data, false), w')
    | (Raise e, w') => (Raise e, w')
    end.
Proof.
  intros Httl. unfold get_or_fetch, lookup, store, mbind, exec, ret.
  destruct (Z.ltb_spec 0 (ttl cm)) as [? | _]; [lia |].
  by destruct (f w) as [[data | e] w'].
Qed.

(** What a call that returns leaves behind, when the cache is on. *)
Lemma get_or_fetch_returns (cm : CacheManager) (key : string) (f : M json)
      (w0 w1 : World) (v : json) (hit : bool) :
  0 < ttl cm ->
  get_or_fetch cm key f w0 = (Ok (v, hit), w1) ->
  exists e,
    cache_db w1 !! full_key cm key = Some e
    /\ default JNull (entry_content e) = v
    /\ (hit = false ->
        e = mkEntry (Some (clock w1)) (Some v)
        /\ exists wf, f (snd (lookup cm key w0)) = (Ok v, wf)
                      /\ w1 = store cm key v wf)
    /\ (hit = true -> cache_db w1 = cache_db w0).
Proof.
  intros Httl. unfold get_or_fetch.
  destruct (lookup cm key w0) as [[content |] w0'] eqn:Hlk.
  - intros [= <- <- <-]. unfold lookup in Hlk.
    destruct (Z.ltb_spec 0 (ttl cm)) as [_ | ?]; [| lia].
    destruct (cache_db w0 !! full_key cm key) as [e |] eqn:Hdb; [| done].
    destruct (is_valid cm _ w0); [| done].
    injection Hlk as <- <-. exists e. cbn. by repeat split.
  - unfold mbind, exec, ret. cbn [snd].
    destruct (f w0') as [[data | err] wf] eqn:Hf; [| done].
    intros [= <- <- <-].
    exists (mkEntry (Some (clock wf)) (Some data)).
    split; [by apply store_entry |]. split; [done |].
    split; [| done]. intros _. rewrite store_clock. eauto.
Qed.

End CacheFacts.

Section CacheClaims.
Import Py Sys Cache Examples.



(** C4.  With a positive time-to-live: when a call [get_or_fetch(k, f)]
    returns [(v, hit)], the store holds an entry for [k] whose content is
    [v]; on a miss [f] ran once and the entry carries the current time;
    and a second call made while that entry is within its time-to-live
    returns [(v, True)] without running its fetch function (the result is
    the same for every function [g] and only the log line is added).  With
    a time-to-live of zero: every call runs [f] once, returns its value
    with the miss flag, and leaves the store as [f] left it, so two calls
    run [f] twice and write nothing. *)
Theorem get_or_fetch_twice (cm : CacheManager) (key : string) (f : M json) :
  (0 < ttl cm ->
   forall w0 w1 v hit,
     get_or_fetch cm key f w0 = (Ok (v, hit), w1) ->
     exists e,
       cache_db w1 !! full_key cm key = Some e
       /\ (hit = false ->
           e = mkEntry (Some (clock w1)) (Some v)
           /\ exists wf, f (snd (lookup cm key w0)) = (Ok v, wf)
                         /\ w1 = store cm key v wf)
       /\ forall (g : M json) w2,
            cache_db w2 !! full_key cm key = Some e ->
            (clock w2 - default 0%Q (entry_time e) < inject_Z (ttl cm))%Q ->
            get_or_fetch cm key g w2
            = (Ok (v, true), log CacheLog (CacheHit key) w2))
  /\ (ttl cm = 0 ->
      (forall w,
         get_or_fetch cm key f w
         = match f w with
           | (Ok data, w') => (Ok (data, false), w')
           | (Raise e, w') => (Raise e, w')
           end)
      /\ forall w0 w1 w2 v1 v2,
          f w0 = (Ok v1, w1) ->
          f w1 = (Ok v2, w2) ->
          get_or_fetch cm key f w0 = (Ok (v1, false), w1)
          /\ get_or_fetch cm key f w1 = (Ok (v2, false), w2)
          /\ cache_db w2 = cache_db (snd (f (snd (f w0))))).
Proof.
  split.
  - intros Httl w0 w1 v hit Hcall.
    destruct (get_or_fetch_returns cm key f w0 w1 v hit Httl Hcall)
      as (e & Hdb & Hcontent & Hmiss & _).
    exists e. split; [done |]. split; [done |].
    intros g w2 Hdb2 Hwindow. rewrite <- Hcontent.
    apply get_or_fetch_hit; [done |]. by apply is_valid_true.
  - intros Httl. split; [intros w; apply get_or_fetch_disabled; lia |].
    intros w0 w1 w2 v1 v2 Hf1 Hf2.
    rewrite !get_or_fetch_disabled by lia. rewrite Hf1. cbn [snd].
    by rewrite Hf2.
Qed.

Lemma get_or_fetch_twice_witness :
  (exists w1,
     get_or_fetch day_cache "k" counting_fetch fresh_world
     = (Ok (one_layout, false), w1)
     /\ requests_made (stats w1) = 1
     /\ forall g,
          get_or_fetch day_cache "k" g (at_time 3600 w1)
          = (Ok (one_layout, true),
             log CacheLog (CacheHit "k") (at_time 3600 w1)))
  /\ (exists w1 w2,
        get_or_fetch no_cache "k" counting_fetch fresh_world
        = (Ok (one_layout, false), w1)
        /\ get_or_fetch no_cache "k" counting_fetch w1
           = (Ok (one_layout, false), w2)
        /\ requests_made (stats w2) = 2
        /\ cache_db w2 = cache_db fresh_world).
Proof.
  destruct (get_or_fetch_twice day_cache "k" counting_fetch) as [Hon _].
  destruct (get_or_fetch_twice no_cache "k" counting_fetch) as [_ Hoff].
  split.
  - eexists. split; [reflexivity |]. split; [reflexivity |].
    destruct (Hon ltac:(reflexivity) fresh_world _ _ _ eq_refl)
      as (e & Hdb & Hmiss & Hagain).
    destruct (Hmiss eq_refl) as [-> _].
    intros g. apply Hagain; [exact Hdb | by vm_compute].
  - destruct (proj2 (Hoff eq_refl) fresh_world _ _ _ _ eq_refl eq_refl)
      as (H1 & H2 & _).
    eexists _, _. split; [exact H1 |]. split; [exact H2 |]. by split.
Defined.

End CacheClaims.

(** ** The transport *)

Section SessionFacts.
Import Py Sys Session.
Local Open Scope list_scope.

Variable net : nat -> event -> failure + response.
Variables (method url : string) (params : json) (max_retries : Z).

(** One attempt, case by case. *)
Lemma one_attempt_cases (attempt : nat) (w : World) :
  one_attempt net method url params max_retries attempt w
  = let final := Z.of_nat attempt =? max_retries - 1 in
    match classify (net (sent w) (request_of method url params)) with
    | Succeeded data => (Return data, requested method url params w)
    | Broken msg => (Return (JList []), log Error (UnexpectedError msg) (requested method url params w))
    | BadStatus status body =>
        let w1 := log Warn (BadResponse attempt max_retries status) (requested method url params w) in
        if final then (Return (JList []), log Error (ErrorDetails (take 200 body)) w1)
        else (Continue, w1)
    | Transient msg =>
        if final then (Return (JList []), log Error (GaveUp max_retries msg) (requested method url params w))
        else (Continue,
              sleep (2 ^ Z.of_nat attempt)
                    (log Warn (Waiting attempt (2 ^ Z.of_nat attempt)) (requested method url params w)))
    end.
Proof.
  unfold one_attempt, classify, requested, request_of. cbn zeta.
  destruct (net (sent w) _) as [e | r].
  - by destruct e.
  - destruct ((status r =? 200) || (status r =? 201)).
    + destruct (json_body r) as [e | data]; [by destruct e | done].
    + destruct (text_body r) as [e | body]; [by destruct e | done].
Qed.

Lemma observed_emit (e : event) (w : World) :
  observed (emit e w) = observed w ++ omap effect_of [e].
Proof. unfold observed, emit. cbn [trace]. apply omap_app. Qed.

Lemma observed_requested (w : World) : observed (requested method url params w) = observed w.
Proof.
  unfold requested.
  change (observed (set_sent S (emit (request_of method url params) w))) with (observed (emit (request_of method url params) w)).
  rewrite observed_emit. unfold request_of. cbn. apply app_nil_r.
Qed.

Lemma observed_log (lvl : level) (m : message) (w : World) :
  observed (log lvl m w) = observed w ++ omap effect_of [Log lvl m].
Proof. apply observed_emit. Qed.

Lemma observed_sleep (seconds : Z) (w : World) :
  observed (sleep seconds w) = observed w ++ [Wait seconds].
Proof. unfold sleep. apply (observed_emit (Sleep seconds)). Qed.

(** The loop from attempt [a] with [S n] attempts left, [a + S n] being
    [max_retries]: it answers as the policy says on the verdicts of the
    next [S n] requests. *)
Lemma attempts_follow_policy (n a : nat) (w : World) :
  Z.of_nat (a + S n) = max_retries ->
  let r := retry_policy a (verdicts net (request_of method url params) (sent w) (S n)) in
  exists w',
    attempts net method url params max_retries (seq a (S n)) w = (answer r, w')
    /\ observed w' = observed w ++ effects r
    /\ sent w' = (sent w + requests r)%nat
    /\ session_open w' = session_open w.
Proof.
  revert a w. induction n as [| n IH]; intros a w Hmax; cbn zeta.
  - (* the final attempt *)
    cbn [seq attempts verdicts map retry_policy]. rewrite one_attempt_cases. cbn zeta.
    destruct (Z.eqb_spec (Z.of_nat a) (max_retries - 1)) as [_ | Hne]; [| lia].
    destruct (classify (net (sent w) (request_of method url params))) as [data | status body | msg | msg];
      eexists; (split; [reflexivity |]); cbn [answer effects requests];
      rewrite ?observed_log, ?observed_requested, ?app_nil_r; cbn;
      rewrite ?app_nil_r; repeat split; try done; unfold requested; cbn; lia.
  - (* an earlier attempt *)
    change (seq a (S (S n))) with (a :: seq (S a) (S n)).
    change (verdicts net (request_of method url params) (sent w) (S (S n)))
      with (classify (net (sent w) (request_of method url params)) :: verdicts net (request_of method url params) (S (sent w)) (S n)).
    cbn [attempts]. rewrite one_attempt_cases. cbn zeta.
    destruct (Z.eqb_spec (Z.of_nat a) (max_retries - 1)) as [Heq | _]; [lia |].
    assert (Hnext : Z.of_nat (S a + S n) = max_retries) by lia.
    destruct (classify (net (sent w) (request_of method url params))) as [data | status body | msg | msg] eqn:Hv.
    + eexists. split; [reflexivity |]. cbn [retry_policy answer effects requests].
      rewrite observed_requested, app_nil_r. repeat split; try done; unfold requested; cbn; lia.
    + set (w1 := log Warn (BadResponse a max_retries status) (requested method url params w)).
      destruct (IH (S a) w1 Hnext) as (w' & Hrun & Hobs & Hsent & Hopen).
      change (sent w1) with (S (sent w)) in Hrun, Hsent.
      exists w'. cbn [retry_policy verdicts] in *.
      change (map _ (seq (S (sent w)) (S n))) with (verdicts net (request_of method url params) (S (sent w)) (S n)).
      destruct (verdicts net (request_of method url params) (S (sent w)) (S n)) as [| v later] eqn:Hvs; [done |].
      rewrite <- Hvs in *. cbn [and_then answer effects requests app].
      split; [exact Hrun |]. rewrite Hobs, Hsent, Hopen.
      subst w1. rewrite observed_log, observed_requested. cbn. rewrite app_nil_r.
      repeat split; try done; unfold requested; cbn; lia.
    + set (w1 := sleep (2 ^ Z.of_nat a)
                       (log Warn (Waiting a (2 ^ Z.of_nat a)) (requested method url params w))).
      destruct (IH (S a) w1 Hnext) as (w' & Hrun & Hobs & Hsent & Hopen).
      change (sent w1) with (S (sent w)) in Hrun, Hsent.
      exists w'. cbn [retry_policy verdicts] in *.
      change (map _ (seq (S (sent w)) (S n))) with (verdicts net (request_of method url params) (S (sent w)) (S n)).
      destruct (verdicts net (request_of method url params) (S (sent w)) (S n)) as [| v later] eqn:Hvs; [done |].
      rewrite <- Hvs in *. cbn [and_then answer effects requests app].
      split; [exact Hrun |]. rewrite Hobs, Hsent, Hopen.
      subst w1. rewrite observed_sleep, observed_log, observed_requested. cbn.
      rewrite app_nil_r, <- app_assoc. repeat split; try done; unfold requested; cbn; lia.
    + eexists. split; [reflexivity |]. cbn [retry_policy answer effects requests].
      rewrite observed_log, observed_requested. cbn [omap effect_of].
      rewrite !app_nil_r. repeat split; try done; unfold requested; cbn; lia.
Qed.

(** The policy sends at least one request when there is a verdict, and
    never more requests than there are verdicts. *)
Lemma retry_policy_requests (a : nat) (v : verdict) (vs : list verdict) :
  (1 <= requests (retry_policy a (v :: vs)))%nat.
Proof.
  cbn [retry_policy]. destruct v, vs; cbn [requests and_then]; lia.
Qed.

Lemma retry_policy_requests_le (a : nat) (vs : list verdict) :
  (requests (retry_policy a vs) <= length vs)%nat.
Proof.
  revert a. induction vs as [| v vs IH]; intros a; [done |].
  cbn [retry_policy length].
  destruct v, vs; cbn [requests and_then length]; try lia;
    specialize (IH (S a)); cbn [length] in IH; lia.
Qed.

End SessionFacts.

Section SessionClaims.
Import Py Sys Session Examples.
Local Open Scope list_scope.



End SessionClaims.

(** ** The traversal engine *)

Section ExtractorFacts.
Import Py Sys Session Extractor.
Local Open Scope list_scope.
#[local] Set Warnings "-clear-no-such-hyp".

Variable net : nat -> event -> failure + response.
Variable ex : Extractor.t.

Lemma same_crawl_refl (w : World) : same_crawl w w.
Proof. by repeat split. Qed.

Lemma same_crawl_trans (w1 w2 w3 : World) :
  same_crawl w1 w2 -> same_crawl w2 w3 -> same_crawl w1 w3.
Proof.
  intros (? & ? & ? & ? & ? & ?) (? & ? & ? & ? & ? & ?).
  repeat split; congruence.
Qed.

Lemma fetched_emit (e : event) (w : World) :
  fetched (emit e w) = fetched w ++ omap fetch_of [e].
Proof. unfold fetched, emit. cbn [trace]. apply omap_app. Qed.

Lemma same_crawl_log (lvl : level) (m : message) (w : World) :
  same_crawl w (log lvl m w).
Proof.
  repeat split. unfold log. rewrite fetched_emit. cbn. apply app_nil_r.
Qed.

Lemma same_crawl_sleep (seconds : Z) (w : World) : same_crawl w (sleep seconds w).
Proof.
  repeat split. unfold sleep.
  change (fetched (set_clock _ (emit (Sleep seconds) w)))
    with (fetched (emit (Sleep seconds) w)).
  rewrite fetched_emit. cbn. apply app_nil_r.
Qed.

Lemma same_crawl_requested (method url : string) (params : json) (w : World) :
  same_crawl w (requested method url params w).
Proof.
  repeat split. unfold requested.
  change (fetched (set_sent S ?x)) with (fetched x).
  rewrite fetched_emit. unfold request_of. cbn. apply app_nil_r.
Qed.

Lemma same_crawl_store (cm : Cache.CacheManager) (key : string) (data : json)
      (w : World) :
  same_crawl w (Cache.store cm key data w).
Proof.
  unfold Cache.store. destruct (0 <? Cache.ttl cm); [| apply same_crawl_refl].
  eapply same_crawl_trans; [| apply same_crawl_log]. by repeat split.
Qed.

Lemma same_crawl_lookup (cm : Cache.CacheManager) (key : string) (w : World) :
  same_crawl w (snd (Cache.lookup cm key w)).
Proof.
  unfold Cache.lookup. destruct (0 <? Cache.ttl cm); [| apply same_crawl_refl].
  destruct (cache_db w !! _) as [e |]; [| apply same_crawl_refl].
  destruct (Cache.is_valid cm _ w); apply same_crawl_log.
Qed.

(** Peels the logging, sleeping and sending off the state on the right. *)
Ltac crawl_frame :=
  repeat first
    [ apply same_crawl_refl
    | eapply same_crawl_trans; [| apply same_crawl_log]
    | eapply same_crawl_trans; [| apply same_crawl_sleep]
    | eapply same_crawl_trans; [| apply same_crawl_store]
    | eapply same_crawl_trans; [| apply same_crawl_requested] ].

(** An attempt of the transport sends, logs and sleeps, and nothing
    else. *)
Lemma same_crawl_one_attempt (method url : string) (params : json)
      (max_retries : Z) (attempt : nat) (w : World) :
  same_crawl w (snd (one_attempt net method url params max_retries attempt w)).
Proof.
  rewrite one_attempt_cases. cbn zeta.
  destruct (classify _) as [data | status body | msg | msg];
    try destruct (Z.of_nat attempt =? max_retries - 1); cbn [snd];
    crawl_frame.
Qed.

Lemma same_crawl_attempts (method url : string) (params : json)
      (max_retries : Z) (remaining : list nat) (w : World) :
  same_crawl w (snd (attempts net method url params max_retries remaining w)).
Proof.
  revert w. induction remaining as [| attempt rest IH]; intros w; cbn [attempts].
  - apply same_crawl_refl.
  - pose proof (same_crawl_one_attempt method url params max_retries attempt w) as H1.
    destruct (one_attempt _ _ _ _ _ _ w) as [[| v] w1]; cbn [snd] in *; [| done].
    eapply same_crawl_trans; [exact H1 | apply IH].
Qed.

(** [get_layouts] on a key that is not yet visited, statement by
    statement. *)
Lemma get_layouts_unvisited (p : Z) (b : bool) (w : World) :
  layout_key p b ∉ processed_layouts w ->
  get_layouts net ex p b w
  = let w1 := set_processed_layouts (union {[layout_key p b]}) w in
    match Cache.lookup (cache_manager ex) (cache_key ex p b) w1 with
    | (Some content, w2) => (Ok content, set_stats incr_cache_hits w2)
    | (None, w2) =>
        let w3 := emit (FetchIssued p b) (set_stats incr_requests_made w2) in
        if negb (session_open w3) then (Raise RuntimeError, w3)
        else
          let '(v, w4) := attempts net "POST" (endpoint ex) (params ex p b) 3
                                   (range 3) w3 in
          (Ok v, set_stats incr_cache_misses
                   (Cache.store (cache_manager ex) (cache_key ex p b) v w4))
    end.
Proof.
  intros Hnew. unfold get_layouts. destruct (decide _) as [Hin | _]; [done |].
  unfold mbind at 1. unfold exec at 1. unfold mbind at 1.
  unfold Cache.get_or_fetch. cbn zeta.
  destruct (Cache.lookup _ _ _) as [[content |] w2]; [done |].
  unfold fetch_layouts, request_with_retry, mbind, exec, ret. cbn [session_open emit].
  destruct (negb _); [done |].
  by destruct (attempts _ _ _ _ _ _ _) as [v w4].
Qed.

Lemma run_alone_done (fuel : nat) (r : result json) (w : World) :
  run_alone net ex fuel (Done r) w = (Done r, w).
Proof. induction fuel as [| fuel IH]; [done | exact IH]. Qed.

(** The blocks of the coroutine, run one after the other, are
    [get_layouts]. *)
Lemma run_alone_get_layouts (p : Z) (b : bool) (w : World) :
  run_alone net ex 5 (Called p b) w
  = (Done (fst (get_layouts net ex p b w)), snd (get_layouts net ex p b w)).
Proof.
  change (run_alone net ex 5 (Called p b) w)
    with (let (tk0, w0) := start ex p b w in run_alone net ex 4 tk0 w0).
  destruct (decide (layout_key p b ∈ processed_layouts w)) as [Hin | Hnew].
  - unfold get_layouts, start. destruct (decide _); [| done].
    by rewrite run_alone_done.
  - rewrite get_layouts_unvisited by done. cbn zeta. unfold start.
    destruct (decide _) as [? | _]; [done |].
    destruct (Cache.lookup _ _ _) as [[content |] w2];
      [by rewrite run_alone_done |].
    cbn [session_open emit].
    destruct (negb (session_open _)); lazy beta iota;
      [by rewrite run_alone_done |].
    unfold range. change (seq 0 (Z.to_nat 3)) with [0%nat; 1%nat; 2%nat].
    set (w3 := emit _ _).
    cbn [run_alone resume attempts].
    destruct (one_attempt _ _ _ _ _ 0%nat w3) as [[| v] w4];
      cbn [resume finish]; [| done].
    destruct (one_attempt _ _ _ _ _ 1%nat w4) as [[| v] w5];
      cbn [resume finish]; [| done].
    by destruct (one_attempt _ _ _ _ _ 2%nat w5) as [[| v] w6].
Qed.

(** The statistics after a call of [get_layouts]: untouched, or one cache
    hit more, or one request more (the session was not initialised), or
    one request and one cache miss more. *)
Lemma get_layouts_stats (p : Z) (b : bool) (w : World) :
  let s' := stats (snd (get_layouts net ex p b w)) in
  s' = stats w
  \/ s' = incr_cache_hits (stats w)
  \/ s' = incr_requests_made (stats w)
  \/ s' = incr_cache_misses (incr_requests_made (stats w)).
Proof.
  cbn zeta.
  destruct (decide (layout_key p b ∈ processed_layouts w)) as [Hin | Hnew].
  - left. unfold get_layouts. by destruct (decide _).
  - rewrite get_layouts_unvisited by done. cbn zeta.
    set (w1 := set_processed_layouts _ w).
    pose proof (same_crawl_lookup (cache_manager ex) (cache_key ex p b) w1)
      as (_ & _ & Hs & _).
    destruct (Cache.lookup _ _ w1) as [[content |] w2]; cbn [snd] in Hs.
    + right; left. cbn [snd]. change (stats (set_stats ?f w2)) with (f (stats w2)).
      by rewrite Hs.
    + set (w3 := emit _ _).
      assert (Hs3 : stats w3 = incr_requests_made (stats w)).
      { subst w3. change (stats (emit _ (set_stats ?f w2))) with (f (stats w2)).
        by rewrite Hs. }
      destruct (negb _); [right; right; left; exact Hs3 |].
      pose proof (same_crawl_attempts "POST" (endpoint ex) (params ex p b) 3
                                      (range 3) w3) as (_ & _ & Hs4 & _).
      destruct (attempts _ _ _ _ _ _ w3) as [v w4]. cbn [snd] in *.
      destruct (same_crawl_store (cache_manager ex) (cache_key ex p b) v w4)
        as (_ & _ & Hs5 & _).
      right; right; right.
      change (stats (set_stats ?f ?x)) with (f (stats x)).
      by rewrite Hs5, Hs4, Hs3.
Qed.

(** What one resumption of a coroutine does to the visited set and to the
    fetches issued: the set only grows, and a fetch is issued only by a
    call whose key was not in the set and now is. *)
Lemma resume_effect (tk tk' : task) (w w' : World) :
  resume net ex tk w = (tk', w') ->
  processed_layouts w ⊆ processed_layouts w'
  /\ (fetched w' = fetched w
      \/ exists p b,
           tk = Called p b
           /\ fetched w' = (fetched w ++ [(p, b)])
           /\ (layout_key p b ∉ processed_layouts w)
           /\ layout_key p b ∈ processed_layouts w').
Proof.
  assert (Hfinish : forall p b data w0 tk0 w1,
             finish ex p b data w0 = (tk0, w1) ->
             processed_layouts w1 = processed_layouts w0
             /\ fetched w1 = fetched w0).
  { intros p b data w0 tk0 w1 [= _ <-].
    destruct (same_crawl_store (cache_manager ex) (cache_key ex p b) data w0)
      as (Hv & Hf & _).
    split; [exact Hv | exact Hf]. }
  destruct tk as [p b | p b [| attempt rest] | r]; cbn [resume].
  - unfold start. destruct (decide _) as [Hin | Hnew].
    { intros [= _ <-]. by split; [| left]. }
    set (w1 := set_processed_layouts _ w).
    pose proof (same_crawl_lookup (cache_manager ex) (cache_key ex p b) w1)
      as (Hv & Hf & _).
    destruct (Cache.lookup _ _ w1) as [[content |] w2]; cbn [snd] in Hv, Hf.
    + intros [= _ <-]. split; [| left; exact Hf].
      change (processed_layouts (set_stats _ w2)) with (processed_layouts w2).
      rewrite Hv. subst w1. cbn. set_solver.
    + intros Hres.
      assert (w' = emit (FetchIssued p b) (set_stats incr_requests_made w2)) as ->.
      { cbn [session_open emit] in Hres. by destruct (negb _); injection Hres. }
      change (processed_layouts (emit _ (set_stats _ w2))) with (processed_layouts w2).
      rewrite Hv. subst w1. cbn [processed_layouts set_processed_layouts].
      split; [set_solver |]. right. exists p, b.
      split; [done |]. split; [| split; [done | set_solver]].
      rewrite fetched_emit.
      change (fetched (set_stats _ w2)) with (fetched w2). by rewrite Hf.
  - intros Hres. apply Hfinish in Hres as [-> ->]. by split; [| left].
  - pose proof (same_crawl_one_attempt "POST" (endpoint ex) (params ex p b) 3
                                       attempt w) as (Hv & Hf & _).
    destruct (one_attempt _ _ _ _ _ _ w) as [[| data] w1]; cbn [snd] in Hv, Hf.
    + intros [= _ <-]. rewrite Hv, Hf. by split; [| left].
    + intros Hres. apply Hfinish in Hres as [-> ->].
      rewrite Hv, Hf. by split; [| left].
  - intros [= _ <-]. by split; [| left].
Qed.

(** Whatever a call does, its key is in the visited set when its first
    block ends. *)
Lemma start_visited (p : Z) (b : bool) (w : World) :
  layout_key p b ∈ processed_layouts (snd (start ex p b w)).
Proof.
  unfold start. destruct (decide _) as [Hin | Hnew]; [done |].
  set (w1 := set_processed_layouts _ w).
  assert (Hw1 : layout_key p b ∈ processed_layouts w1) by (subst w1; cbn; set_solver).
  pose proof (same_crawl_lookup (cache_manager ex) (cache_key ex p b) w1)
    as (Hv & _).
  destruct (Cache.lookup _ _ w1) as [[content |] w2]; cbn [snd] in Hv.
  - change (layout_key p b ∈ processed_layouts w2). by rewrite Hv.
  - destruct (negb _); change (layout_key p b ∈ processed_layouts w2);
      by rewrite Hv.
Qed.

Lemma crawl_inv_start (w : World) :
  fetched w = [] -> crawl_inv (processed_layouts w) w.
Proof.
  intros Hnone. unfold crawl_inv. rewrite Hnone.
  split; [constructor |]. split; [| done]. intros k Hk. by apply elem_of_nil in Hk.
Qed.

Lemma crawl_inv_step (visited0 : gset string) (s s' : system) :
  step net ex s s' -> crawl_inv visited0 (world s) -> crawl_inv visited0 (world s').
Proof.
  intros Hstep (Hnodup & Hkeys & Hsub).
  destruct Hstep as [w ts p b | w ts i tk tk' w' _ Hres | w w' ts Hv Hf];
    cbn [world] in *.
  - done.
  - apply resume_effect in Hres as [Hgrow [Hsame | (p & b & _ & Hnew & Hout & Hin)]].
    + unfold crawl_inv. rewrite Hsame. split; [done |].
      split; [| set_solver]. intros k Hk. destruct (Hkeys k Hk). set_solver.
    + unfold crawl_inv. rewrite Hnew, fmap_app. cbn [fmap list_fmap].
      split; [| split; [| set_solver]].
      * apply NoDup_app. split; [done |]. split; [| apply NoDup_singleton].
        intros key Hkey Hdup. apply list_elem_of_singleton in Hdup as ->.
        apply list_elem_of_fmap in Hkey as (k & Hk1 & Hk2).
        destruct (Hkeys k Hk2) as [Hvisited _]. rewrite <- Hk1 in Hvisited. done.
      * intros k Hk. apply elem_of_app in Hk as [Hk | Hk].
        -- destruct (Hkeys k Hk). set_solver.
        -- apply list_elem_of_singleton in Hk as ->. cbn. set_solver.
  - unfold crawl_inv. rewrite Hv, Hf. done.
Qed.

Lemma crawl_inv_steps (visited0 : gset string) (s s' : system) :
  rtc (step net ex) s s' ->
  crawl_inv visited0 (world s) -> crawl_inv visited0 (world s').
Proof.
  induction 1 as [| s1 s2 s3 Hstep _ IH]; [done |].
  intros Hinv. apply IH. by eapply crawl_inv_step.
Qed.

(** [_process_layout] is other code of the run. *)
Lemma process_layout_other (urljoin : string -> string -> result string)
      (layout : json) (parent_url : string) (is_private : bool)
      (w : World) (ts : list task) :
  step net ex (mkSystem w ts)
       (mkSystem (snd (process_layout urljoin ex layout parent_url is_private w)) ts).
Proof.
  apply step_other; unfold process_layout;
    destruct layout as [| | | | | |d]; try done;
    by destruct (Page.from_json _ _ _ _ _).
Qed.

(** A schedule is a run of the system. *)
Lemma schedule_steps (acts : list action) (s : system) :
  rtc (step net ex) s (schedule net ex acts s).
Proof.
  revert s. induction acts as [| a acts IH]; intros s; [apply rtc_refl |].
  cbn [schedule fold_left]. eapply rtc_l; [| apply IH].
  destruct s as [w ts]. destruct a as [p b | i]; cbn [perform world tasks].
  - apply step_call.
  - destruct (ts !! i) as [tk |] eqn:Hi.
    + destruct (resume net ex tk w) as [tk' w'] eqn:Hres.
      by eapply step_resume.
    + by apply step_other.
Qed.

End ExtractorFacts.

Section ExtractorClaims.
Import Py Sys Session Extractor Examples.
Local Open Scope list_scope.

(** C1.  In a run that starts with no fetch issued, whatever calls of
    [get_layouts] are made and however their coroutines are interleaved
    with each other and with the rest of the run: no traversal key has its
    fetch issued twice; a key whose fetch was issued is in the visited set
    and was not in it when the run started.  A call enters its key in the
    visited set before it can issue a fetch, issues one only if the key was
    not yet there, and a call whose key is already there returns the empty
    list at once and leaves the state as it was. *)
Theorem fetch_issued_at_most_once
        (net : nat -> event -> failure + response) (ex : Extractor.t)
        (s0 s : system) :
  fetched (world s0) = [] ->
  rtc (step net ex) s0 s ->
  NoDup (key_of <$> fetched (world s))
  /\ (forall k, k ∈ fetched (world s) ->
                key_of k ∈ processed_layouts (world s)
                /\ key_of k ∉ processed_layouts (world s0))
  /\ (forall w p b,
        layout_key p b ∈ processed_layouts w ->
        resume net ex (Called p b) w = (Done (Ok (JList [])), w))
  /\ (forall w p b tk w',
        resume net ex (Called p b) w = (tk, w') ->
        layout_key p b ∈ processed_layouts w'
        /\ (fetched w' <> fetched w -> layout_key p b ∉ processed_layouts w)).
Proof.
  intros Hnone Hrun.
  destruct (crawl_inv_steps net ex _ s0 s Hrun (crawl_inv_start _ Hnone))
    as (Hnodup & Hkeys & _).
  split; [exact Hnodup |]. split; [exact Hkeys |]. split.
  - intros w p b Hin. cbn [resume]. unfold start. by destruct (decide _).
  - intros w p b tk w' Hres. split.
    + pose proof (start_visited ex p b w) as Hin.
      cbn [resume] in Hres. by rewrite Hres in Hin.
    + intros Hissued Hin. apply Hissued.
      cbn [resume] in Hres. unfold start in Hres.
      destruct (decide _) as [_ | ?]; [| done]. by injection Hres as _ <-.
Qed.

(** Two expansion tasks reach the key of the public root, a third the key
    of the private root, and the three coroutines are resumed in turn
    until they are done. *)
Lemma fetch_issued_at_most_once_witness :
  let s := schedule flaky site
             [Call 0 false; Call 0 false; Call 0 true;
              Resume 0; Resume 1; Resume 2; Resume 1;
              Resume 0; Resume 2; Resume 0; Resume 2; Resume 0]
             (mkSystem fresh_world []) in
  NoDup (key_of <$> fetched (world s))
  /\ fetched (world s) = [(0, false); (0, true)]
  /\ tasks s = [Done (Ok one_layout); Done (Ok (JList [])); Done (Ok one_layout)].
Proof.
  cbv zeta. split; [| by vm_compute].
  eapply (fetch_issued_at_most_once flaky site (mkSystem fresh_world []));
    [reflexivity | apply schedule_steps].
Defined.

(** C9.  A call of [get_layouts] with a key that is already in the
    visited set returns the empty list and leaves the whole state as it
    was: visited set, record list, site tree, every statistics counter,
    cache store, requests sent and log.  The answer does not depend on the
    server or on the cache, neither of which is consulted; the coroutine
    ends in its first block. *)
Theorem get_layouts_visited_noop
        (net : nat -> event -> failure + response) (ex : Extractor.t)
        (p : Z) (b : bool) (w : World) :
  layout_key p b ∈ processed_layouts w ->
  get_layouts net ex p b w = (Ok (JList []), w)
  /\ resume net ex (Called p b) w = (Done (Ok (JList [])), w).
Proof.
  intros Hin. split.
  - unfold get_layouts. by destruct (decide _).
  - cbn [resume]. unfold start. by destruct (decide _).
Qed.

Lemma get_layouts_visited_noop_witness :
  get_layouts flaky site 0 false resumed_world = (Ok (JList []), resumed_world)
  /\ resume flaky site (Called 0 false) resumed_world
     = (Done (Ok (JList [])), resumed_world).
Proof.
  apply (get_layouts_visited_noop flaky site 0 false resumed_world).
  by vm_compute.
Defined.

(** C3 (what the code does).  No call of [get_layouts] changes the
    [retries] or the [request_errors] counter, and [requests_made] grows by
    one per fetch, not per attempt.  When the request fails twice and
    succeeds at the third attempt, the success value is returned, three
    requests have been sent, and the statistics show one request made, no
    retry and no request error. *)
Theorem retries_are_not_counted :
  (forall net ex p b w,
     let s' := stats (snd (get_layouts net ex p b w)) in
     retries s' = retries (stats w)
     /\ request_errors s' = request_errors (stats w)
     /\ (requests_made s' = requests_made (stats w)
         \/ requests_made s' = requests_made (stats w) + 1))
  /\ (let r := get_layouts flaky site 0 false fresh_world in
      fst r = Ok one_layout
      /\ sent (snd r) = 3%nat
      /\ observed (snd r) = [Wait 1; Wait 2]
      /\ stats (snd r) = mkStats 0 1 0 0 0 1 None None).
Proof.
  split.
  - intros net ex p b w. cbn zeta.
    destruct (get_layouts_stats net ex p b w) as [-> | [-> | [-> | ->]]];
      cbn; repeat split; auto.
  - cbv zeta. by vm_compute.
Qed.

End ExtractorClaims.

(** ** The page record *)

Section PageFacts.
Import Py Page Examples.

Variable join : string -> string -> result string.

Lemma endswith_slash_strip (s : string) :
  endswith_slash (strip_one_slash s)
  = endswith_slash s && endswith_slash (drop_last s).
Proof.
  unfold strip_one_slash. destruct (endswith_slash s) eqn:Hs; [done |].
  by rewrite Hs.
Qed.

(** [from_json] on a layout whose friendly URL is a string. *)
Lemma from_json_str (layout : gmap string json) (parent_url base_url : string)
      (is_private : bool) (friendly : string) :
  dict_get layout "friendlyURL" (JStr "") = JStr friendly ->
  from_json join layout parent_url is_private base_url
  = bind (join base_url (full_path parent_url (own_segment friendly)))
         (fun complete_url =>
            Ok (Page.mk (dict_get layout "layoutId" (JInt 0))
                        (full_path parent_url (own_segment friendly))
                        (strip_one_slash complete_url)
                        (dict_get layout "name" (JStr ""))
                        (dict_get layout "parentLayoutId" (JInt 0))
                        is_private)).
Proof. intros Hf. unfold from_json. by rewrite Hf. Qed.

End PageFacts.

(** ** Joining the path ["a/b/c/"] to any base *)

Section UrljoinFacts.
Import Py Urllib.

Variable bracketed_ok : string -> bool.
Variable nfkc_ok : string -> bool.

Lemma append_cons (c : ascii) (s t : string) : String c s ++ t = String c (s ++ t).
Proof. reflexivity. Qed.

Lemma ends_c_slash_app (pre s : string) : ends_c_slash s -> ends_c_slash (pre ++ s).
Proof.
  intros [pre' ->]. exists (pre ++ pre').
  induction pre as [| c pre IH]; [done |]. rewrite !append_cons. by f_equal.
Qed.

Lemma drop_last_cons (c : ascii) (s : string) :
  s <> "" -> drop_last (String c s) = String c (drop_last s).
Proof. by destruct s. Qed.

Lemma endswith_slash_cons (c : ascii) (s : string) :
  s <> "" -> endswith_slash (String c s) = endswith_slash s.
Proof. by destruct s. Qed.

Lemma append_nonempty (s t : string) : t <> "" -> s ++ t <> "".
Proof. by destruct s. Qed.

Lemma drop_last_c_slash (pre : string) : drop_last (pre ++ "c/") = pre ++ "c".
Proof.
  induction pre as [| c pre IH]; [done |]. rewrite !append_cons.
  rewrite drop_last_cons by by apply append_nonempty. by rewrite IH.
Qed.

Lemma endswith_slash_c (pre : string) : endswith_slash (pre ++ "c") = false.
Proof.
  induction pre as [| c pre IH]; [done |]. rewrite append_cons.
  by rewrite endswith_slash_cons by by apply append_nonempty.
Qed.

(** Stripping the slash of a string that ends with ["c/"] leaves no
    trailing slash. *)
Lemma ends_c_slash_strip (s : string) :
  ends_c_slash s -> endswith_slash (strip_one_slash s) = false.
Proof.
  intros [pre ->].
  rewrite endswith_slash_strip, drop_last_c_slash, endswith_slash_c.
  apply andb_false_r.
Qed.

Lemma resolve_app (l1 l2 acc : list string) :
  resolve (l1 ++ l2) acc = resolve l2 (rev (resolve l1 acc)).
Proof.
  revert acc. induction l1 as [| seg l1 IH]; intros acc; cbn [app resolve].
  - by rewrite rev_involutive.
  - destruct (String.eqb seg ".."); [apply IH |].
    destruct (String.eqb seg "."); apply IH.
Qed.

Lemma concat_ends_c_slash (l : list string) :
  ends_c_slash (String.concat "/" (l ++ ["c"; ""])).
Proof.
  induction l as [| h l IH]; [by exists "" |].
  cbn [app String.concat].
  destruct (l ++ ["c"; ""])%list as [| x rest] eqn:Hl.
  { by destruct l. }
  apply ends_c_slash_app, ends_c_slash_app. exact IH.
Qed.

(** The relative reference ["a/b/c/"] parses to a bare path. *)
Lemma urlparse_abc (dflt : string) :
  exists sch,
    urlparse bracketed_ok nfkc_ok "a/b/c/" dflt = Ok (Parsed sch "" "a/b/c/" "" "" "").
Proof.
  eexists. unfold urlparse, urlsplit.
  change (lstrip c0_or_space "a/b/c/") with "a/b/c/".
  change (remove_chars unsafe_byte "a/b/c/") with "a/b/c/".
  change (split_scheme "a/b/c/" ?d) with (d, "a/b/c/").
  cbn. by rewrite andb_false_r.
Qed.

Lemma drop_empty_middle_abc (base_parts : list string) :
  exists front,
    drop_empty_middle (base_parts ++ ["a"; "b"; "c"; ""])%list
    = (front ++ ["c"; ""])%list.
Proof.
  destruct base_parts as [| h t]; [by exists ["a"; "b"] |].
  exists (h :: filter (fun s => negb (is_empty s)) t ++ ["a"; "b"])%list.
  cbn [app]. destruct (t ++ ["a"; "b"; "c"; ""])%list as [| x rest] eqn:Hrest.
  { by destruct t. }
  unfold drop_empty_middle. rewrite <- Hrest.
  change ["a"; "b"; "c"; ""] with (["a"; "b"; "c"] ++ [""])%list.
  rewrite app_assoc, removelast_last, last_last, filter_app.
  cbn [filter is_empty negb app]. rewrite <- !app_assoc. done.
Qed.

Lemma resolve_c_slash (front : list string) :
  resolve (front ++ ["c"; ""])%list []
  = (resolve front [] ++ ["c"; ""])%list.
Proof.
  rewrite resolve_app. cbn [resolve String.eqb Ascii.eqb Bool.eqb].
  cbn [rev]. rewrite rev_involutive, <- app_assoc. done.
Qed.

Lemma last_c_slash (front : list string) :
  List.last (front ++ ["c"; ""])%list "" = "".
Proof.
  change ["c"; ""] with (["c"] ++ [""])%list. by rewrite app_assoc, last_last.
Qed.

(** Unparsing a path with neither parameters nor query nor fragment only
    adds text in front of it. *)
Lemma urlunparse_ends_c_slash (sch nl pth : string) :
  ends_c_slash pth -> ends_c_slash (urlunparse (Parsed sch nl pth "" "" "")).
Proof.
  intros Hp. unfold urlunparse, urlunsplit.
  cbn [params path scheme netloc query fragment is_empty negb].
  repeat match goal with
         | |- ends_c_slash (if ?c then _ else _) => destruct c
         | |- ends_c_slash (_ ++ _) => apply ends_c_slash_app
         end; exact Hp.
Qed.

(** Whatever the base, joining ["a/b/c/"] to it gives a URL that ends
    with ["c/"]. *)
Lemma urljoin_abc (base u : string) :
  urljoin bracketed_ok nfkc_ok base "a/b/c/" = Ok u -> ends_c_slash u.
Proof.
  unfold urljoin. destruct (is_empty base); [intros [= <-]; by exists "a/b/" |].
  cbn [is_empty].
  destruct (urlparse bracketed_ok nfkc_ok base "") as [b | e]; cbn [bind]; [| done].
  destruct (urlparse_abc (scheme b)) as [sch ->].
  cbn [bind scheme netloc path params query fragment is_empty negb startswith_slash].
  destruct (negb (String.eqb sch (scheme b)) || negb (mem sch uses_relative));
    [intros [= <-]; by exists "a/b/" |].
  rewrite andb_false_r. cbn [andb].
  change (split "/" "a/b/c/") with ["a"; "b"; "c"; ""].
  set (base_parts := if negb _ then _ else _).
  destruct (drop_empty_middle_abc base_parts) as [front ->].
  rewrite last_c_slash, resolve_c_slash. cbn [String.eqb orb].
  intros [= <-]. apply urlunparse_ends_c_slash.
  pose proof (concat_ends_c_slash (resolve front [])) as Hjoined.
  destruct (String.concat _ _) as [| c rest] eqn:Hc; [| exact Hjoined].
  destruct Hjoined as [pre Hpre]. by destruct pre.
Qed.

(** [ValueError] is the only exception of the model. *)
Lemma urlparse_raises (url dflt : string) (e : exn) :
  urlparse bracketed_ok nfkc_ok url dflt = Raise e -> e = ValueError.
Proof.
  unfold urlparse, urlsplit, bind. repeat case_match; congruence.
Qed.

Lemma urljoin_raises (base url : string) (e : exn) :
  urljoin bracketed_ok nfkc_ok base url = Raise e -> e = ValueError.
Proof.
  unfold urljoin.
  destruct (is_empty base); [done |]. destruct (is_empty url); [done |].
  destruct (urlparse _ _ base "") as [b | e1] eqn:Hb; cbn [bind];
    [| intros [= <-]; by eapply urlparse_raises].
  destruct (urlparse _ _ url (scheme b)) as [u | e2] eqn:Hu; cbn [bind];
    [| intros [= <-]; by eapply urlparse_raises].
  repeat case_match; congruence.
Qed.

End UrljoinFacts.

Section PageClaims.
Import Py Page Examples.

(** C6 (amended).  The path of the record is the parent path, a slash,
    and the friendly URL without one leading slash (the friendly URL alone
    when the parent path is empty); nothing is removed at its end.  The URL
    is what [urljoin] makes of the base and that path, with one trailing
    slash removed.  For parent path ["a/b"] and friendly URL ["/c/"] the
    path is ["a/b/c/"], and whatever the base URL is, the URL of the record
    does not end with a slash (or [urljoin] rejects the base with
    [ValueError] and no record is built). *)
Theorem from_json_path_and_url :
  (forall (join : string -> string -> result string)
          (layout : gmap string json) (parent_url base_url : string)
          (is_private : bool) (friendly complete_url : string),
     layout !! "friendlyURL" = Some (JStr friendly) ->
     join base_url (full_path parent_url (own_segment friendly)) = Ok complete_url ->
     exists page,
       from_json join layout parent_url is_private base_url = Ok page
       /\ path page = full_path parent_url (own_segment friendly)
       /\ url page = strip_one_slash complete_url)
  /\ (forall (bracketed_ok nfkc_ok : string -> bool)
             (layout : gmap string json) (base_url : string) (is_private : bool),
        layout !! "friendlyURL" = Some (JStr "/c/") ->
        match from_json (Urllib.urljoin bracketed_ok nfkc_ok) layout "a/b"
                        is_private base_url with
        | Ok page => path page = "a/b/c/" /\ endswith_slash (url page) = false
        | Raise e => e = ValueError
        end).
Proof.
  split.
  - intros join layout parent_url base_url is_private friendly complete_url Hf Hjoin.
    rewrite (from_json_str join layout parent_url base_url is_private friendly)
      by (unfold dict_get; by rewrite Hf).
    rewrite Hjoin. cbn [bind]. eexists. by repeat split.
  - intros bracketed_ok nfkc_ok layout base_url is_private Hf.
    rewrite (from_json_str _ layout "a/b" base_url is_private "/c/")
      by (unfold dict_get; by rewrite Hf).
    change (full_path "a/b" (own_segment "/c/")) with "a/b/c/".
    destruct (Urllib.urljoin bracketed_ok nfkc_ok base_url "a/b/c/")
      as [complete_url | e] eqn:Hjoin; cbn [bind].
    + split; [done |]. cbn [url].
      by eapply ends_c_slash_strip, urljoin_abc.
    + by eapply urljoin_raises.
Qed.

(** The record of the layout ["/c/"] under ["a/b"]. *)
Lemma from_json_path_and_url_witness :
  exists page,
    from_json py_urljoin layout_c_slash "a/b" false "https://example.com" = Ok page
    /\ path page = "a/b/c/"
    /\ url page = "https://example.com/a/b/c".
Proof.
  destruct from_json_path_and_url as [Hgeneral _].
  destruct (Hgeneral py_urljoin layout_c_slash "a/b" "https://example.com" false
                     "/c/" "https://example.com/a/b/c/" eq_refl eq_refl)
    as (page & Hpage & Hpath & Hurl).
  exists page. by repeat split.
Defined.

(** C6 as the specification states it fails: the path keeps the trailing
    slash of the friendly URL. *)
Lemma from_json_path_keeps_slash :
  exists page,
    from_json py_urljoin layout_c_slash "a/b" false "https://example.com" = Ok page
    /\ path page = "a/b/c/"
    /\ path page <> "a/b/c".
Proof. eexists. split; [by vm_compute |]. by split. Qed.

(** C10 (amended).  When the layout has no ['friendlyURL'] or has a string
    there, and [urljoin] accepts the base and the path, [from_json] returns
    a record: its id is [0] when ['layoutId'] is absent, its title [""]
    when ['name'] is absent, its parent id [0] when ['parentLayoutId'] is
    absent, and an absent ['friendlyURL'] counts as the empty segment.  The
    URL is the joined URL with one trailing slash removed: it ends with a
    slash exactly when the joined URL ends with two.  A ['friendlyURL']
    that is not a string raises [AttributeError], and an exception of
    [urljoin] is passed on. *)
Theorem from_json_defaults
        (join : string -> string -> result string)
        (layout : gmap string json) (parent_url base_url : string)
        (is_private : bool) :
  (forall friendly complete_url,
     dict_get layout "friendlyURL" (JStr "") = JStr friendly ->
     join base_url (full_path parent_url (own_segment friendly)) = Ok complete_url ->
     exists page,
       from_json join layout parent_url is_private base_url = Ok page
       /\ (layout !! "layoutId" = None -> id page = JInt 0)
       /\ (layout !! "name" = None -> title page = JStr "")
       /\ (layout !! "parentLayoutId" = None -> parent_id page = JInt 0)
       /\ (layout !! "friendlyURL" = None ->
           friendly = "" /\ path page = full_path parent_url "")
       /\ private page = is_private
       /\ url page = strip_one_slash complete_url
       /\ endswith_slash (url page)
          = endswith_slash complete_url && endswith_slash (drop_last complete_url))
  /\ (forall friendly e,
        dict_get layout "friendlyURL" (JStr "") = JStr friendly ->
        join base_url (full_path parent_url (own_segment friendly)) = Raise e ->
        from_json join layout parent_url is_private base_url = Raise e)
  /\ ((forall friendly, dict_get layout "friendlyURL" (JStr "") <> JStr friendly) ->
      from_json join layout parent_url is_private base_url = Raise AttributeError).
Proof.
  split; [| split].
  - intros friendly complete_url Hf Hjoin.
    rewrite (from_json_str join layout parent_url base_url is_private friendly Hf).
    rewrite Hjoin. cbn [bind]. eexists. split; [reflexivity |].
    cbn [id title parent_id path url private]. unfold dict_get in *.
    split; [by intros -> |]. split; [by intros -> |]. split; [by intros -> |].
    split; [| split; [done | split; [done | apply endswith_slash_strip]]].
    intros Hnone. rewrite Hnone in Hf. by injection Hf as <-.
  - intros friendly e Hf Hjoin.
    rewrite (from_json_str join layout parent_url base_url is_private friendly Hf).
    by rewrite Hjoin.
  - intros Hnot. unfold from_json.
    destruct (dict_get layout "friendlyURL" (JStr "")) as [| | | | s | |] eqn:Hf;
      try done.
    by destruct (Hnot s).
Qed.

(** The record of a layout with no field, under the parent ["a"]. *)
Lemma from_json_defaults_witness :
  exists page,
    from_json py_urljoin layout_empty "a" true "https://example.com" = Ok page
    /\ id page = JInt 0
    /\ title page = JStr ""
    /\ parent_id page = JInt 0
    /\ path page = "a/"
    /\ url page = "https://example.com/a".
Proof.
  destruct (from_json_defaults py_urljoin layout_empty "a" "https://example.com" true)
    as [Hok _].
  destruct (Hok "" "https://example.com/a/" eq_refl eq_refl)
    as (page & Hpage & Hid & Htitle & Hparent & Hpath & _ & Hurl & _).
  exists page. split; [exact Hpage |].
  split; [by apply Hid |]. split; [by apply Htitle |].
  split; [by apply Hparent |]. split; [by apply Hpath |]. exact Hurl.
Defined.

(** C10 as the specification states it fails twice: a friendly URL that
    is not a string makes [from_json] raise, and a friendly URL with
    doubled slashes gives a URL that still ends with a slash. *)
Lemma from_json_not_total_nor_stripped :
  from_json py_urljoin layout_ill_typed "" false "https://example.com"
  = Raise AttributeError
  /\ exists page,
       from_json py_urljoin layout_doubled "" false "https://example.com" = Ok page
       /\ url page = "https://example.com/c/"
       /\ endswith_slash (url page) = true.
Proof. split; [by vm_compute |]. eexists. split; [by vm_compute |]. by split. Qed.

End PageClaims.

(** ** The checkpoint file *)

Section CheckpointClaims.
Import Py Helpers Examples.


(** The order in which [list(processed_layouts)] enumerates the set does
    not matter to [convert_processed_layouts]. *)
Lemma convert_perm (l1 l2 : list string) :
  l1 ≡ₚ l2 -> convert_processed_layouts l1 = convert_processed_layouts l2.
Proof. intros Hp. unfold convert_processed_layouts. by rewrite Hp. Qed.

(** A refused write leaves the directory as it was. *)
Lemma save_state_locked (file_path : string) (all_pages : list json)
      (processed_layouts : gset string) (stats site_structure : json)
      (fs : filesystem) :
  file_path ∈ locked fs ->
  save_state file_path all_pages processed_layouts stats site_structure fs
  = (false, fs).
Proof. intros Hin. unfold save_state. by destruct (decide _). Qed.



End CheckpointClaims.

(** ** The plain-text export *)

Section TxtExportClaims.
Import Py TxtExport Examples.
Local Open Scope list_scope.




End TxtExportClaims.

(** * Further properties of the code *)

(** ** The transport: bounds, provenance of the answer, frame *)

Section SessionCoverage.
Import Py Sys Session Examples.
Local Open Scope list_scope.

Variable net : nat -> event -> failure + response.
Variables (method url : string) (params : json) (max_retries : Z).

Lemma waited_app (e1 e2 : list effect) : waited (e1 ++ e2) = waited e1 + waited e2.
Proof.
  induction e1 as [| e e1 IH]; [done |]. cbn [app waited foldr] in *.
  destruct e; fold (waited (e1 ++ e2)) (waited e1); lia.
Qed.

(** The waits of the policy from attempt [a] on: at most
    [2^a + ... + 2^(a + n - 2)] seconds for [n] verdicts. *)
Lemma retry_policy_waited (a : nat) (vs : list verdict) :
  0 <= waited (effects (retry_policy a vs))
  /\ waited (effects (retry_policy a vs)) + 2 ^ Z.of_nat a
     <= 2 ^ Z.of_nat (a + (length vs - 1)).
Proof.
  revert a. induction vs as [| v vs IH]; intros a.
  - cbn. rewrite Nat.add_0_r. lia.
  - cbn [retry_policy length]. rewrite Nat.sub_succ, Nat.sub_0_r.
    assert (Hmono : 2 ^ Z.of_nat a <= 2 ^ Z.of_nat (a + length vs)).
    { apply Z.pow_le_mono_r; lia. }
    destruct vs as [| v' vs'].
    + cbn [length] in *. rewrite Nat.add_0_r in *. destruct v; cbn; lia.
    + specialize (IH (S a)). cbn [length] in *.
      rewrite Nat.sub_succ, Nat.sub_0_r in IH.
      replace (Z.of_nat (S a + length vs')) with (Z.of_nat (a + S (length vs')))
        in IH by lia.
      replace (Z.of_nat (S a)) with (Z.of_nat a + 1) in IH by lia.
      rewrite Z.pow_add_r, Z.pow_1_r in IH by lia.
      assert (0 < 2 ^ Z.of_nat a) by (apply Z.pow_pos_nonneg; lia).
      destruct v; cbn [effects and_then waited foldr app];
        fold (waited (effects (retry_policy (S a) (v' :: vs')))); cbn [waited foldr]; lia.
Qed.

(** The clock moves by what is slept. *)
Lemma attempts_clock (remaining : list nat) (w : World) :
  exists effs,
    observed (snd (attempts net method url params max_retries remaining w))
    = observed w ++ effs
    /\ (clock (snd (attempts net method url params max_retries remaining w))
        == clock w + inject_Z (waited effs))%Q.
Proof.
  revert w. induction remaining as [| attempt rest IH]; intros w; cbn [attempts].
  - exists []. cbn. rewrite app_nil_r. split; [done | ring].
  - rewrite one_attempt_cases. cbn zeta.
    destruct (classify _) as [data | status body | msg | msg].
    + exists []. cbn [snd]. rewrite observed_requested, app_nil_r. cbn.
      split; [done | ring].
    + destruct (Z.of_nat attempt =? max_retries - 1).
      * eexists. cbn [snd]. rewrite !observed_log, observed_requested.
        cbn [omap effect_of]. rewrite app_nil_r.
        split; [reflexivity |]. cbn. ring.
      * set (w1 := log _ _ _). destruct (IH w1) as (effs & Hobs & Hclock).
        exists effs. rewrite Hobs, Hclock. subst w1.
        rewrite observed_log, observed_requested. cbn. rewrite app_nil_r.
        split; [done | reflexivity].
    + destruct (Z.of_nat attempt =? max_retries - 1).
      * exists []. cbn [snd]. rewrite observed_log, observed_requested.
        cbn. rewrite !app_nil_r. split; [done | ring].
      * set (w1 := sleep _ _). destruct (IH w1) as (effs & Hobs & Hclock).
        exists (Wait (2 ^ Z.of_nat attempt) :: effs). rewrite Hobs, Hclock. subst w1.
        rewrite observed_sleep, observed_log, observed_requested. cbn [omap effect_of].
        rewrite app_nil_r, <- app_assoc. split; [done |].
        cbn [waited foldr]. fold (waited effs). cbn [clock sleep set_clock emit].
        change (clock (log ?l ?m (requested ?a ?b ?c ?x))) with (clock x).
        rewrite inject_Z_plus. ring.
    + exists []. cbn [snd]. rewrite observed_log, observed_requested.
      cbn. rewrite !app_nil_r. split; [done | ring].
Qed.

(** Where the answer of the policy comes from: it is the empty list, or
    the data of the verdict of the last request counted. *)
Lemma retry_policy_answer (a : nat) (vs : list verdict) :
  answer (retry_policy a vs) = JList []
  \/ ((1 <= requests (retry_policy a vs))%nat
      /\ vs !! (requests (retry_policy a vs) - 1)%nat
         = Some (Succeeded (answer (retry_policy a vs)))).
Proof.
  revert a. induction vs as [| v vs IH]; intros a; [by left |].
  cbn [retry_policy].
  destruct v as [data | status body | msg | msg], vs as [| v' vs'];
    cbn [answer requests and_then]; try (by left); try (by right).
  - destruct (IH (S a)) as [Hempty | [Hone Hlast]]; [by left | right].
    split; [lia |]. rewrite Nat.sub_succ, Nat.sub_0_r.
    destruct (requests _) as [| k]; [lia |].
    by rewrite Nat.sub_succ, Nat.sub_0_r in Hlast.
  - destruct (IH (S a)) as [Hempty | [Hone Hlast]]; [by left | right].
    split; [lia |]. rewrite Nat.sub_succ, Nat.sub_0_r.
    destruct (requests _) as [| k]; [lia |].
    by rewrite Nat.sub_succ, Nat.sub_0_r in Hlast.
Qed.

Lemma classify_succeeded (o : failure + response) (data : json) :
  classify o = Succeeded data ->
  exists r, o = inr r /\ (status r = 200 \/ status r = 201) /\ json_body r = inr data.
Proof.
  destruct o as [e | r]; cbn [classify]; [by destruct e |].
  destruct (Z.eqb_spec (status r) 200) as [H200 | _]; cbn [orb].
  - destruct (json_body r) as [e | d] eqn:Hbody; [by destruct e |].
    intros [= <-]. exists r. auto.
  - destruct (Z.eqb_spec (status r) 201) as [H201 | _].
    + destruct (json_body r) as [e | d] eqn:Hbody; [by destruct e |].
      intros [= <-]. exists r. auto.
    + destruct (text_body r) as [e | body]; [by destruct e | done].
Qed.

Lemma verdicts_lookup (req : event) (first n i : nat) (v : verdict) :
  verdicts net req first n !! i = Some v -> v = classify (net (first + i)%nat req).
Proof.
  unfold verdicts. change (map ?f ?l) with (f <$> l).
  rewrite list_lookup_fmap. intros Hi.
  apply fmap_Some in Hi as (j & Hj & ->). by apply lookup_seq in Hj as [-> _].
Qed.

(** What a run of the loop leaves untouched, and how far [sent] and the
    trace move. *)
Lemma attempts_frame (remaining : list nat) (w : World) :
  let w' := snd (attempts net method url params max_retries remaining w) in
  processed_layouts w' = processed_layouts w
  /\ all_pages w' = all_pages w
  /\ site_structure w' = site_structure w
  /\ stats w' = stats w
  /\ cache_db w' = cache_db w
  /\ session_open w' = session_open w
  /\ (sent w <= sent w' <= sent w + length remaining)%nat
  /\ exists evs, trace w' = trace w ++ evs.
Proof.
  cbn zeta. revert w.
  induction remaining as [| attempt rest IH]; intros w; cbn [attempts].
  - repeat split; try done; try (cbn; lia). exists []. by rewrite app_nil_r.
  - rewrite one_attempt_cases. cbn zeta.
    assert (Hfin : forall w1 : World,
               processed_layouts w1 = processed_layouts w ->
               all_pages w1 = all_pages w ->
               site_structure w1 = site_structure w ->
               stats w1 = stats w ->
               cache_db w1 = cache_db w ->
               session_open w1 = session_open w ->
               sent w1 = S (sent w) ->
               (exists evs, trace w1 = trace w ++ evs) ->
               processed_layouts w1 = processed_layouts w
               /\ all_pages w1 = all_pages w
               /\ site_structure w1 = site_structure w
               /\ stats w1 = stats w
               /\ cache_db w1 = cache_db w
               /\ session_open w1 = session_open w
               /\ (sent w <= sent w1 <= sent w + length (attempt :: rest))%nat
               /\ exists evs, trace w1 = trace w ++ evs).
    { intros w1 ? ? ? ? ? ? Hs ?. repeat split; try done; cbn [length]; lia. }
    assert (Hnext : forall w1 : World,
               processed_layouts w1 = processed_layouts w ->
               all_pages w1 = all_pages w ->
               site_structure w1 = site_structure w ->
               stats w1 = stats w ->
               cache_db w1 = cache_db w ->
               session_open w1 = session_open w ->
               sent w1 = S (sent w) ->
               (exists evs, trace w1 = trace w ++ evs) ->
               processed_layouts (snd (attempts net method url params max_retries rest w1))
               = processed_layouts w
               /\ all_pages (snd (attempts net method url params max_retries rest w1))
                  = all_pages w
               /\ site_structure (snd (attempts net method url params max_retries rest w1))
                  = site_structure w
               /\ stats (snd (attempts net method url params max_retries rest w1)) = stats w
               /\ cache_db (snd (attempts net method url params max_retries rest w1))
                  = cache_db w
               /\ session_open (snd (attempts net method url params max_retries rest w1))
                  = session_open w
               /\ (sent w <= sent (snd (attempts net method url params max_retries rest w1))
                   <= sent w + length (attempt :: rest))%nat
               /\ exists evs,
                    trace (snd (attempts net method url params max_retries rest w1))
                    = trace w ++ evs).
    { intros w1 H1 H2 H3 H4 H5 H6 Hs [evs Ht].
      destruct (IH w1) as (I1 & I2 & I3 & I4 & I5 & I6 & I7 & [evs' I8]).
      rewrite I1, I2, I3, I4, I5, I6, I8, Ht, H1, H2, H3, H4, H5, H6.
      repeat split; try done; cbn [length]; try lia.
      exists (evs ++ evs'). by rewrite app_assoc. }
    destruct (classify _) as [data | status body | msg | msg];
      try destruct (Z.of_nat attempt =? max_retries - 1); cbn [snd];
      first [ apply Hnext | apply Hfin ]; try done;
      unfold requested, log, sleep, set_clock, set_sent, emit; cbn;
      rewrite <- ?app_assoc; eauto.
Qed.

End SessionCoverage.

Section SessionCoverageTheorems.
Import Py Sys Session Examples.
Local Open Scope list_scope.

(** X2.  The back-off of [request_with_retry] is bounded: whatever the
    server does, the seconds the call sleeps between its attempts add up
    to at most [2^(max_retries - 1) - 1] (three seconds with the default
    of three attempts). *)
Theorem request_with_retry_backoff
        (net : nat -> event -> failure + response)
        (method url : string) (params : json) (max_retries : Z) (w : World) :
  1 <= max_retries ->
  let w' := snd (request_with_retry net method url params max_retries w) in
  exists effs,
    observed w' = observed w ++ effs
    /\ 0 <= waited effs <= 2 ^ (max_retries - 1) - 1.
Proof.
  intros Hmax. cbn zeta. unfold request_with_retry, range.
  assert (Hpow : 1 <= 2 ^ (max_retries - 1)).
  { change 1 with (2 ^ 0) at 1. apply Z.pow_le_mono_r; lia. }
  destruct (session_open w) eqn:Hopen; cbn [negb snd].
  - destruct (Z.to_nat max_retries) as [| n] eqn:Hn; [lia |].
    destruct (attempts_clock net method url params max_retries (seq 0 (S n)) w)
      as (effs & Hobs & Hclock).
    destruct (attempts_follow_policy net method url params max_retries n 0 w)
      as (w' & Hrun & Hobs' & _); [lia |].
    rewrite Hrun in *. cbn [snd] in *.
    exists effs. split; [exact Hobs |].
    rewrite Hobs in Hobs'. apply app_inv_head in Hobs'. subst effs.
    pose proof (retry_policy_waited 0
                  (verdicts net (request_of method url params) (sent w) (S n)))
      as [Hlow Hhigh].
    unfold verdicts in Hhigh at 2. rewrite length_map, length_seq in Hhigh.
    cbn [Nat.add Nat.sub] in Hhigh. rewrite Nat.sub_0_r in Hhigh.
    replace (max_retries - 1) with (Z.of_nat n) by lia.
    change (2 ^ Z.of_nat 0) with 1 in Hhigh. lia.
  - exists []. rewrite app_nil_r. split; [done |]. cbn; lia.
Qed.

Lemma request_with_retry_backoff_witness :
  let w' := snd (request_with_retry flaky "POST" "https://example.com/api"
                                    JNull 3 fresh_world) in
  exists effs,
    observed w' = observed fresh_world ++ effs
    /\ 0 <= waited effs <= 2 ^ (3 - 1) - 1.
Proof.
  apply (request_with_retry_backoff flaky "POST" "https://example.com/api"
                                    JNull 3 fresh_world).
  lia.
Defined.

(** X1.  The answer of [request_with_retry]: [None] when no attempt is allowed
    ([max_retries <= 0], nothing is sent and nothing changes); otherwise
    the empty list, or the JSON body of the last request sent, whose
    response had status 200 or 201. *)
Theorem request_with_retry_answer
        (net : nat -> event -> failure + response)
        (method url : string) (params : json) (max_retries : Z)
        (w w' : World) (v : json) :
  request_with_retry net method url params max_retries w = (Ok v, w') ->
  (max_retries <= 0 /\ v = JNull /\ w' = w)
  \/ (1 <= max_retries
      /\ (sent w < sent w' <= sent w + Z.to_nat max_retries)%nat
      /\ (v = JList []
          \/ exists r,
               net (pred (sent w')) (request_of method url params) = inr r
               /\ (status r = 200 \/ status r = 201)
               /\ json_body r = inr v)).
Proof.
  unfold request_with_retry, range.
  destruct (session_open w) eqn:Hopen; cbn [negb]; [| done].
  destruct (Z.to_nat max_retries) as [| n] eqn:Hn.
  - cbn [seq attempts]. intros [= <- <-]. left. split; [lia | done].
  - destruct (attempts_follow_policy net method url params max_retries n 0 w)
      as (w1 & Hrun & _ & Hsent & _); [lia |].
    rewrite Hrun. intros [= <- <-]. right. split; [lia |].
    set (vs := verdicts net (request_of method url params) (sent w) (S n)) in *.
    pose proof (retry_policy_requests 0 (classify (net (sent w) (request_of method url params)))
                  (verdicts net (request_of method url params) (S (sent w)) n)) as Hge.
    change (classify _ :: _) with vs in Hge.
    pose proof (retry_policy_requests_le 0 vs) as Hle.
    unfold vs in Hle at 2. unfold verdicts in Hle. rewrite length_map, length_seq in Hle.
    split; [lia |].
    destruct (retry_policy_answer 0 vs) as [Hempty | [_ Hlast]]; [by left | right].
    apply verdicts_lookup in Hlast. symmetry in Hlast.
    apply classify_succeeded in Hlast as (r & Hr & Hstatus & Hbody).
    exists r. split; [| done]. rewrite <- Hr. f_equal. lia.
Qed.

Lemma request_with_retry_answer_witness :
  (3 <= 0 /\ one_layout = JNull
   /\ snd (request_with_retry flaky "POST" "https://example.com/api" JNull 3 fresh_world)
      = fresh_world)
  \/ (1 <= 3
      /\ (sent fresh_world
          < sent (snd (request_with_retry flaky "POST" "https://example.com/api"
                                          JNull 3 fresh_world))
          <= sent fresh_world + Z.to_nat 3)%nat
      /\ (one_layout = JList []
          \/ exists r,
               flaky (pred (sent (snd (request_with_retry flaky "POST"
                                         "https://example.com/api" JNull 3 fresh_world))))
                     (request_of "POST" "https://example.com/api" JNull) = inr r
               /\ (status r = 200 \/ status r = 201)
               /\ json_body r = inr one_layout)).
Proof.
  apply (request_with_retry_answer flaky "POST" "https://example.com/api" JNull 3
                                   fresh_world).
  by vm_compute.
Defined.

(** X3.  [request_with_retry] is stateless for the crawl: whatever the server
    does, the call leaves the visited set, the records, the site tree,
    the statistics, the cache store and the session as they were; it only
    appends to the trace and sends at most [max_retries] requests. *)
Theorem request_with_retry_frame
        (net : nat -> event -> failure + response)
        (method url : string) (params : json) (max_retries : Z) (w : World) :
  let w' := snd (request_with_retry net method url params max_retries w) in
  processed_layouts w' = processed_layouts w
  /\ all_pages w' = all_pages w
  /\ site_structure w' = site_structure w
  /\ stats w' = stats w
  /\ cache_db w' = cache_db w
  /\ session_open w' = session_open w
  /\ (sent w <= sent w' <= sent w + Z.to_nat max_retries)%nat
  /\ exists evs, trace w' = trace w ++ evs.
Proof.
  cbn zeta. unfold request_with_retry, range.
  destruct (negb (session_open w)); cbn [snd].
  - repeat split; try done; try lia. exists []. by rewrite app_nil_r.
  - pose proof (attempts_frame net method url params max_retries
                               (seq 0 (Z.to_nat max_retries)) w) as Hframe.
    cbn zeta in Hframe. rewrite length_seq in Hframe.
    by destruct (attempts _ _ _ _ _ _ w) as [v w'].
Qed.

End SessionCoverageTheorems.

(** ** The cache: what [get_or_fetch] writes *)

Section CacheCoverage.
Import Py Sys Cache Examples.

Lemma lookup_cache_db (cm : CacheManager) (key : string) (w : World) :
  cache_db (snd (lookup cm key w)) = cache_db w.
Proof.
  unfold lookup. destruct (0 <? ttl cm); [| done].
  destruct (cache_db w !! _) as [e |]; [| done].
  by destruct (is_valid cm _ w).
Qed.

(** Distinct keys have distinct full keys under one manager. *)
Lemma full_key_inj (cm : CacheManager) (key key' : string) :
  full_key cm key' = full_key cm key -> key' = key.
Proof.
  unfold full_key. intros Heq.
  apply (inj (String.append (key_prefix cm))) in Heq.
  by apply (inj (String.append "_")) in Heq.
Qed.

(** X4.  [get_or_fetch] writes at most one entry, under the full key of its own
    key and stamped with the current time, and only after the fetch
    function returned with a positive time-to-live.  A cache hit writes
    nothing and does not run the fetch function; a fetch that raises is
    passed on and nothing is written; the entries of all other keys are
    as the fetch function left them. *)
Theorem get_or_fetch_store_effect (cm : CacheManager) (key : string)
        (f : M json) (w : World) :
  let w0 := snd (lookup cm key w) in
  cache_db w0 = cache_db w
  /\ match fst (lookup cm key w), f w0 with
     | Some content, _ => get_or_fetch cm key f w = (Ok (content, true), w0)
     | None, (Raise e, wf) => get_or_fetch cm key f w = (Raise e, wf)
     | None, (Ok v, wf) =>
         fst (get_or_fetch cm key f w) = Ok (v, false)
         /\ cache_db (snd (get_or_fetch cm key f w))
            = (if 0 <? ttl cm
               then <[full_key cm key := mkEntry (Some (clock wf)) (Some v)]>
                      (cache_db wf)
               else cache_db wf)
         /\ forall key',
              key' <> key ->
              cache_db (snd (get_or_fetch cm key f w)) !! full_key cm key'
              = cache_db wf !! full_key cm key'
     end.
Proof.
  cbn zeta. split; [apply lookup_cache_db |].
  unfold get_or_fetch.
  destruct (lookup cm key w) as [[content |] w0]; cbn [fst snd]; [done |].
  unfold mbind, exec, ret. destruct (f w0) as [[v | e] wf]; [| done].
  cbn [fst snd]. split; [done |].
  assert (Hdb : cache_db (store cm key v wf)
                = if 0 <? ttl cm
                  then <[full_key cm key := mkEntry (Some (clock wf)) (Some v)]>
                         (cache_db wf)
                  else cache_db wf).
  { unfold store. by destruct (0 <? ttl cm). }
  split; [exact Hdb |].
  intros key' Hne. rewrite Hdb. destruct (0 <? ttl cm); [| done].
  apply lookup_insert_ne. intros Heq. apply Hne. symmetry. by eapply full_key_inj.
Qed.

End CacheCoverage.

(** ** The traversal engine: the visited set, the cache and the counters *)

Section ExtractorCoverage.
Import Py Sys Session Extractor.
Local Open Scope list_scope.
#[local] Set Warnings "-clear-no-such-hyp".

Variable net : nat -> event -> failure + response.
Variable ex : Extractor.t.

Lemma length_append (s t : string) :
  String.length (s ++ t)%string = (String.length s + String.length t)%nat.
Proof.
  induction s as [| c s IH]; [done |]. rewrite append_cons. cbn [String.length].
  by rewrite IH.
Qed.

Lemma append_assoc (s t u : string) : ((s ++ t) ++ u = s ++ t ++ u)%string.
Proof. induction s as [| c s IH]; [done |]. rewrite !append_cons. by rewrite IH. Qed.

(** Two texts with tails of the same length are equal part by part. *)
Lemma append_tail_inj (s1 s2 t1 t2 : string) :
  String.length t1 = String.length t2 ->
  (s1 ++ t1 = s2 ++ t2)%string -> s1 = s2 /\ t1 = t2.
Proof.
  intros Hlen. revert s2. induction s1 as [| c s1 IH]; intros [| c2 s2] Heq.
  - done.
  - exfalso. apply (f_equal String.length) in Heq.
    rewrite !length_append in Heq. cbn [String.length] in Heq. lia.
  - exfalso. apply (f_equal String.length) in Heq.
    rewrite !length_append in Heq. cbn [String.length] in Heq. lia.
  - rewrite !append_cons in Heq. injection Heq as -> Heq.
    destruct (IH s2 Heq) as [-> ->]. done.
Qed.

(** The traversal key determines the layout id and the privacy flag. *)
Lemma layout_key_inj (p p' : Z) (b b' : bool) :
  layout_key p' b' = layout_key p b -> p' = p /\ b' = b.
Proof.
  unfold layout_key, str_of_int. intros Heq.
  destruct b, b'; cbn [str_of_bool] in Heq.
  - apply append_tail_inj in Heq as [Heq _]; [| reflexivity].
    by apply (inj pretty) in Heq.
  - exfalso. rewrite <- (append_assoc (pretty p')) in Heq.
    apply append_tail_inj in Heq as [_ Habs]; [| reflexivity].
    vm_compute in Habs. discriminate.
  - exfalso. rewrite <- (append_assoc (pretty p)) in Heq.
    apply append_tail_inj in Heq as [_ Habs]; [| reflexivity].
    vm_compute in Habs. discriminate.
  - apply append_tail_inj in Heq as [Heq _]; [| reflexivity].
    by apply (inj pretty) in Heq.
Qed.

(** A call enters its key in the visited set, and that is all it does to
    the set. *)
Lemma get_layouts_visits (p : Z) (b : bool) (w : World) :
  processed_layouts (snd (get_layouts net ex p b w))
  = {[layout_key p b]} ∪ processed_layouts w.
Proof.
  destruct (decide (layout_key p b ∈ processed_layouts w)) as [Hin | Hnew].
  - unfold get_layouts. destruct (decide _); [| done]. cbn [snd]. set_solver.
  - rewrite get_layouts_unvisited by done. cbn zeta.
    set (w1 := set_processed_layouts _ w).
    pose proof (same_crawl_lookup (cache_manager ex) (cache_key ex p b) w1)
      as (Hv & _).
    destruct (Cache.lookup _ _ w1) as [[content |] w2]; cbn [snd] in Hv.
    + cbn [snd]. change (processed_layouts (set_stats ?f w2)) with (processed_layouts w2).
      by rewrite Hv.
    + set (w3 := emit _ _).
      assert (Hv3 : processed_layouts w3 = processed_layouts w1) by (by rewrite <- Hv).
      destruct (negb _); [cbn [snd]; by rewrite Hv3 |].
      pose proof (same_crawl_attempts net "POST" (endpoint ex) (params ex p b) 3
                                      (range 3) w3) as (Hv4 & _).
      destruct (attempts _ _ _ _ _ _ w3) as [v w4]. cbn [snd] in *.
      destruct (same_crawl_store (cache_manager ex) (cache_key ex p b) v w4)
        as (Hv5 & _).
      change (processed_layouts (set_stats ?f ?x)) with (processed_layouts x).
      by rewrite Hv5, Hv4, Hv3.
Qed.

(** A call whose key is new and whose cache entry is fresh. *)
Lemma get_layouts_hit (p : Z) (b : bool) (w : World) (e : cache_entry) :
  layout_key p b ∉ processed_layouts w ->
  cache_db w !! Cache.full_key (cache_manager ex) (cache_key ex p b) = Some e ->
  Cache.is_valid (cache_manager ex) (default 0%Q (entry_time e)) w = true ->
  get_layouts net ex p b w
  = (Ok (default JNull (entry_content e)),
     set_stats incr_cache_hits
       (log CacheLog (CacheHit (cache_key ex p b))
            (set_processed_layouts (union {[layout_key p b]}) w))).
Proof.
  intros Hnew Hdb Hvalid. rewrite get_layouts_unvisited by done. cbn zeta.
  unfold Cache.lookup.
  apply is_valid_true in Hvalid as Hv. destruct Hv as [Httl _].
  destruct (Z.ltb_spec 0 (Cache.ttl (cache_manager ex))) as [_ | ?]; [| lia].
  change (cache_db (set_processed_layouts ?f w)) with (cache_db w).
  rewrite Hdb.
  change (Cache.is_valid ?cm ?t (set_processed_layouts ?f w))
    with (Cache.is_valid cm t w).
  by rewrite Hvalid.
Qed.

(** The answer of the cache depends on the store and the clock only. *)
Lemma lookup_fst_frame (cm : Cache.CacheManager) (key : string) (w w' : World) :
  cache_db w' = cache_db w -> clock w' = clock w ->
  fst (Cache.lookup cm key w') = fst (Cache.lookup cm key w).
Proof.
  intros Hdb Hclock. unfold Cache.lookup, Cache.is_valid. rewrite Hdb, Hclock.
  destruct (0 <? Cache.ttl cm); [| done].
  destruct (cache_db w !! _) as [e |]; [| done].
  destruct (Cache.ttl cm <=? 0); [done |]. by destruct (Cache.Qltb _ _).
Qed.


(** A resumption keeps the account of the visited set. *)
Lemma resume_accounted (tk tk' : task) (w w' : World) :
  resume net ex tk w = (tk', w') -> accounted w' = accounted w.
Proof.
  assert (Hsame : forall w1 w2, same_crawl w1 w2 -> accounted w2 = accounted w1).
  { intros w1 w2 (Hv & _ & Hs & _). unfold accounted. by rewrite Hv, Hs. }
  assert (Hfinish : forall p b data w0 tk0 w1,
             finish ex p b data w0 = (tk0, w1) -> accounted w1 = accounted w0).
  { intros p b data w0 tk0 w1 [= _ <-].
    rewrite <- (Hsame _ _ (same_crawl_store (cache_manager ex) (cache_key ex p b) data w0)).
    done. }
  destruct tk as [p b | p b [| attempt rest] | r]; cbn [resume].
  - unfold start. destruct (decide _) as [Hin | Hnew]; [by intros [= _ <-] |].
    set (w1 := set_processed_layouts _ w).
    assert (Hw1 : accounted w1 = accounted w - 1).
    { unfold accounted. subst w1. cbn [stats processed_layouts set_processed_layouts].
      rewrite size_union by set_solver. rewrite size_singleton. lia. }
    pose proof (Hsame _ _ (same_crawl_lookup (cache_manager ex) (cache_key ex p b) w1))
      as Hw2.
    destruct (Cache.lookup _ _ w1) as [[content |] w2]; cbn [snd] in Hw2.
    + intros [= _ <-]. unfold accounted in *. cbn in *. lia.
    + intros Hres.
      assert (w' = emit (FetchIssued p b) (set_stats incr_requests_made w2)) as ->.
      { cbn [session_open emit] in Hres. by destruct (negb _); injection Hres. }
      unfold accounted in *. cbn in *. lia.
  - apply Hfinish.
  - pose proof (Hsame _ _ (same_crawl_one_attempt net "POST" (endpoint ex)
                                                  (params ex p b) 3 attempt w)) as H1.
    destruct (one_attempt _ _ _ _ _ _ w) as [[| data] w1]; cbn [snd] in H1.
    + by intros [= _ <-].
    + intros Hres. apply Hfinish in Hres. lia.
  - by intros [= _ <-].
Qed.

Lemma outstanding_app (ts1 ts2 : list task) :
  outstanding (ts1 ++ ts2) = outstanding ts1 + outstanding ts2.
Proof.
  induction ts1 as [| tk ts1 IH]; [done |]. cbn [app outstanding foldr] in *.
  fold (outstanding (ts1 ++ ts2)) (outstanding ts1).
  destruct tk as [| | [|]]; lia.
Qed.

Lemma outstanding_insert (ts : list task) (i : nat) (tk tk' : task) :
  ts !! i = Some tk ->
  outstanding (<[i := tk']> ts)
  = outstanding ts - outstanding [tk] + outstanding [tk'].
Proof.
  revert i. induction ts as [| t ts IH]; intros [| i] Hi; try done.
  - injection Hi as ->.
    change (<[0%nat := tk']> (tk :: ts)) with ([tk'] ++ ts).
    change (tk :: ts) with ([tk] ++ ts).
    rewrite !outstanding_app. lia.
  - change (<[S i := tk']> (t :: ts)) with ([t] ++ <[i := tk']> ts).
    change (t :: ts) with ([t] ++ ts). rewrite !outstanding_app.
    rewrite (IH i Hi). lia.
Qed.

(** A resumption keeps what the counters owe to the tasks. *)
Lemma resume_owed (tk tk' : task) (w w' : World) :
  resume net ex tk w = (tk', w') ->
  requests_made (stats w') - cache_misses (stats w') - outstanding [tk']
  = requests_made (stats w) - cache_misses (stats w) - outstanding [tk].
Proof.
  assert (Hfinish : forall p b remaining data w0 w1 tk0,
             stats w0 = stats w ->
             finish ex p b data w0 = (tk0, w1) ->
             requests_made (stats w1) - cache_misses (stats w1) - outstanding [tk0]
             = requests_made (stats w) - cache_misses (stats w)
               - outstanding [InTransport p b remaining]).
  { intros p b remaining data w0 w1 tk0 Hs [= <- <-].
    destruct (same_crawl_store (cache_manager ex) (cache_key ex p b) data w0)
      as (_ & _ & Hs' & _).
    change (stats (set_stats ?f ?x)) with (f (stats x)). rewrite Hs', Hs.
    cbn. lia. }
  destruct tk as [p b | p b [| attempt rest] | r]; cbn [resume].
  - unfold start. destruct (decide _) as [Hin | Hnew]; [by intros [= <- <-] |].
    set (w1 := set_processed_layouts _ w).
    pose proof (same_crawl_lookup (cache_manager ex) (cache_key ex p b) w1)
      as (_ & _ & Hs & _).
    destruct (Cache.lookup _ _ w1) as [[content |] w2]; cbn [snd] in Hs.
    + intros [= <- <-]. change (stats (set_stats ?f ?x)) with (f (stats x)).
      rewrite Hs. cbn. lia.
    + cbn [session_open emit].
      destruct (negb _); intros [= <- <-];
        change (stats (emit _ (set_stats ?f ?x))) with (f (stats x));
        rewrite Hs; cbn; lia.
  - by apply Hfinish.
  - pose proof (same_crawl_one_attempt net "POST" (endpoint ex) (params ex p b) 3
                                       attempt w) as (_ & _ & Hs & _).
    destruct (one_attempt _ _ _ _ _ _ w) as [[| data] w1]; cbn [snd] in Hs.
    + intros [= <- <-]. by rewrite Hs.
    + intros Hres. by eapply Hfinish.
  - by intros [= <- <-].
Qed.

End ExtractorCoverage.

Section ExtractorCoverageTheorems.
Import Py Sys Session Extractor Examples.
Local Open Scope list_scope.
#[local] Set Warnings "-clear-no-such-hyp".

(** X9.  Whatever a call of [get_layouts] does (a cache hit, a fetch that
    succeeds, a fetch that gives up, an exception), its key is in the
    visited set afterwards, and a second call with that key returns the
    empty list and changes nothing, whatever the server would answer. *)
Theorem get_layouts_again_empty
        (net net' : nat -> event -> failure + response) (ex : Extractor.t)
        (p : Z) (b : bool) (w : World) :
  let w' := snd (get_layouts net ex p b w) in
  layout_key p b ∈ processed_layouts w'
  /\ get_layouts net' ex p b w' = (Ok (JList []), w').
Proof.
  cbn zeta.
  assert (Hin : layout_key p b ∈ processed_layouts (snd (get_layouts net ex p b w))).
  { rewrite get_layouts_visits. set_solver. }
  split; [exact Hin |]. unfold get_layouts at 1. by destruct (decide _).
Qed.

(** X10.  A call of [get_layouts] adds its own key to the visited set and no
    other; the key determines the layout id and the privacy flag, so the
    call marks no other pair as visited. *)
Theorem get_layouts_marks_own_key
        (net : nat -> event -> failure + response) (ex : Extractor.t)
        (p : Z) (b : bool) (w : World) :
  let w' := snd (get_layouts net ex p b w) in
  processed_layouts w' = {[layout_key p b]} ∪ processed_layouts w
  /\ (forall p' b', layout_key p' b' = layout_key p b -> p' = p /\ b' = b)
  /\ (forall p' b',
        (p', b') <> (p, b) ->
        layout_key p' b' ∈ processed_layouts w'
        <-> layout_key p' b' ∈ processed_layouts w).
Proof.
  cbn zeta. split; [apply get_layouts_visits |].
  split; [intros p' b'; apply layout_key_inj |].
  intros p' b' Hne. rewrite get_layouts_visits.
  rewrite elem_of_union, elem_of_singleton. split; [| by right].
  intros [Heq | Hin]; [| done].
  apply layout_key_inj in Heq as [-> ->]. done.
Qed.

(** X6.  A call with a new key whose cache entry is still valid returns the
    cached content and counts one cache hit: no fetch is issued, no
    request is sent, the store and the other counters are unchanged. *)
Theorem get_layouts_cache_hit
        (net : nat -> event -> failure + response) (ex : Extractor.t)
        (p : Z) (b : bool) (w : World) (e : cache_entry) :
  layout_key p b ∉ processed_layouts w ->
  cache_db w !! Cache.full_key (cache_manager ex) (cache_key ex p b) = Some e ->
  Cache.is_valid (cache_manager ex) (default 0%Q (entry_time e)) w = true ->
  let r := get_layouts net ex p b w in
  fst r = Ok (default JNull (entry_content e))
  /\ sent (snd r) = sent w
  /\ fetched (snd r) = fetched w
  /\ stats (snd r) = incr_cache_hits (stats w)
  /\ cache_db (snd r) = cache_db w
  /\ all_pages (snd r) = all_pages w.
Proof.
  intros Hnew Hdb Hvalid. cbn zeta.
  rewrite (get_layouts_hit net ex p b w e Hnew Hdb Hvalid). cbn [fst snd].
  repeat split. unfold log.
  change (fetched (set_stats ?f ?x)) with (fetched x).
  rewrite fetched_emit. cbn. by rewrite app_nil_r.
Qed.

Lemma get_layouts_cache_hit_witness :
  let r := get_layouts flaky cached_site 0 false (at_time 3600 warm_world) in
  fst r = Ok one_layout
  /\ sent (snd r) = 0%nat
  /\ fetched (snd r) = []
  /\ stats (snd r) = incr_cache_hits initial_stats
  /\ cache_db (snd r) = cache_db warm_world
  /\ all_pages (snd r) = [].
Proof.
  apply (get_layouts_cache_hit flaky cached_site 0 false (at_time 3600 warm_world)
                               (mkEntry (Some 0%Q) (Some one_layout))).
  - by vm_compute.
  - by vm_compute.
  - by vm_compute.
Defined.

(** X8.  A call with a new key that has to fetch while the session is not
    initialised raises [RuntimeError] after it has entered its key in the
    visited set and counted a request: nothing is sent, nothing is cached,
    and the next call with that key returns the empty list. *)
Theorem get_layouts_without_session
        (net : nat -> event -> failure + response) (ex : Extractor.t)
        (p : Z) (b : bool) (w : World) :
  session_open w = false ->
  layout_key p b ∉ processed_layouts w ->
  fst (Cache.lookup (cache_manager ex) (cache_key ex p b) w) = None ->
  let r := get_layouts net ex p b w in
  fst r = Raise RuntimeError
  /\ layout_key p b ∈ processed_layouts (snd r)
  /\ requests_made (stats (snd r)) = requests_made (stats w) + 1
  /\ cache_misses (stats (snd r)) = cache_misses (stats w)
  /\ sent (snd r) = sent w
  /\ cache_db (snd r) = cache_db w
  /\ get_layouts net ex p b (snd r) = (Ok (JList []), snd r).
Proof.
  intros Hclosed Hnew Hmiss. cbn zeta.
  assert (Hin : layout_key p b ∈ processed_layouts (snd (get_layouts net ex p b w))).
  { rewrite get_layouts_visits. set_solver. }
  assert (Hagain : get_layouts net ex p b (snd (get_layouts net ex p b w))
                   = (Ok (JList []), snd (get_layouts net ex p b w))).
  { unfold get_layouts at 1. by destruct (decide _). }
  split; [| split; [exact Hin | repeat split; [.. | exact Hagain]]];
    rewrite get_layouts_unvisited by done; cbn zeta;
    set (w1 := set_processed_layouts _ w);
    assert (Hmiss1 : fst (Cache.lookup (cache_manager ex) (cache_key ex p b) w1) = None)
      by (by rewrite (lookup_fst_frame _ _ w w1));
    pose proof (same_crawl_lookup (cache_manager ex) (cache_key ex p b) w1)
      as (_ & _ & Hs & _ & _ & Ho);
    pose proof (lookup_cache_db (cache_manager ex) (cache_key ex p b) w1) as Hdb;
    assert (Hsent : sent (snd (Cache.lookup (cache_manager ex) (cache_key ex p b) w1))
                    = sent w)
      by (unfold Cache.lookup; destruct (0 <? _); [| done];
          destruct (cache_db w1 !! _); [| done]; by destruct (Cache.is_valid _ _ _));
    destruct (Cache.lookup _ _ w1) as [[content |] w2]; try done;
    cbn [snd] in *; cbn [session_open emit set_stats];
    rewrite Ho; subst w1; cbn [session_open set_processed_layouts];
    rewrite Hclosed; cbn [negb fst snd]; try done.
  - cbn. rewrite Hs. done.
  - cbn. rewrite Hs. done.
Qed.

Lemma get_layouts_without_session_witness :
  let r := get_layouts flaky site 0 false closed_world in
  fst r = Raise RuntimeError
  /\ layout_key 0 false ∈ processed_layouts (snd r)
  /\ requests_made (stats (snd r)) = requests_made (stats closed_world) + 1
  /\ cache_misses (stats (snd r)) = cache_misses (stats closed_world)
  /\ sent (snd r) = sent closed_world
  /\ cache_db (snd r) = cache_db closed_world
  /\ get_layouts flaky site 0 false (snd r) = (Ok (JList []), snd r).
Proof.
  apply (get_layouts_without_session flaky site 0 false closed_world).
  - reflexivity.
  - by vm_compute.
  - reflexivity.
Defined.



(** X11.  The counters account for the visited set and for the fetches.
    Along every schedule of calls and resumptions of [get_layouts]
    coroutines, [cache_hits + requests_made] grows exactly as the visited
    set grows, and [requests_made - cache_misses] grows exactly as the
    number of fetches that are in the transport or ended with an
    exception. *)
Theorem schedule_accounting
        (net : nat -> event -> failure + response) (ex : Extractor.t)
        (acts : list action) (s : system) :
  let s' := schedule net ex acts s in
  accounted (world s') = accounted (world s) /\ owed s' = owed s.
Proof.
  cbn zeta. revert s. induction acts as [| a acts IH]; intros s; [done |].
  cbn [schedule fold_left].
  change (fold_left _ acts ?x) with (schedule net ex acts x).
  destruct (IH (perform net ex a s)) as [-> ->].
  destruct s as [w ts]. destruct a as [p b | i]; cbn [perform world tasks].
  - split; [done |]. unfold owed. cbn [world tasks].
    rewrite outstanding_app. cbn. lia.
  - destruct (ts !! i) as [tk |] eqn:Hi; [| done].
    destruct (resume net ex tk w) as [tk' w'] eqn:Hres.
    split; [by eapply resume_accounted |].
    unfold owed. cbn [world tasks].
    rewrite (outstanding_insert ts i tk tk' Hi).
    pose proof (resume_owed net ex tk tk' w w' Hres). lia.
Qed.

End ExtractorCoverageTheorems.

(** ** The plain-text export: success, failure, order of the records *)

Section TxtExportCoverage.
Import Py TxtExport Examples.
Local Open Scope list_scope.

Lemma str_le_trans : Transitive str_le.
Proof.
  intros a b c Hab Hbc. unfold str_le in *.
  apply Is_true_true. apply Is_true_true in Hab, Hbc.
  exact (transitivity (R := String.le) Hab Hbc).
Qed.

Lemma str_le_antisymm : AntiSymm (=) str_le.
Proof. intros a b Hab Hba. by apply String.leb_antisym. Qed.

(** Sorting forgets the order of its input. *)
Lemma sorted_perm (l1 l2 : list string) : l1 ≡ₚ l2 -> sorted l1 = sorted l2.
Proof.
  intros Hp. unfold sorted.
  apply (@Sorted_unique _ str_le str_le_trans str_le_antisymm).
  - apply (Sorted_merge_sort str_le).
  - apply (Sorted_merge_sort str_le).
  - by rewrite !merge_sort_Permutation.
Qed.

(** Reading the URLs of permuted records gives permuted URLs, or fails
    for both. *)
Lemma mapM_page_url_perm (l1 l2 : list json) :
  l1 ≡ₚ l2 ->
  match mapM page_url l1, mapM page_url l2 with
  | Some u1, Some u2 => u1 ≡ₚ u2
  | None, None => True
  | _, _ => False
  end.
Proof.
  induction 1 as [| x l1 l2 _ IH | x y l | l1 l2 l3 _ IH12 _ IH23].
  - by cbn.
  - cbn. destruct (page_url x); cbn; [| done].
    destruct (mapM page_url l1), (mapM page_url l2); cbn; try done.
    by constructor.
  - cbn. destruct (page_url x), (page_url y); cbn; try done;
      destruct (mapM page_url l); cbn; try done. apply perm_swap.
  - destruct (mapM page_url l1), (mapM page_url l2), (mapM page_url l3);
      try done. by etransitivity.
Qed.

(** X22.  The export does not depend on the order of the records: two lists
    with the same records in any order give the same answer and the same
    file. *)
Theorem export_order_independent (pages pages' : list json)
        (output_file : string) (fs : filesystem) :
  pages ≡ₚ pages' ->
  export pages output_file fs = export pages' output_file fs.
Proof.
  intros Hp. unfold export. destruct (decide _); [done |].
  pose proof (mapM_page_url_perm pages pages' Hp) as Hurls.
  destruct (mapM page_url pages) as [u1 |], (mapM page_url pages') as [u2 |];
    try done.
  by rewrite (sorted_perm u1 u2 Hurls).
Qed.

Lemma export_order_independent_witness :
  export [page_news; page_home] "urls.txt" empty_outputs
  = export [page_home; page_news] "urls.txt" empty_outputs.
Proof.
  apply (export_order_independent [page_news; page_home] [page_home; page_news]).
  apply perm_swap.
Defined.


End TxtExportCoverage.

(** ** Recording a layout, and the checkpoint file *)

Section RecordCoverage.
Import Py Sys Extractor Examples.
Local Open Scope list_scope.

(** A record built by [to_dict] holds its URL as a string under
    ['url']. *)
Lemma page_url_to_dict (page : Page.t) :
  TxtExport.page_url (Page.to_dict page) = Some (Page.url page).
Proof.
  unfold TxtExport.page_url, Page.to_dict.
  rewrite lookup_insert_ne by done. rewrite lookup_insert_ne by done.
  by rewrite lookup_insert_eq.
Qed.

(** X13.  [_process_layout] either appends exactly one record, built by
    [Page.from_json] and exportable, and counts it in [layouts_processed],
    or raises and leaves the state as it was.  Either way the difference
    between the counter and the number of records is kept, records that
    could be exported still can, and the visited set, the cache store, the
    requests sent and the trace are untouched. *)
Theorem process_layout_records_one
        (urljoin : string -> string -> result string) (ex : Extractor.t)
        (layout : json) (parent_url : string) (is_private : bool) (w : World) :
  let r := process_layout urljoin ex layout parent_url is_private w in
  match fst r with
  | Ok _ =>
      exists d page,
        layout = JDict d
        /\ Page.from_json urljoin d parent_url is_private (liferay_url ex) = Ok page
        /\ all_pages (snd r) = all_pages w ++ [Page.to_dict page]
        /\ TxtExport.page_url (Page.to_dict page) = Some (Page.url page)
        /\ layouts_processed (stats (snd r)) = layouts_processed (stats w) + 1
  | Raise _ => snd r = w
  end
  /\ layouts_processed (stats (snd r)) - Z.of_nat (length (all_pages (snd r)))
     = layouts_processed (stats w) - Z.of_nat (length (all_pages w))
  /\ (Forall (fun page => is_Some (TxtExport.page_url page)) (all_pages w) ->
      Forall (fun page => is_Some (TxtExport.page_url page)) (all_pages (snd r)))
  /\ processed_layouts (snd r) = processed_layouts w
  /\ cache_db (snd r) = cache_db w
  /\ sent (snd r) = sent w
  /\ trace (snd r) = trace w.
Proof.
  cbn zeta. unfold process_layout.
  destruct layout as [| | | | | | d]; try (by repeat split).
  destruct (Page.from_json urljoin d parent_url is_private (liferay_url ex))
    as [page | e] eqn:Hpage; [| by repeat split].
  cbn [fst snd]. split; [| split; [| split; [| done]]].
  - exists d, page. by repeat split.
  - cbn. rewrite length_app. cbn. lia.
  - intros Hall. cbn. apply Forall_app. split; [done |].
    apply Forall_singleton. rewrite page_url_to_dict. eauto.
Qed.

End RecordCoverage.

Section CheckpointCoverage.
Import Py Helpers Examples.




End CheckpointCoverage.

(** ** Expanding a layout *)

Section ExpansionCoverage.
Import Py Sys Extractor Expansion.
Local Open Scope list_scope.

Variable urljoin : string -> string -> result string.
Variable ex : Extractor.t.
Variable parent_url : string.
Variable is_private : bool.

(** A record can only be built for a dict whose friendly URL is a
    string. *)
Lemma record_of_ok (layout : json) (page : Page.t) :
  record_of urljoin ex parent_url is_private layout = Ok page ->
  exists d f,
    layout = JDict d
    /\ dict_get d "friendlyURL" (JStr "") = JStr f
    /\ child_key layout = Some (lstrip_slashes f)
    /\ Page.path page = Page.full_path parent_url (Page.own_segment f).
Proof.
  destruct layout as [| | | | | | d]; try done. cbn [record_of].
  unfold Page.from_json, child_key.
  destruct (dict_get d "friendlyURL" (JStr "")) as [| | | | f | |] eqn:Hf; try done.
  destruct (urljoin _ _) as [u | e]; cbn [bind]; [| done].
  intros [= <-]. by exists d, f.
Qed.

(** One iteration on a layout whose record can be built. *)
Lemma expand_one_ok (layout : json) (page : Page.t) (st : state) :
  record_of urljoin ex parent_url is_private layout = Ok page ->
  exists key nd,
    child_key layout = Some key
    /\ child_node layout (st_allocated st) = Some nd
    /\ expand_one urljoin ex parent_url is_private layout st
       = (Ok (mkCall (node_id nd) (Page.full_path parent_url key) is_private
                     (st_allocated st)),
          mkState (set_stats incr_layouts_processed
                     (set_all_pages (fun l => l ++ [Page.to_dict page]) (st_world st)))
                  (<[key := nd]> (st_dict st))
                  (S (st_allocated st))).
Proof.
  intros Hpage. destruct (record_of_ok layout page Hpage) as (d & f & -> & Hf & Hkey & _).
  cbn [record_of] in Hpage.
  eexists _, _. split; [exact Hkey |]. split; [reflexivity |].
  unfold expand_one, process_layout. rewrite Hpage. cbn zeta. by rewrite Hf.
Qed.

(** One iteration on a layout whose record cannot be built. *)
Lemma expand_one_raise (layout : json) (e : exn) (st : state) :
  record_of urljoin ex parent_url is_private layout = Raise e ->
  expand_one urljoin ex parent_url is_private layout st = (Raise e, st).
Proof.
  intros Hpage. unfold expand_one, process_layout. destruct st as [w dict n].
  cbn [st_world st_dict st_allocated].
  destruct layout as [| | | | | | d]; cbn [record_of] in Hpage;
    try (by injection Hpage as <-).
  by rewrite Hpage.
Qed.

(** The loop on layouts whose records can all be built. *)
Lemma expand_loop_ok (layouts : list json) (pages : list Page.t) (st : state) :
  Forall2 (fun layout page =>
             record_of urljoin ex parent_url is_private layout = Ok page)
          layouts pages ->
  exists calls st',
    expand_loop urljoin ex parent_url is_private layouts st = (Ok calls, st')
    /\ length calls = length layouts
    /\ st_allocated st' = (st_allocated st + length layouts)%nat
    /\ all_pages (st_world st')
       = all_pages (st_world st) ++ (Page.to_dict <$> pages)
    /\ layouts_processed (stats (st_world st'))
       = layouts_processed (stats (st_world st)) + Z.of_nat (length layouts)
    /\ (forall i c,
          calls !! i = Some c ->
          call_ref c = (st_allocated st + i)%nat
          /\ call_private c = is_private
          /\ exists layout key nd,
               layouts !! i = Some layout
               /\ child_key layout = Some key
               /\ child_node layout (st_allocated st + i) = Some nd
               /\ call_id c = node_id nd
               /\ call_path c = Page.full_path parent_url key).
Proof.
  intros Hall. revert st.
  induction Hall as [| layout page layouts pages Hpage _ IH]; intros st.
  - exists [], st. cbn. rewrite Nat.add_0_r, app_nil_r.
    repeat split; try done; try lia.
  - destruct (expand_one_ok layout page st Hpage) as (key & nd & Hkey & Hnd & Hone).
    cbn [expand_loop]. rewrite Hone.
    set (st1 := mkState _ _ _).
    destruct (IH st1) as (calls & st' & Hloop & Hlen & Halloc & Hpages & Hcount & Hcalls).
    rewrite Hloop. eexists _, st'. split; [reflexivity |].
    subst st1. cbn [st_world st_dict st_allocated] in *.
    split; [cbn; lia |]. split; [cbn [length]; lia |].
    split; [rewrite Hpages; cbn; by rewrite <- app_assoc |].
    split; [rewrite Hcount; cbn [length]; cbn; lia |].
    intros [| i] c Hc.
    + injection Hc as <-. cbn [call_ref call_private call_id call_path].
      rewrite Nat.add_0_r. split; [done |]. split; [done |].
      exists layout, key, nd. by repeat split.
    + cbn [lookup list_lookup] in Hc. change (calls !! i = Some c) in Hc.
      destruct (Hcalls i c Hc) as (Href & Hpriv & layout' & key' & nd' & Hl & Hk & Hn & Hid & Hpath).
      split; [lia |]. split; [done |].
      exists layout', key', nd'. repeat split; try done.
      by replace (st_allocated st + S i)%nat with (S (st_allocated st) + i)%nat by lia.
Qed.

(** What the loop leaves in the dict it writes: the entry of a key is
    the node of the last layout with that key, and the entry it had when
    no layout has the key. *)
Lemma expand_loop_dict (layouts : list json) (pages : list Page.t) (st : state) :
  Forall2 (fun layout page =>
             record_of urljoin ex parent_url is_private layout = Ok page)
          layouts pages ->
  forall key,
    (st_dict (snd (expand_loop urljoin ex parent_url is_private layouts st)) !! key
     = st_dict st !! key
     /\ forall layout, layout ∈ layouts -> child_key layout <> Some key)
    \/ exists i layout,
         layouts !! i = Some layout
         /\ child_key layout = Some key
         /\ st_dict (snd (expand_loop urljoin ex parent_url is_private layouts st)) !! key
            = child_node layout (st_allocated st + i)
         /\ forall j later, (i < j)%nat -> layouts !! j = Some later ->
                            child_key later <> Some key.
Proof.
  intros Hall. revert st.
  induction Hall as [| layout page layouts pages Hpage Hrest IH]; intros st key.
  - left. split; [done |]. intros layout Hin. by apply elem_of_nil in Hin.
  - destruct (expand_one_ok layout page st Hpage) as (key0 & nd0 & Hkey0 & Hnd0 & Hone).
    cbn [expand_loop]. rewrite Hone. set (st1 := mkState _ _ _).
    destruct (expand_loop_ok layouts pages st1 Hrest) as (calls & st' & Hloop & _).
    specialize (IH st1 key). rewrite Hloop in IH |- *. cbn [snd] in IH |- *.
    subst st1. cbn [st_dict st_allocated] in IH.
    destruct IH as [[Hold Hnone] | (i & l & Hl & Hk & Hn & Hlater)].
    + destruct (decide (key = key0)) as [-> | Hne].
      * right. exists 0%nat, layout. rewrite Nat.add_0_r.
        split; [done |]. split; [done |].
        split; [by rewrite Hold, lookup_insert_eq |].
        intros [| j] later Hj Hlj; [lia |].
        apply Hnone. apply list_elem_of_lookup. by exists j.
      * left. rewrite Hold, lookup_insert_ne by done. split; [done |].
        intros l Hin. apply elem_of_cons in Hin as [-> | Hin]; [| by apply Hnone].
        rewrite Hkey0. by intros [= ->].
    + right. exists (S i), l.
      replace (st_allocated st + S i)%nat with (S (st_allocated st) + i)%nat by lia.
      split; [done |]. split; [done |]. split; [done |].
      intros [| j] later Hj Hlj; [lia |].
      apply (Hlater j later); [lia | done].
Qed.

(** The loop over two lists in a row. *)
Lemma expand_loop_app (l1 l2 : list json) (st : state) :
  expand_loop urljoin ex parent_url is_private (l1 ++ l2) st
  = match expand_loop urljoin ex parent_url is_private l1 st with
    | (Ok c1, st1) =>
        match expand_loop urljoin ex parent_url is_private l2 st1 with
        | (Ok c2, st2) => (Ok (c1 ++ c2), st2)
        | (Raise e, st2) => (Raise e, st2)
        end
    | (Raise e, st1) => (Raise e, st1)
    end.
Proof.
  revert st. induction l1 as [| layout l1 IH]; intros st; cbn [app expand_loop].
  - by destruct (expand_loop _ _ _ _ l2 st) as [[c2 | e] st2].
  - destruct (expand_one _ _ _ _ layout st) as [[c | e] st1]; [| done].
    rewrite IH. destruct (expand_loop _ _ _ _ l1 st1) as [[c1 | e] st2]; [| done].
    by destruct (expand_loop _ _ _ _ l2 st2) as [[c2 | e] st3].
Qed.

End ExpansionCoverage.

Section ExpansionCoverageTheorems.
Import Py Sys Extractor Expansion Examples.
Local Open Scope list_scope.

Lemma expand_list (urljoin : string -> string -> result string) (ex : Extractor.t)
      (parent_url : string) (is_private : bool) (layouts : list json) (st : state) :
  expand urljoin ex parent_url is_private (JList layouts) st
  = expand_loop urljoin ex parent_url is_private layouts st.
Proof. unfold expand. by destruct layouts. Qed.

(** X14.  Expanding a list of layouts whose records can all be built: one
    record per layout is appended to the records, in the order of the
    list, and counted; one call is created per layout, in the same order,
    each with the layout's id (0 when absent), the privacy flag, a dict
    of its own, and as parent path the path of the expanded layout
    followed by the friendly URL without its leading slashes. *)
Theorem expand_records_and_calls
        (urljoin : string -> string -> result string) (ex : Extractor.t)
        (parent_url : string) (is_private : bool)
        (layouts : list json) (pages : list Page.t) (st : state) :
  Forall2 (fun layout page =>
             record_of urljoin ex parent_url is_private layout = Ok page)
          layouts pages ->
  exists calls st',
    expand urljoin ex parent_url is_private (JList layouts) st = (Ok calls, st')
    /\ length calls = length layouts
    /\ all_pages (st_world st')
       = all_pages (st_world st) ++ (Page.to_dict <$> pages)
    /\ layouts_processed (stats (st_world st'))
       = layouts_processed (stats (st_world st)) + Z.of_nat (length layouts)
    /\ st_allocated st' = (st_allocated st + length layouts)%nat
    /\ forall i c,
         calls !! i = Some c ->
         call_ref c = (st_allocated st + i)%nat
         /\ call_private c = is_private
         /\ exists d f,
              layouts !! i = Some (JDict d)
              /\ dict_get d "friendlyURL" (JStr "") = JStr f
              /\ call_id c = dict_get d "layoutId" (JInt 0)
              /\ call_path c = Page.full_path parent_url (lstrip_slashes f).
Proof.
  intros Hall. rewrite expand_list.
  destruct (expand_loop_ok urljoin ex parent_url is_private layouts pages st Hall)
    as (calls & st' & Hloop & Hlen & Halloc & Hpages & Hcount & Hcalls).
  exists calls, st'. do 5 (split; [done |]).
  intros i c Hc.
  destruct (Hcalls i c Hc) as (Href & Hpriv & layout & key & nd & Hl & Hk & Hn & Hid & Hpath).
  split; [done |]. split; [done |].
  destruct layout as [| | | | | | d]; try done.
  unfold child_key in Hk. cbn [child_node] in Hn. injection Hn as <-.
  destruct (dict_get d "friendlyURL" (JStr "")) as [| | | | f | |] eqn:Hf; try done.
  injection Hk as <-. by exists d, f.
Qed.

Lemma expand_records_and_calls_witness :
  exists calls st',
    expand py_urljoin site "docs" false (JList [layout_home; layout_about])
           empty_expansion
    = (Ok calls, st')
    /\ length calls = length [layout_home; layout_about]
    /\ all_pages (st_world st')
       = all_pages (st_world empty_expansion)
         ++ (Page.to_dict <$> [record_home; record_about])
    /\ layouts_processed (stats (st_world st'))
       = layouts_processed (stats (st_world empty_expansion))
         + Z.of_nat (length [layout_home; layout_about])
    /\ st_allocated st'
       = (st_allocated empty_expansion + length [layout_home; layout_about])%nat
    /\ forall i c,
         calls !! i = Some c ->
         call_ref c = (st_allocated empty_expansion + i)%nat
         /\ call_private c = false
         /\ exists d f,
              [layout_home; layout_about] !! i = Some (JDict d)
              /\ dict_get d "friendlyURL" (JStr "") = JStr f
              /\ call_id c = dict_get d "layoutId" (JInt 0)
              /\ call_path c = Page.full_path "docs" (lstrip_slashes f).
Proof.
  apply (expand_records_and_calls py_urljoin site "docs" false
                                  [layout_home; layout_about]
                                  [record_home; record_about] empty_expansion).
  repeat constructor.
Defined.

(** X15.  The loop is not undone when it fails.  When the record of a layout
    cannot be built, the expansion raises that layout's exception: the
    records of the layouts before it stay appended and counted, the
    layouts after it are not looked at, and no call is returned, so the
    children of the layouts already recorded are never fetched. *)
Theorem expand_stops_at_first_failure
        (urljoin : string -> string -> result string) (ex : Extractor.t)
        (parent_url : string) (is_private : bool)
        (good rest : list json) (bad : json) (pages : list Page.t)
        (e : exn) (st : state) :
  Forall2 (fun layout page =>
             record_of urljoin ex parent_url is_private layout = Ok page)
          good pages ->
  record_of urljoin ex parent_url is_private bad = Raise e ->
  let r := expand urljoin ex parent_url is_private (JList (good ++ bad :: rest)) st in
  fst r = Raise e
  /\ all_pages (st_world (snd r))
     = all_pages (st_world st) ++ (Page.to_dict <$> pages)
  /\ layouts_processed (stats (st_world (snd r)))
     = layouts_processed (stats (st_world st)) + Z.of_nat (length good)
  /\ st_allocated (snd r) = (st_allocated st + length good)%nat.
Proof.
  intros Hgood Hbad. cbn zeta. rewrite expand_list, expand_loop_app.
  destruct (expand_loop_ok urljoin ex parent_url is_private good pages st Hgood)
    as (calls & st1 & Hloop & _ & Halloc & Hpages & Hcount & _).
  rewrite Hloop. cbn [expand_loop].
  rewrite (expand_one_raise urljoin ex parent_url is_private bad e st1 Hbad).
  by cbn [fst snd].
Qed.

Lemma expand_stops_at_first_failure_witness :
  let r := expand py_urljoin site "docs" false
                  (JList ([layout_home] ++ JStr "exception" :: [layout_about]))
                  empty_expansion in
  fst r = Raise AttributeError
  /\ all_pages (st_world (snd r))
     = all_pages (st_world empty_expansion) ++ (Page.to_dict <$> [record_home])
  /\ layouts_processed (stats (st_world (snd r)))
     = layouts_processed (stats (st_world empty_expansion))
       + Z.of_nat (length [layout_home])
  /\ st_allocated (snd r)
     = (st_allocated empty_expansion + length [layout_home])%nat.
Proof.
  apply (expand_stops_at_first_failure py_urljoin site "docs" false
                                       [layout_home] [layout_about]
                                       (JStr "exception") [record_home]
                                       AttributeError empty_expansion).
  - repeat constructor.
  - reflexivity.
Defined.

(** X16.  The tree after an expansion.  A key that no layout has keeps its
    entry.  The entry of a key that some layout has is the node of the
    last layout with that key, with that layout's id and title and the
    dict handed to that layout's call.  So when two layouts of the list
    share a key, the dict handed to the call of the earlier one is in no
    entry of the tree any more: what that call enters there is out of the
    site tree. *)
Theorem expand_tree_last_sibling_wins
        (urljoin : string -> string -> result string) (ex : Extractor.t)
        (parent_url : string) (is_private : bool)
        (layouts : list json) (pages : list Page.t) (st : state) :
  Forall2 (fun layout page =>
             record_of urljoin ex parent_url is_private layout = Ok page)
          layouts pages ->
  (forall key nd, st_dict st !! key = Some nd ->
                  (node_children nd < st_allocated st)%nat) ->
  let st' := snd (expand urljoin ex parent_url is_private (JList layouts) st) in
  (forall key,
     (forall layout, layout ∈ layouts -> child_key layout <> Some key) ->
     st_dict st' !! key = st_dict st !! key)
  /\ (forall i layout key,
        layouts !! i = Some layout ->
        child_key layout = Some key ->
        (forall j later, (i < j)%nat -> layouts !! j = Some later ->
                         child_key later <> Some key) ->
        st_dict st' !! key = child_node layout (st_allocated st + i))
  /\ (forall i j layout later key,
        (i < j)%nat ->
        layouts !! i = Some layout ->
        layouts !! j = Some later ->
        child_key layout = Some key ->
        child_key later = Some key ->
        forall key' nd,
          st_dict st' !! key' = Some nd ->
          node_children nd <> (st_allocated st + i)%nat).
Proof.
  intros Hall Hfresh. cbn zeta. rewrite expand_list.
  pose proof (expand_loop_dict urljoin ex parent_url is_private layouts pages st Hall)
    as Hdict.
  split; [| split].
  - intros key Hnone.
    destruct (Hdict key) as [[Hold _] | (i & l & Hl & Hk & _)]; [done |].
    exfalso. apply (Hnone l); [| done]. apply list_elem_of_lookup. by exists i.
  - intros i layout key Hl Hk Hlast.
    destruct (Hdict key) as [[_ Hnone] | (i' & l' & Hl' & Hk' & Hentry & Hlast')].
    { exfalso. apply (Hnone layout); [| done]. apply list_elem_of_lookup. by exists i. }
    destruct (Nat.lt_trichotomy i i') as [Hlt | [<- | Hgt]].
    + exfalso. by apply (Hlast i' l').
    + rewrite Hl in Hl'. by injection Hl' as <-.
    + exfalso. by apply (Hlast' i layout).
  - intros i j layout later key Hij Hl Hlater Hk Hklater key' nd Hnd Hchildren.
    destruct (Hdict key') as [[Hold _] | (i' & l' & Hl' & Hk' & Hentry & Hlast')].
    + rewrite Hold in Hnd. apply Hfresh in Hnd. lia.
    + rewrite Hentry in Hnd.
      destruct l' as [| | | | | | d]; try done. cbn [child_node] in Hnd.
      injection Hnd as <-. cbn [node_children] in Hchildren.
      assert (i' = i) as -> by lia.
      rewrite Hl in Hl'. injection Hl' as ->.
      rewrite Hk in Hk'. injection Hk' as ->.
      by apply (Hlast' j later).
Qed.

Lemma expand_tree_last_sibling_wins_witness :
  let st' := snd (expand py_urljoin site "docs" false
                         (JList [layout_home; layout_about; layout_home_again])
                         empty_expansion) in
  (forall key,
     (forall layout, layout ∈ [layout_home; layout_about; layout_home_again] ->
                     child_key layout <> Some key) ->
     st_dict st' !! key = st_dict empty_expansion !! key)
  /\ (forall i layout key,
        [layout_home; layout_about; layout_home_again] !! i = Some layout ->
        child_key layout = Some key ->
        (forall j later, (i < j)%nat ->
                         [layout_home; layout_about; layout_home_again] !! j
                         = Some later ->
                         child_key later <> Some key) ->
        st_dict st' !! key = child_node layout (st_allocated empty_expansion + i))
  /\ (forall i j layout later key,
        (i < j)%nat ->
        [layout_home; layout_about; layout_home_again] !! i = Some layout ->
        [layout_home; layout_about; layout_home_again] !! j = Some later ->
        child_key layout = Some key ->
        child_key later = Some key ->
        forall key' nd,
          st_dict st' !! key' = Some nd ->
          node_children nd <> (st_allocated empty_expansion + i)%nat).
Proof.
  apply (expand_tree_last_sibling_wins py_urljoin site "docs" false
           [layout_home; layout_about; layout_home_again]
           [record_home; record_about; record_home_again] empty_expansion).
  - repeat constructor.
  - intros key nd Hnd. unfold empty_expansion in Hnd. cbn [st_dict] in Hnd.
    by rewrite lookup_empty in Hnd.
Defined.

Lemma lstrip_length (p : ascii -> bool) (s : string) :
  (String.length (Urllib.lstrip p s) <= String.length s)%nat.
Proof.
  induction s as [| c s IH]; [done |]. cbn [Urllib.lstrip].
  destruct (p c); cbn [String.length]; lia.
Qed.

Lemma startswith_slash_eqb (c : ascii) (r : string) :
  startswith_slash (String c r) = Ascii.eqb c "/".
Proof. by destruct c as [[] [] [] [] [] [] [] []]. Qed.

Lemma starts_with_two_slashes_eqb (c c' : ascii) (r : string) :
  Urllib.starts_with_two_slashes (String c (String c' r))
  = Ascii.eqb c "/" && Ascii.eqb c' "/".
Proof.
  destruct (Ascii.eqb_spec c "/") as [-> | Hc].
  - by destruct c' as [[] [] [] [] [] [] [] []].
  - by destruct c as [[] [] [] [] [] [] [] []].
Qed.

(** Removing one leading slash and removing all of them agree unless the
    text starts with two. *)
Lemma own_segment_lstrip (f : string) :
  Page.own_segment f = lstrip_slashes f
  <-> Urllib.starts_with_two_slashes f = false.
Proof.
  unfold Page.own_segment, lstrip_slashes.
  destruct f as [| c r]; [done |].
  rewrite startswith_slash_eqb. cbn [Urllib.lstrip drop_first].
  destruct r as [| c' r'].
  - assert (Urllib.starts_with_two_slashes (String c "") = false) as ->
      by (by destruct c as [[] [] [] [] [] [] [] []]).
    split; [done |]. intros _. by destruct (Ascii.eqb c "/").
  - rewrite starts_with_two_slashes_eqb.
    destruct (Ascii.eqb c "/"); [| done]. cbn [andb Urllib.lstrip].
    destruct (Ascii.eqb c' "/"); [| done].
    split; [| done]. intros Heq. exfalso.
    pose proof (lstrip_length (fun c => Ascii.eqb c "/") r') as Hlen.
    rewrite <- Heq in Hlen. cbn [String.length] in Hlen. lia.
Qed.

Lemma full_path_inj (parent_url a b : string) :
  Page.full_path parent_url a = Page.full_path parent_url b -> a = b.
Proof.
  unfold Page.full_path. destruct (Urllib.is_empty parent_url); [done |].
  intros Heq. apply (inj (String.append parent_url)) in Heq.
  by apply (inj (String.append "/")) in Heq.
Qed.

(** X17.  The path handed to the children of a layout and the path recorded
    for the layout.  [from_json] removes one leading slash of the
    friendly URL and the expansion removes all of them: the call for the
    children gets the recorded path of its parent exactly when the
    friendly URL does not start with two slashes. *)
Theorem child_path_and_record_path
        (urljoin : string -> string -> result string) (ex : Extractor.t)
        (parent_url : string) (is_private : bool)
        (layout : json) (page : Page.t) (st : state) :
  record_of urljoin ex parent_url is_private layout = Ok page ->
  exists d f c st',
    layout = JDict d
    /\ dict_get d "friendlyURL" (JStr "") = JStr f
    /\ expand_one urljoin ex parent_url is_private layout st = (Ok c, st')
    /\ Page.path page = Page.full_path parent_url (Page.own_segment f)
    /\ call_path c = Page.full_path parent_url (lstrip_slashes f)
    /\ (call_path c = Page.path page
        <-> Urllib.starts_with_two_slashes f = false).
Proof.
  intros Hpage.
  destruct (record_of_ok urljoin ex parent_url is_private layout page Hpage)
    as (d & f & -> & Hf & Hkey & Hpath).
  destruct (expand_one_ok urljoin ex parent_url is_private (JDict d) page st Hpage)
    as (key & nd & Hkey' & _ & Hone).
  rewrite Hkey in Hkey'. injection Hkey' as <-.
  eexists d, f, _, _. split; [done |]. split; [done |]. split; [exact Hone |].
  split; [done |]. split; [done |]. cbn [call_path]. rewrite Hpath.
  rewrite <- own_segment_lstrip. split; [| by intros ->].
  intros Heq. symmetry. by eapply full_path_inj.
Qed.

Lemma child_path_and_record_path_witness :
  exists d f c st',
    layout_home = JDict d
    /\ dict_get d "friendlyURL" (JStr "") = JStr f
    /\ expand_one py_urljoin site "docs" false layout_home empty_expansion
       = (Ok c, st')
    /\ Page.path record_home = Page.full_path "docs" (Page.own_segment f)
    /\ call_path c = Page.full_path "docs" (lstrip_slashes f)
    /\ (call_path c = Page.path record_home
        <-> Urllib.starts_with_two_slashes f = false).
Proof.
  apply (child_path_and_record_path py_urljoin site "docs" false layout_home
                                    record_home empty_expansion).
  reflexivity.
Defined.

(** X18.  Answers that are not a list of layouts.  A falsy answer ([None],
    [False], [0], [""], [[]], [{}]) ends the expansion with no call and
    no change.  A JSON object with at least one key, or a string that is
    not empty, makes it raise [AttributeError] (the loop takes a key, or
    a character, for a layout), and a number or [True] makes it raise
    [TypeError]; nothing has changed then.  A call for a key that is
    already visited ends with no call and no change. *)
Theorem expand_without_layouts
        (urljoin : string -> string -> result string) (ex : Extractor.t)
        (parent_url : string) (is_private : bool) (st : state) :
  (forall v, truthy v = false ->
             expand urljoin ex parent_url is_private v st = (Ok [], st))
  /\ (forall d, d <> ∅ ->
                expand urljoin ex parent_url is_private (JDict d) st
                = (Raise AttributeError, st))
  /\ (forall s, s <> EmptyString ->
                expand urljoin ex parent_url is_private (JStr s) st
                = (Raise AttributeError, st))
  /\ (forall v, truthy v = true ->
                match v with
                | JBool _ | JInt _ | JFloat _ => True
                | _ => False
                end ->
                expand urljoin ex parent_url is_private v st = (Raise TypeError, st))
  /\ (forall net parent_layout_id,
        layout_key parent_layout_id is_private ∈ processed_layouts (st_world st) ->
        fetch_child_layouts urljoin ex parent_url is_private net parent_layout_id st
        = (Ok [], st)).
Proof.
  split; [| split; [| split; [| split]]].
  - intros v Hv. unfold expand. by rewrite Hv.
  - intros d Hd. unfold expand. cbn [truthy elements].
    rewrite bool_decide_eq_false_2 by done. cbn [negb].
    destruct (map_to_list d) as [| [k x] l] eqn:Hl.
    { by apply map_to_list_empty_iff in Hl. }
    cbn [fmap list_fmap fst expand_loop].
    by rewrite (expand_one_raise urljoin ex parent_url is_private (JStr k)
                                 AttributeError st).
  - intros s Hs. unfold expand. destruct s as [| c s]; [done |].
    cbn [truthy Urllib.is_empty negb elements characters fmap list_fmap expand_loop].
    by rewrite (expand_one_raise urljoin ex parent_url is_private (JStr (String c ""))
                                 AttributeError st).
  - intros v Hv Hkind. unfold expand. rewrite Hv. cbn [negb].
    by destruct v.
  - intros net p Hin. unfold fetch_child_layouts, get_layouts.
    destruct (decide _); [| done]. unfold expand. cbn [truthy negb].
    by destruct st.
Qed.

End ExpansionCoverageTheorems.

(** ** Saving the state and resuming *)

Section ResumeCoverage.
Import Py Sys Extractor Helpers Resume Examples.




(** X20.  When nothing is restored.  [initialize_session] only opens the
    session when the extractor is not asked to resume, when there is no
    state file, when the file cannot be read as JSON, and when it holds a
    falsy document (an empty object among them).  When the file holds a
    document that is truthy and not an object, the records, the visited
    set and the site tree are set to those of a new run and the
    statistics are kept. *)
Theorem initialize_session_without_state (state_file : string)
        (fs : filesystem) (w : World) :
  initialize_session false state_file fs w = Some (open_session w)
  /\ (files fs !! state_file = None ->
      initialize_session true state_file fs w = Some (open_session w))
  /\ (files fs !! state_file = Some Unreadable ->
      initialize_session true state_file fs w = Some (open_session w))
  /\ (forall state,
        files fs !! state_file = Some (Document state) ->
        Expansion.truthy state = false ->
        initialize_session true state_file fs w = Some (open_session w))
  /\ (forall state,
        files fs !! state_file = Some (Document state) ->
        Expansion.truthy state = true ->
        (forall d, state <> JDict d) ->
        initialize_session true state_file fs w
        = Some (start_over (open_session w))).
Proof.
  unfold initialize_session, load_state.
  split; [done |]. split; [| split; [| split]].
  - intros ->. by rewrite bool_decide_eq_false_2 by by intros [? ?].
  - intros ->. by rewrite bool_decide_eq_true_2 by eauto.
  - intros state -> Hfalsy. rewrite bool_decide_eq_true_2 by eauto.
    cbn [andb]. by rewrite Hfalsy.
  - intros state -> Htruthy Hother. rewrite bool_decide_eq_true_2 by eauto.
    cbn [andb]. rewrite Htruthy. cbn [negb].
    destruct state as [| | | | | | d]; try done. by destruct (Hother d).
Qed.

End ResumeCoverage.

(** ** The requests of a run *)

Section BudgetCoverage.
Import Py Sys Session Extractor Examples.
Local Open Scope list_scope.
#[local] Set Warnings "-clear-no-such-hyp".

Variable net : nat -> event -> failure + response.
Variable ex : Extractor.t.

Lemma one_attempt_sent (method url : string) (params : json) (max_retries : Z)
      (attempt : nat) (w : World) :
  sent (snd (one_attempt net method url params max_retries attempt w)) = S (sent w).
Proof.
  rewrite one_attempt_cases. cbn zeta.
  destruct (classify _) as [data | status body | msg | msg];
    try destruct (Z.of_nat attempt =? max_retries - 1); done.
Qed.

Lemma store_sent (cm : Cache.CacheManager) (key : string) (data : json) (w : World) :
  sent (Cache.store cm key data w) = sent w.
Proof. unfold Cache.store. by destruct (0 <? Cache.ttl cm). Qed.

Lemma lookup_sent (cm : Cache.CacheManager) (key : string) (w : World) :
  sent (snd (Cache.lookup cm key w)) = sent w.
Proof.
  unfold Cache.lookup. destruct (0 <? _); [| done].
  destruct (cache_db w !! _); [| done]. by destruct (Cache.is_valid _ _ _).
Qed.

Lemma attempts_left_app (ts1 ts2 : list task) :
  attempts_left (ts1 ++ ts2) = (attempts_left ts1 + attempts_left ts2)%nat.
Proof.
  induction ts1 as [| tk ts1 IH]; [done |]. cbn [app attempts_left foldr] in *.
  fold (attempts_left (ts1 ++ ts2)) (attempts_left ts1).
  destruct tk; lia.
Qed.

Lemma attempts_left_insert (ts : list task) (i : nat) (tk tk' : task) :
  ts !! i = Some tk ->
  (attempts_left (<[i := tk']> ts) + attempts_left [tk]
   = attempts_left ts + attempts_left [tk'])%nat.
Proof.
  revert i. induction ts as [| t ts IH]; intros [| i] Hi; try done.
  - injection Hi as ->.
    change (<[0%nat := tk']> (tk :: ts)) with ([tk'] ++ ts).
    change (tk :: ts) with ([tk] ++ ts).
    rewrite !attempts_left_app. lia.
  - change (<[S i := tk']> (t :: ts)) with ([t] ++ <[i := tk']> ts).
    change (t :: ts) with ([t] ++ ts). rewrite !attempts_left_app.
    specialize (IH i Hi). lia.
Qed.

(** A resumption sends one request at most, out of the three that the
    fetch it belongs to was given when it was issued. *)
Lemma resume_budget (tk tk' : task) (w w' : World) :
  resume net ex tk w = (tk', w') ->
  (sent w <= sent w'
   /\ length (fetched w) <= length (fetched w')
   /\ sent w' + attempts_left [tk'] + 3 * length (fetched w)
      <= sent w + attempts_left [tk] + 3 * length (fetched w'))%nat.
Proof.
  assert (Hfinish : forall p b data w0 tk0 w1,
             finish ex p b data w0 = (tk0, w1) ->
             sent w1 = sent w0 /\ fetched w1 = fetched w0
             /\ attempts_left [tk0] = 0%nat).
  { intros p b data w0 tk0 w1 [= <- <-].
    destruct (same_crawl_store (cache_manager ex) (cache_key ex p b) data w0)
      as (_ & Hf & _).
    change (sent (set_stats ?f ?x)) with (sent x).
    change (fetched (set_stats ?f ?x)) with (fetched x).
    by rewrite store_sent, Hf. }
  destruct tk as [p b | p b [| attempt rest] | r]; cbn [resume].
  - unfold start. destruct (decide _) as [Hin | Hnew].
    { intros [= <- <-]. cbn [attempts_left foldr length]. lia. }
    set (w1 := set_processed_layouts _ w).
    pose proof (same_crawl_lookup (cache_manager ex) (cache_key ex p b) w1)
      as (_ & Hf & _).
    pose proof (lookup_sent (cache_manager ex) (cache_key ex p b) w1) as Hs.
    destruct (Cache.lookup _ _ w1) as [[content |] w2]; cbn [snd] in Hf, Hs.
    + intros [= <- <-].
      change (sent (set_stats ?f ?x)) with (sent x).
      change (fetched (set_stats ?f ?x)) with (fetched x).
      rewrite Hs, Hf. subst w1.
      change (sent (set_processed_layouts ?f ?x)) with (sent x).
      change (fetched (set_processed_layouts ?f ?x)) with (fetched x).
      cbn [attempts_left foldr]. lia.
    + cbn [session_open emit].
      destruct (negb _); intros [= <- <-];
        change (sent (emit _ (set_stats ?f ?x))) with (sent x);
        rewrite fetched_emit;
        change (fetched (set_stats ?f ?x)) with (fetched x);
        rewrite Hs, Hf, length_app; subst w1;
        change (sent (set_processed_layouts ?f ?x)) with (sent x);
        change (fetched (set_processed_layouts ?f ?x)) with (fetched x);
        change (range 3) with [0%nat; 1%nat; 2%nat];
        change (omap fetch_of [FetchIssued p b]) with [(p, b)];
        cbn [attempts_left foldr length]; lia.
  - intros Hres. apply Hfinish in Hres as (-> & -> & ->).
    cbn [attempts_left foldr length]. lia.
  - pose proof (one_attempt_sent "POST" (endpoint ex) (params ex p b) 3 attempt w)
      as Hs.
    pose proof (same_crawl_one_attempt net "POST" (endpoint ex) (params ex p b) 3
                                       attempt w) as (_ & Hf & _).
    destruct (one_attempt _ _ _ _ _ _ w) as [[| data] w1]; cbn [snd] in Hs, Hf.
    + intros [= <- <-]. rewrite Hs, Hf. cbn [attempts_left foldr length]. lia.
    + intros Hres. apply Hfinish in Hres as (-> & -> & ->).
      rewrite Hs, Hf. cbn [attempts_left foldr length]. lia.
  - intros [= <- <-]. cbn [attempts_left foldr length]. lia.
Qed.

End BudgetCoverage.

Section BudgetCoverageTheorems.
Import Py Sys Session Extractor Examples.
Local Open Scope list_scope.

(** X12.  Three requests per fetch, at most.  Along every schedule of calls and
    resumptions of [get_layouts] coroutines, the requests sent and the
    requests that the calls in the transport may still send never exceed
    three for each fetch issued: a run that starts with no call in the
    transport and issues [n] fetches sends at most [3 n] requests,
    whatever the server answers. *)
Theorem schedule_request_budget
        (net : nat -> event -> failure + response) (ex : Extractor.t)
        (acts : list action) (s : system) :
  let s' := schedule net ex acts s in
  (sent (world s) <= sent (world s')
   /\ length (fetched (world s)) <= length (fetched (world s'))
   /\ sent (world s') + attempts_left (tasks s') + 3 * length (fetched (world s))
      <= sent (world s) + attempts_left (tasks s)
         + 3 * length (fetched (world s')))%nat.
Proof.
  cbn zeta. revert s. induction acts as [| a acts IH]; intros s.
  { cbn [schedule fold_left]. lia. }
  cbn [schedule fold_left].
  change (fold_left _ acts ?x) with (schedule net ex acts x).
  specialize (IH (perform net ex a s)).
  assert (Hone :
            (sent (world s) <= sent (world (perform net ex a s))
             /\ length (fetched (world s))
                <= length (fetched (world (perform net ex a s)))
             /\ sent (world (perform net ex a s))
                + attempts_left (tasks (perform net ex a s))
                + 3 * length (fetched (world s))
                <= sent (world s) + attempts_left (tasks s)
                   + 3 * length (fetched (world (perform net ex a s))))%nat).
  { destruct s as [w ts]. destruct a as [p b | i]; cbn [perform world tasks].
    - rewrite attempts_left_app. cbn [attempts_left foldr]. lia.
    - destruct (ts !! i) as [tk |] eqn:Hi; [| cbn [world tasks]; lia].
      destruct (resume net ex tk w) as [tk' w'] eqn:Hres. cbn [world tasks].
      pose proof (resume_budget net ex tk tk' w w' Hres) as (H1 & H2 & H3).
      pose proof (attempts_left_insert ts i tk tk' Hi). lia. }
  lia.
Qed.

End BudgetCoverageTheorems.

(** ** A fetch, from the call to the cache *)

Section FetchCoverage.
Import Py Sys Session Extractor Examples.
Local Open Scope list_scope.

Variable net : nat -> event -> failure + response.




End FetchCoverage.

Section FetchCoverageTheorems.
Import Py Sys Session Extractor Examples.
Local Open Scope list_scope.



End FetchCoverageTheorems.

(** ** The CSV export *)

Section CsvCoverage.
Import Py CsvExport Examples.
Local Open Scope list_scope.







Section Sorting.

Context {A : Type}.
Variable key : A -> bool * string.







End Sorting.








Lemma sort_keys_raises (pages : list json) (page : json) (e : exn) :
  page ∈ pages -> sort_key page = KeyRaises e ->
  exists e', sort_keys pages = Raises e'.
Proof.
  intros Hin Hpage. induction pages as [| x pages IH]; [by apply elem_of_nil in Hin |].
  cbn [sort_keys]. apply elem_of_cons in Hin as [<- | Hin].
  - rewrite Hpage. eauto.
  - destruct (IH Hin) as [e' ->]. destruct (sort_key x); eauto.
Qed.

Lemma write_rows_stops (before rest : list json) (bad : json)
      (rows written : list row) :
  mapM row_of before = Some rows -> row_of bad = None ->
  write_rows (before ++ bad :: rest) written = (false, written ++ rows).
Proof.
  revert rows written. induction before as [| page before IH]; intros rows written.
  - cbn. intros [= <-] ->. by rewrite app_nil_r.
  - cbn [app write_rows]. cbn. destruct (row_of page) as [r |]; cbn; [| done].
    destruct (mapM row_of before) as [rs |] eqn:Hrs; cbn; [| done].
    intros [= <-] Hbad. rewrite (IH rs (written ++ [r]) eq_refl Hbad).
    by rewrite <- app_assoc.
Qed.

End CsvCoverage.

Section CsvCoverageTheorems.
Import Py CsvExport Examples.
Local Open Scope list_scope.



(** X25.  When the CSV export fails.  A page that is not a dict, or that has no
    ['private'] or no ['path'], makes the export answer [False] before
    the file is opened: the directory is as it was.  So does a file that
    cannot be opened.  A page that lacks one of the other cells makes it
    answer [False] while it writes: the file is left with the header and
    the rows of the pages sorted before that page. *)
Theorem csv_export_failures (pages : list json) (output_file : string)
        (fs : filesystem) :
  (forall page e,
     page ∈ pages -> sort_key page = KeyRaises e ->
     export pages output_file fs = Some (false, fs))
  /\ (sort_keys pages = Comparable -> output_file ∈ locked fs ->
      export pages output_file fs = Some (false, fs))
  /\ (forall before bad rest rows,
        sort_keys pages = Comparable ->
        output_file ∉ locked fs ->
        sort_by typed_key pages = before ++ bad :: rest ->
        mapM row_of before = Some rows ->
        row_of bad = None ->
        exists fs',
          export pages output_file fs = Some (false, fs')
          /\ files fs' !! output_file = Some (header :: rows)).
Proof.
  split; [| split].
  - intros page e Hin Hpage. unfold export.
    by destruct (sort_keys_raises pages page e Hin Hpage) as [e' ->].
  - intros Hkeys Hlocked. unfold export. rewrite Hkeys.
    by destruct (decide _).
  - intros before bad rest rows Hkeys Hfree Hsorted Hrows Hbad.
    unfold export. rewrite Hkeys. destruct (decide _) as [? | _]; [done |].
    rewrite Hsorted, (write_rows_stops before rest bad rows [header] Hrows Hbad).
    eexists. split; [reflexivity |]. cbn [files]. by rewrite lookup_insert_eq.
Qed.

End CsvCoverageTheorems.

(** ** The edge cases at concrete inputs *)

Section EdgeWitnesses.
Import Py Sys Extractor Expansion Helpers Resume Examples.
Local Open Scope list_scope.

Lemma expand_without_layouts_witness :
  expand py_urljoin site "docs" false JNull empty_expansion = (Ok [], empty_expansion)
  /\ expand py_urljoin site "docs" false (JList []) empty_expansion
     = (Ok [], empty_expansion)
  /\ expand py_urljoin site "docs" false error_object empty_expansion
     = (Raise AttributeError, empty_expansion)
  /\ expand py_urljoin site "docs" false (JStr "error") empty_expansion
     = (Raise AttributeError, empty_expansion)
  /\ expand py_urljoin site "docs" false (JInt 404) empty_expansion
     = (Raise TypeError, empty_expansion)
  /\ fetch_child_layouts py_urljoin site "docs" false flaky 0 resumed_expansion
     = (Ok [], resumed_expansion).
Proof.
  destruct (expand_without_layouts py_urljoin site "docs" false empty_expansion)
    as (Hfalsy & Hdict & Hstr & Hnumber & _).
  destruct (expand_without_layouts py_urljoin site "docs" false resumed_expansion)
    as (_ & _ & _ & _ & Hvisited).
  split; [by apply Hfalsy |]. split; [by apply Hfalsy |].
  split; [apply Hdict; apply insert_non_empty |].
  split; [by apply Hstr |]. split; [by apply Hnumber |].
  apply Hvisited. by vm_compute.
Defined.

Lemma initialize_session_without_state_witness :
  initialize_session false "state.json" blank_checkpoint closed_world
  = Some (open_session closed_world)
  /\ initialize_session true "state.json" empty_checkpoints closed_world
     = Some (open_session closed_world)
  /\ initialize_session true "state.json" broken_checkpoint closed_world
     = Some (open_session closed_world)
  /\ initialize_session true "state.json" blank_checkpoint closed_world
     = Some (open_session closed_world)
  /\ initialize_session true "state.json" list_checkpoint resumed_world
     = Some (start_over (open_session resumed_world)).
Proof.
  destruct (initialize_session_without_state "state.json" blank_checkpoint closed_world)
    as (Hoff & _ & _ & Hfalsy & _).
  destruct (initialize_session_without_state "state.json" empty_checkpoints closed_world)
    as (_ & Hnone & _).
  destruct (initialize_session_without_state "state.json" broken_checkpoint closed_world)
    as (_ & _ & Hbroken & _).
  destruct (initialize_session_without_state "state.json" list_checkpoint resumed_world)
    as (_ & _ & _ & _ & Hother).
  split; [exact Hoff |]. split; [by apply Hnone |]. split; [by apply Hbroken |].
  split; [by apply (Hfalsy (JDict ∅)) |].
  by apply (Hother (JList [JInt 1])).
Defined.

End EdgeWitnesses.

Section CsvWitnesses.
Import Py CsvExport Examples.
Local Open Scope list_scope.

Lemma csv_export_failures_witness :
  export [Page.to_dict record_home; page_at "https://example.com/a"]
         "pages.csv" empty_csv_outputs
  = Some (false, empty_csv_outputs)
  /\ export [Page.to_dict record_home] "pages.csv" locked_csv_outputs
     = Some (false, locked_csv_outputs)
  /\ exists fs',
       export [page_without_cells; Page.to_dict record_home]
              "pages.csv" empty_csv_outputs
       = Some (false, fs')
       /\ files fs' !! "pages.csv" = Some (header :: [record_row record_home]).
Proof.
  destruct (csv_export_failures
              [Page.to_dict record_home; page_at "https://example.com/a"]
              "pages.csv" empty_csv_outputs) as (Hkey & _).
  destruct (csv_export_failures [Page.to_dict record_home] "pages.csv"
                                locked_csv_outputs) as (_ & Hlocked & _).
  destruct (csv_export_failures [page_without_cells; Page.to_dict record_home]
                                "pages.csv" empty_csv_outputs) as (_ & _ & Hrow).
  split; [| split].
  - apply (Hkey (page_at "https://example.com/a") KeyError); [| reflexivity].
    apply elem_of_cons. right. apply elem_of_cons. by left.
  - apply Hlocked; [reflexivity | by vm_compute].
  - apply (Hrow [Page.to_dict record_home] page_without_cells []
                [record_row record_home]).
    + reflexivity.
    + by vm_compute.
    + reflexivity.
    + reflexivity.
    + reflexivity.
Defined.

End CsvWitnesses.
